(** * i2c.c: bit-bang I2C master over the FTDI MPSSE command processor

    A shallow embedding of [i2c.c] and the properties of its protocol
    engine.  The C globals ([outputBuffer], [outputSize], [inputBuffer],
    [inputRead], [ftStatus]) become the fields of a [state] record that is
    threaded through every function by a small state monad.  The D2XX driver
    behind [ftHandle] is an environment: what it is handed by [FT_Write] is
    logged in [written], and what it answers to [FT_Write] and [FT_Read] is
    taken from two reply scripts held in the same record.  Bytes are
    integers in 0..255; [uchar] is the conversion to [unsigned char].
    Output on stdout and stderr ([fprintf], [dump_hex]) changes none of the
    modelled state and is left out, except for the list of acknowledging
    addresses that the bus scan prints. *)

From Stdlib Require Import Ascii.
From Stdlib Require Import ZArith List Lia Bool.
Import ListNotations.
Open Scope Z_scope.

(** ** Constants and macros *)

Definition READ (addr : Z) : Z := Z.lor (Z.shiftl addr 1) 0x01.
Definition WRITE (addr : Z) : Z := Z.lor (Z.shiftl addr 1) 0x00.

Definition SLAVE_NAK_ADDR : Z := -2.
Definition SLAVE_NAK_DATA : Z := -3.

Definition SCL : Z := Z.shiftl 1 0.
Definition SDA_OUT : Z := Z.shiftl 1 1.
Definition SDA_IN : Z := Z.shiftl 1 2.

(* MPSSE opcodes *)
Definition MSB_FALLING_EDGE_CLOCK_BYTE_OUT : Z := 0x11.
Definition MSB_FALLING_EDGE_CLOCK_BIT_OUT : Z := 0x13.
Definition MSB_FALLING_EDGE_CLOCK_BYTE_IN : Z := 0x20.
Definition MSB_RISING_EDGE_CLOCK_BIT_IN : Z := 0x22.
Definition SET_BITS_LOW_BYTE : Z := 0x80.
Definition SEND_IMMEDIATE : Z := 0x87.
Definition DISABLE_LOOPBACK : Z := 0x85.
Definition SET_CLK_DIV : Z := 0x86.
Definition DISABLE_CLK_DIV_5 : Z := 0x8A.
Definition ENABLE_3_PHASE_CLK : Z := 0x8C.
Definition DISABLE_ADAPTIVE_CLK : Z := 0x97.
Definition OPEN_DRAIN : Z := 0x9E.

(* ftd2xx.h *)
Definition FT_OK : Z := 0.
Definition FT_IO_ERROR : Z := 4.

(* sizeof(outputBuffer) *)
Definition sizeof_outputBuffer : Z := 1024.

(* conversion to unsigned char *)
Definition uchar (x : Z) : Z := x mod 256.

(** ** Program state and the driver behind it *)

Record state := mkState {
  outputBuffer : list Z;            (* outputBuffer[0 .. outputSize-1] *)
  inputBuffer : list Z;
  inputRead : Z;
  ftStatus : Z;
  written : list (list Z);          (* every buffer handed to FT_Write, in order *)
  write_replies : list Z;           (* status of the FT_Write calls to come *)
  read_replies : list (Z * list Z)  (* status and bytes of the FT_Read calls to come *)
}.

Definition outputSize (st : state) : Z := Z.of_nat (length (outputBuffer st)).

Definition set_outputBuffer (b : list Z) (st : state) : state :=
  mkState b (inputBuffer st) (inputRead st) (ftStatus st)
          (written st) (write_replies st) (read_replies st).

Definition set_ftStatus (s : Z) (st : state) : state :=
  mkState (outputBuffer st) (inputBuffer st) (inputRead st) s
          (written st) (write_replies st) (read_replies st).

(* A freshly started program talking to a driver with the given scripts. *)
Definition boot (wr : list Z) (rd : list (Z * list Z)) : state :=
  mkState [] (repeat 0 1024) 0 FT_OK [] wr rd.

(** ** A state monad for the globals *)

Definition M (A : Type) : Type := state -> A * state.

Definition ret {A} (a : A) : M A := fun st => (a, st).

Definition bind {A B} (m : M A) (k : A -> M B) : M B :=
  fun st => let (a, st') := m st in k a st'.

Notation "x <- m ;; k" := (bind m (fun x => k))
  (at level 61, m at next level, right associativity).
Notation "m ;; k" := (bind m (fun _ => k))
  (at level 61, right associativity).

(* for (i = lo; ...; i++) body, run for n iterations *)
Fixpoint for_loop (n : nat) (i : Z) (body : Z -> M unit) : M unit :=
  match n with
  | O => ret tt
  | S n' => body i ;; for_loop n' (i + 1) body
  end.

(* for (i = lo; i < hi; i++) body *)
Definition for_ (lo hi : Z) (body : Z -> M unit) : M unit :=
  for_loop (Z.to_nat (hi - lo)) lo body.

(* the same loop with a body that may return from the enclosing function:
   [Some r] is "return r", [None] is "fall through" *)
Fixpoint for_ret_loop (n : nat) (i : Z) (body : Z -> M (option Z)) : M (option Z) :=
  match n with
  | O => ret None
  | S n' => r <- body i ;;
            match r with
            | Some v => ret (Some v)
            | None => for_ret_loop n' (i + 1) body
            end
  end.

Definition for_ret (lo hi : Z) (body : Z -> M (option Z)) : M (option Z) :=
  for_ret_loop (Z.to_nat (hi - lo)) lo body.

(** ** The driver calls *)

(* FT_Write(ftHandle, buf, len, &outputSent): the count of bytes sent is
   never read by the program. *)
Definition FT_Write (buf : list Z) : M Z := fun st =>
  (hd FT_OK (write_replies st),
   mkState (outputBuffer st) (inputBuffer st) (inputRead st) (ftStatus st)
           (written st ++ [buf]) (tl (write_replies st)) (read_replies st)).

(* FT_Read(ftHandle, inputBuffer, n, &inputRead): at most n bytes arrive at
   the front of inputBuffer; an exhausted script is a read that times out
   with nothing received. *)
Definition FT_Read (n : Z) : M Z := fun st =>
  match read_replies st with
  | [] =>
      (FT_OK,
       mkState (outputBuffer st) (inputBuffer st) 0 (ftStatus st)
               (written st) (write_replies st) [])
  | (s, bytes) :: rest =>
      let got := firstn (Z.to_nat n) bytes in
      (s,
       mkState (outputBuffer st)
               (got ++ skipn (length got) (inputBuffer st))
               (Z.of_nat (length got)) (ftStatus st)
               (written st) (write_replies st) rest)
  end.

(** ** The command buffer *)

(* append a command or data value to the command buffer *)
Definition append (data : Z) : M Z := fun st =>
  if outputSize st >=? sizeof_outputBuffer - 1 then (-1, st)
  else (0, set_outputBuffer (outputBuffer st ++ [uchar data]) st).

(* empty the command buffer *)
Definition flush : M unit := fun st => (tt, set_outputBuffer [] st).

(* execute the command buffer *)
Definition execute : M Z := fun st =>
  if outputSize st =? 0 then (0, st)
  else
    let (s, st1) := FT_Write (outputBuffer st) st in
    (s, set_outputBuffer [] (set_ftStatus s st1)).

Definition set_bits (data : Z) : M unit :=
  append SET_BITS_LOW_BYTE ;;
  append data ;;
  append (Z.lor SDA_OUT SCL) ;;
  ret tt.

(** ** I2C primitives *)

Definition repeat_count : Z := 40.

(* start is a falling edge on SDA while SCL high *)
Definition i2c_start_bk : M unit :=
  for_ 0 repeat_count (fun _ => set_bits (Z.lor SDA_OUT SCL)) ;;
  for_ 0 repeat_count (fun _ => set_bits SCL) ;;
  for_ 0 repeat_count (fun _ => set_bits 0).

(* stop is a rising edge on SDA while SCL high *)
Definition i2c_stop_bk : M unit :=
  for_ 0 repeat_count (fun _ => set_bits 0) ;;
  for_ 0 repeat_count (fun _ => set_bits SCL) ;;
  for_ 0 repeat_count (fun _ => set_bits (Z.lor SDA_OUT SCL)).

Definition i2c_send_bk (data : Z) : M Z :=
  let data := uchar data in
  append MSB_FALLING_EDGE_CLOCK_BYTE_OUT ;;
  append 0x00 ;;
  append 0x00 ;;
  append data ;;
  set_bits SDA_OUT ;;
  append MSB_RISING_EDGE_CLOCK_BIT_IN ;;
  append 0x00 ;;
  append SEND_IMMEDIATE ;;
  execute ;;
  s <- FT_Read 1 ;;
  fun st =>
    let st := set_ftStatus s st in
    if negb (ftStatus st =? FT_OK) || (inputRead st =? 0) then
      (-2, st)
    else if negb (Z.land (nth 0 (inputBuffer st) 0) 0x01 =? 0x00) then
      (-1, st)
    else
      (set_bits SDA_OUT ;;
       execute ;;
       ret 0) st.

(* read some number of bytes and ACK every one except the last *)
Definition read_bytes (nbytes : Z) : M Z :=
  if nbytes <=? 0 then ret (-1)
  else
    for_ 0 nbytes (fun i =>
      append MSB_FALLING_EDGE_CLOCK_BYTE_IN ;;
      append 0x00 ;;
      append 0x00 ;;
      append MSB_FALLING_EDGE_CLOCK_BIT_OUT ;;
      append 0x00 ;;
      (if i =? nbytes - 1 then append 0x80 else append 0x00) ;;
      ret tt) ;;
    append SEND_IMMEDIATE ;;
    execute ;;
    s <- FT_Read nbytes ;;
    (fun st => (tt, set_ftStatus s st)) ;;
    ret 0.

(** ** Device configuration *)

(* What the driver answers to the set-up calls of [ftdi_configure_i2c], in
   the order of the calls; [queue_size] is the count FT_GetQueueStatus
   stores in inputSize. *)
Record setup_replies := mkSetup {
  open_status : Z;           (* FT_OpenEx *)
  reset_status : Z;          (* FT_ResetDevice *)
  queue_status : Z;          (* FT_GetQueueStatus *)
  queue_size : Z;
  usb_status : Z;            (* FT_SetUSBParameters *)
  chars_status : Z;          (* FT_SetChars *)
  timeouts_status : Z;       (* FT_SetTimeouts *)
  latency_status : Z;        (* FT_SetLatencyTimer *)
  bitmode_reset_status : Z;  (* FT_SetBitMode(ftHandle, 0x0, 0x00) *)
  bitmode_mpsse_status : Z   (* FT_SetBitMode(ftHandle, 0x0, 0x02) *)
}.

Definition setup_all_ok : setup_replies :=
  mkSetup FT_OK FT_OK FT_OK 0 FT_OK FT_OK FT_OK FT_OK FT_OK FT_OK.

(* the choice of dwClockDivisor at the top of ftdi_configure_i2c *)
Definition dwClockDivisor (speed_khz : Z) : Z :=
  if speed_khz =? 400 then 0x004A else 0x012B.

Definition ftdi_configure_i2c (drv : setup_replies) (speed_khz : Z) : M Z :=
  let dwClockDivisor := dwClockDivisor speed_khz in
  fun st =>
    let st := set_ftStatus (open_status drv) st in
    if negb (ftStatus st =? FT_OK) then (-1, st)
    else
      (* reset device *)
      let st := set_ftStatus (reset_status drv) st in
      (* purge the USB receive buffer *)
      let st := set_ftStatus (Z.lor (ftStatus st) (queue_status drv)) st in
      let inputSize := queue_size drv in
      let st := if (ftStatus st =? FT_OK) && (inputSize >? 0)
                then snd (FT_Read inputSize st) else st in
      let st := set_ftStatus (Z.lor (ftStatus st) (usb_status drv)) st in
      let st := set_ftStatus (Z.lor (ftStatus st) (chars_status drv)) st in
      let st := set_ftStatus (Z.lor (ftStatus st) (timeouts_status drv)) st in
      let st := set_ftStatus (Z.lor (ftStatus st) (latency_status drv)) st in
      let st := set_ftStatus (Z.lor (ftStatus st) (bitmode_reset_status drv)) st in
      let st := set_ftStatus (Z.lor (ftStatus st) (bitmode_mpsse_status drv)) st in
      if negb (ftStatus st =? FT_OK) then (-1, st)
      else
        (* Disables the clk divide by 5 *)
        (append DISABLE_CLK_DIV_5 ;;
         (* Disable adaptive clocking *)
         append DISABLE_CLK_DIV_5 ;;
         (* Enables 3 phase data clocking *)
         append ENABLE_3_PHASE_CLK ;;
         execute ;;
         (* Set values and directions of lower 8 pins *)
         append SET_BITS_LOW_BYTE ;;
         append (Z.lor SDA_OUT SCL) ;;
         append (Z.lor SDA_OUT SCL) ;;
         (* Set clock divisor *)
         append SET_CLK_DIV ;;
         append (Z.land dwClockDivisor 0xFF) ;;
         append (Z.land (Z.shiftr dwClockDivisor 8) 0xFF) ;;
         execute ;;
         (* The FT232H supports open-drain mode directly *)
         append OPEN_DRAIN ;;
         append (Z.lor SDA_OUT SCL) ;;
         append 0x00 ;;
         execute ;;
         (* Turn off Loopback *)
         append DISABLE_LOOPBACK ;;
         execute ;;
         ret 0) st.

(** ** Transactions *)

(* Handle write-only, read-only, and write-then-read.  [wbuf\[i\]] is read
   as [nth i wbuf 0]. *)
Definition i2c_transaction (slave_addr nread nwrite : Z) (wbuf : list Z) : M Z :=
  let slave_addr := uchar slave_addr in
  w <- (if negb (nwrite =? 0) then
          (* send addr *)
          i2c_start_bk ;;
          r <- i2c_send_bk (WRITE slave_addr) ;;
          if negb (r =? 0) then
            (* slave NAK *)
            i2c_stop_bk ;;
            execute ;;
            ret (Some SLAVE_NAK_ADDR)
          else
            (* send data *)
            for_ret 0 nwrite (fun i =>
              r <- i2c_send_bk (nth (Z.to_nat i) wbuf 0) ;;
              if negb (r =? 0) then
                (* slave NAK *)
                i2c_stop_bk ;;
                execute ;;
                ret (Some SLAVE_NAK_DATA)
              else ret None)
        else ret None) ;;
  match w with
  | Some v => ret v
  | None =>
      rd <- (if negb (nread =? 0) then
               i2c_start_bk ;;         (* start or repeated start *)
               r <- i2c_send_bk (READ slave_addr) ;;
               if negb (r =? 0) then
                 (* slave NAK *)
                 i2c_stop_bk ;;
                 execute ;;
                 ret (Some SLAVE_NAK_ADDR)
               else
                 (* read data *)
                 read_bytes nread ;;
                 ret None
             else ret None) ;;
      match rd with
      | Some v => ret v
      | None =>
          (if negb (nread =? 0) || negb (nwrite =? 0) then
             i2c_stop_bk ;;
             execute ;;
             ret tt
           else ret tt) ;;
          ret 0
      end
  end.

(** ** The parts of [main] that touch the bus *)

(* case 'a': slave_addr = (unsigned char)strtoul(optarg, NULL, 0);
             slave_addr &= 0x7F;
   [v] is the value strtoul returns. *)
Definition main_opt_a (v : Z) : Z := Z.land (uchar v) 0x7F.

(* The I2C bus scan: for(i=0; i<0x7f; i++) { ... }.  The result is the list
   of addresses reported by "Slave ACKed address %02hx". *)
Fixpoint i2c_scan_loop (n : nat) (i : Z) (acked : list Z) : M (list Z) :=
  match n with
  | O => ret acked
  | S n' =>
      i2c_start_bk ;;
      r <- i2c_send_bk (READ i) ;;
      i2c_stop_bk ;;
      execute ;;
      i2c_scan_loop n' (i + 1) (if negb (r =? 0) then acked else acked ++ [uchar i])
  end.

Definition main_i2c_scan : M (list Z) :=
  i2c_scan_loop (Z.to_nat (0x7f - 0)) 0 [].

(* [main] from "open the device and configure it" on: the exit status and
   the addresses the scan reported. *)
Definition main_bus (drv : setup_replies) (speed_khz : Z) (i2c_scan : bool)
    (slave_addr nread nwrite : Z) (wbuf : list Z) : M (Z * list Z) :=
  c <- ftdi_configure_i2c drv speed_khz ;;
  if negb (c =? 0) then ret (1, [])
  else
    acked <- (if i2c_scan then main_i2c_scan else ret []) ;;
    i2c_transaction slave_addr nread nwrite wbuf ;;
    ret (0, acked).

(** ** The bus as the command processor drives it

    The byte stream handed to [FT_Write] is read the way the MPSSE command
    processor reads it: an opcode followed by its operands (a byte-mode
    clock command has a two-byte little-endian length, 0x0000 meaning one
    byte, then for output that many data bytes; a bit-mode clock command has
    a one-byte length, 0x00 meaning one bit, then for output one data byte;
    SET_BITS_LOW_BYTE has a value and a direction byte).  While reading, the
    levels of SCL (ADBUS0) and SDA (ADBUS1) are tracked: a line whose
    direction bit is 0 is released and reads high.  A start condition is a
    falling edge on SDA while SCL stays high, a stop condition a rising edge
    on SDA while SCL stays high.  Clock commands return SCL to the level it
    had and leave on SDA the last bit shifted out; with SCL low, as it is
    wherever this program clocks data, they produce neither condition. *)

Inductive expect :=
| Opcode                          (* the next byte is an opcode *)
| SetValue                        (* value byte of SET_BITS_LOW_BYTE *)
| SetDirection (value : Z)        (* direction byte of SET_BITS_LOW_BYTE *)
| LengthLow (op : Z)              (* low length byte of a byte-mode clock command *)
| LengthHigh (op : Z) (lo : Z)    (* high length byte *)
| DataBytes (k : nat)             (* k + 1 data bytes still to be clocked out *)
| BitLength (op : Z)              (* length byte of a bit-mode clock command *)
| BitData (len : Z)               (* data byte of a bit-mode output command *)
| Operands (k : nat).             (* k + 1 operand bytes of a set-up command *)

Record bus := mkBus {
  expecting : expect;
  scl : bool;                     (* level of SCL *)
  sda : bool;                     (* level of SDA as driven by the master *)
  starts : nat;                   (* start conditions so far *)
  stops : nat;                    (* stop conditions so far *)
  bytes_out : list Z;             (* data bytes clocked out, in order *)
  bits_out : list Z;              (* data byte of every bit-mode output, in order *)
  bytes_in : Z;                   (* number of bytes clocked in *)
  bits_in : Z                     (* number of bits clocked in by bit-mode input *)
}.

(* nothing sent yet: both lines released *)
Definition idle_bus : bus := mkBus Opcode true true 0 0 [] [] 0 0.

Definition line_level (value dir : Z) (pin : Z) : bool :=
  if Z.testbit dir pin then Z.testbit value pin else true.

Definition bus_step (b : bus) (x : Z) : bus :=
  let next e := mkBus e (scl b) (sda b) (starts b) (stops b)
                      (bytes_out b) (bits_out b) (bytes_in b) (bits_in b) in
  match expecting b with
  | Opcode =>
      if x =? SET_BITS_LOW_BYTE then next SetValue
      else if (x =? MSB_FALLING_EDGE_CLOCK_BYTE_OUT) || (x =? MSB_FALLING_EDGE_CLOCK_BYTE_IN)
      then next (LengthLow x)
      else if (x =? MSB_FALLING_EDGE_CLOCK_BIT_OUT) || (x =? MSB_RISING_EDGE_CLOCK_BIT_IN)
      then next (BitLength x)
      else if (x =? SET_CLK_DIV) || (x =? OPEN_DRAIN) then next (Operands 1)
      else next Opcode
  | SetValue => next (SetDirection x)
  | SetDirection value =>
      let scl' := line_level value x 0 in
      let sda' := line_level value x 1 in
      let start := scl b && scl' && sda b && negb sda' in
      let stop := scl b && scl' && negb (sda b) && sda' in
      mkBus Opcode scl' sda'
            (if start then S (starts b) else starts b)
            (if stop then S (stops b) else stops b)
            (bytes_out b) (bits_out b) (bytes_in b) (bits_in b)
  | LengthLow op => next (LengthHigh op x)
  | LengthHigh op lo =>
      if op =? MSB_FALLING_EDGE_CLOCK_BYTE_OUT
      then next (DataBytes (Z.to_nat (lo + 256 * x)))
      else mkBus Opcode (scl b) (sda b) (starts b) (stops b)
                 (bytes_out b) (bits_out b) (bytes_in b + (lo + 256 * x + 1)) (bits_in b)
  | DataBytes k =>
      mkBus (match k with O => Opcode | S k' => DataBytes k' end)
            (scl b) (Z.testbit x 0) (starts b) (stops b)
            (bytes_out b ++ [x]) (bits_out b) (bytes_in b) (bits_in b)
  | BitLength op =>
      if op =? MSB_FALLING_EDGE_CLOCK_BIT_OUT then next (BitData x)
      else mkBus Opcode (scl b) (sda b) (starts b) (stops b)
                 (bytes_out b) (bits_out b) (bytes_in b) (bits_in b + (x + 1))
  | BitData len =>
      mkBus Opcode (scl b) (Z.testbit x (7 - len)) (starts b) (stops b)
            (bytes_out b) (bits_out b ++ [x]) (bytes_in b) (bits_in b)
  | Operands k =>
      next (match k with O => Opcode | S k' => Operands k' end)
  end.

Definition bus_run (b : bus) (bytes : list Z) : bus := fold_left bus_step bytes b.

(* every byte handed to the driver so far *)
Definition wire (st : state) : list Z := concat (written st).

(* the bytes the driver was handed between two states *)
Definition sent_since (st st' : state) : list Z :=
  skipn (length (wire st)) (wire st').

(** ** Replies of a slave *)

(* the reply to the read of i2c_send_bk that makes it report an acknowledge *)
Definition is_ack (r : Z * list Z) : bool :=
  (fst r =? FT_OK) &&
  match snd r with
  | [] => false
  | b :: _ => Z.land b 0x01 =? 0x00
  end.

(* ... and a protocol-level no-acknowledge *)
Definition is_nak (r : Z * list Z) : bool :=
  (fst r =? FT_OK) &&
  match snd r with
  | [] => false
  | b :: _ => negb (Z.land b 0x01 =? 0x00)
  end.

(* ... and a transport failure: bad status or nothing received *)
Definition is_io_failure (r : Z * list Z) : bool :=
  negb (fst r =? FT_OK) ||
  match snd r with
  | [] => true
  | _ :: _ => false
  end.

(** ** Command sequences

    The byte sequences the primitives queue, and the effect of queueing on
    a buffer of bounded size: [append] drops what does not fit. *)

(* room in the command buffer: append refuses once outputSize reaches
   sizeof(outputBuffer) - 1 *)
Definition capacity : nat := 1023.

(* queue [ds], as far as there is room *)
Definition enqueue (ds : list Z) (st : state) : state :=
  set_outputBuffer
    (outputBuffer st ++ firstn (capacity - length (outputBuffer st)) ds) st.

Definition set_bits_cmd (data : Z) : list Z :=
  [SET_BITS_LOW_BYTE; data; Z.lor SDA_OUT SCL].

(* the same levels set n times over *)
Definition hold (data : Z) (n : nat) : list Z :=
  concat (repeat (set_bits_cmd data) n).

Definition start_cmds : list Z :=
  hold (Z.lor SDA_OUT SCL) 40 ++ hold SCL 40 ++ hold 0 40.

Definition stop_cmds : list Z :=
  hold 0 40 ++ hold SCL 40 ++ hold (Z.lor SDA_OUT SCL) 40.

Definition send_cmds (data : Z) : list Z :=
  [MSB_FALLING_EDGE_CLOCK_BYTE_OUT; 0x00; 0x00; uchar data] ++
  set_bits_cmd SDA_OUT ++
  [MSB_RISING_EDGE_CLOCK_BIT_IN; 0x00; SEND_IMMEDIATE].

(* SDA high, SCL low: queued by i2c_send_bk after an acknowledge *)
Definition release_cmds : list Z := set_bits_cmd SDA_OUT.

(* one byte of read_bytes: clock a byte in, clock the acknowledge bit out *)
Definition read_group (nbytes i : Z) : list Z :=
  [MSB_FALLING_EDGE_CLOCK_BYTE_IN; 0x00; 0x00;
   MSB_FALLING_EDGE_CLOCK_BIT_OUT; 0x00;
   if i =? nbytes - 1 then 0x80 else 0x00].

(* the indices i, i+1, ..., i+n-1 *)
Fixpoint indices (n : nat) (i : Z) : list Z :=
  match n with
  | O => []
  | S n' => i :: indices n' (i + 1)
  end.

Definition read_cmds (nbytes : Z) : list Z :=
  flat_map (read_group nbytes) (indices (Z.to_nat nbytes) 0) ++ [SEND_IMMEDIATE].

(* the reply the next FT_Read will get *)
Definition next_reply (st : state) : Z * list Z :=
  match read_replies st with
  | [] => (FT_OK, [])
  | r :: _ => r
  end.

(** The outcomes of sending one byte, in the words of the specification:
    a transport failure or a read of no bytes is an I/O error; a response
    with its low bit set is a Nak; anything else is an Ack. *)
Inductive send_outcome := IoError | Nak | Ack.

Definition interpret_reply (r : Z * list Z) : send_outcome :=
  if is_io_failure r then IoError
  else if is_nak r then Nak
  else Ack.

Definition send_code (o : send_outcome) : Z :=
  match o with
  | IoError => -2
  | Nak => -1
  | Ack => 0
  end.

(* the bus is idle: both lines high, the command processor between commands *)
Definition bus_idle (b : bus) : Prop :=
  expecting b = Opcode /\ scl b = true /\ sda b = true.

(** ** The three blocks of [i2c_transaction]

    [if(nwrite) { ... }], [if(nread) { ... }] and [if(nread || nwrite) { ... }],
    named so that each can be reasoned about on its own; a block yields
    [Some v] where the function returns [v] from inside it. *)

Definition write_block (slave_addr nwrite : Z) (wbuf : list Z) : M (option Z) :=
  if negb (nwrite =? 0) then
    i2c_start_bk ;;
    r <- i2c_send_bk (WRITE slave_addr) ;;
    if negb (r =? 0) then
      i2c_stop_bk ;;
      execute ;;
      ret (Some SLAVE_NAK_ADDR)
    else
      for_ret 0 nwrite (fun i =>
        r <- i2c_send_bk (nth (Z.to_nat i) wbuf 0) ;;
        if negb (r =? 0) then
          i2c_stop_bk ;;
          execute ;;
          ret (Some SLAVE_NAK_DATA)
        else ret None)
  else ret None.

Definition read_block (slave_addr nread : Z) : M (option Z) :=
  if negb (nread =? 0) then
    i2c_start_bk ;;
    r <- i2c_send_bk (READ slave_addr) ;;
    if negb (r =? 0) then
      i2c_stop_bk ;;
      execute ;;
      ret (Some SLAVE_NAK_ADDR)
    else
      read_bytes nread ;;
      ret None
  else ret None.

Definition stop_block (nread nwrite : Z) : M unit :=
  if negb (nread =? 0) || negb (nwrite =? 0) then
    i2c_stop_bk ;;
    execute ;;
    ret tt
  else ret tt.

(* the buffers handed to the driver for the payload bytes wbuf[i] of the
   given indices, every one of them acknowledged *)
Definition payload_batches (wbuf : list Z) (ixs : list Z) : list (list Z) :=
  flat_map (fun i => [send_cmds (nth (Z.to_nat i) wbuf 0); release_cmds]) ixs.

(** What a run of [m] from [st] came to: its result, the buffers it handed
    to the driver, the read replies it left, and an empty command buffer. *)
Definition outcome {A} (p : A * state) (st : state) (a : A)
    (batches : list (list Z)) (rest : list (Z * list Z)) : Prop :=
  fst p = a /\
  outputBuffer (snd p) = [] /\
  read_replies (snd p) = rest /\
  written (snd p) = written st ++ batches.

(* the first k replies left in the script are all acknowledges *)
Definition acknowledged (k : nat) (replies : list (Z * list Z)) : Prop :=
  (k <= length replies)%nat /\ forallb is_ack (firstn k replies) = true.

(* the buffers of a write-then-read transaction that is acknowledged throughout *)
Definition write_read_batches (slave_addr nread nwrite : Z) (wbuf : list Z)
    : list (list Z) :=
  [start_cmds ++ send_cmds (WRITE slave_addr); release_cmds] ++
  payload_batches wbuf (indices (Z.to_nat nwrite) 0) ++
  [start_cmds ++ send_cmds (READ slave_addr); release_cmds;
   firstn capacity (read_cmds nread); stop_cmds].

(** ** The two halves of [ftdi_configure_i2c]

    The driver calls from FT_ResetDevice to the second FT_SetBitMode, which
    only gather a status, and the commands sent once they all succeeded. *)

Definition setup_calls (drv : setup_replies) (st : state) : state :=
  let st := set_ftStatus (reset_status drv) st in
  let st := set_ftStatus (Z.lor (ftStatus st) (queue_status drv)) st in
  let inputSize := queue_size drv in
  let st := if (ftStatus st =? FT_OK) && (inputSize >? 0)
            then snd (FT_Read inputSize st) else st in
  let st := set_ftStatus (Z.lor (ftStatus st) (usb_status drv)) st in
  let st := set_ftStatus (Z.lor (ftStatus st) (chars_status drv)) st in
  let st := set_ftStatus (Z.lor (ftStatus st) (timeouts_status drv)) st in
  let st := set_ftStatus (Z.lor (ftStatus st) (latency_status drv)) st in
  let st := set_ftStatus (Z.lor (ftStatus st) (bitmode_reset_status drv)) st in
  set_ftStatus (Z.lor (ftStatus st) (bitmode_mpsse_status drv)) st.

Definition setup_commands (dwClockDivisor : Z) : M Z :=
  append DISABLE_CLK_DIV_5 ;;
  append DISABLE_CLK_DIV_5 ;;
  append ENABLE_3_PHASE_CLK ;;
  execute ;;
  append SET_BITS_LOW_BYTE ;;
  append (Z.lor SDA_OUT SCL) ;;
  append (Z.lor SDA_OUT SCL) ;;
  append SET_CLK_DIV ;;
  append (Z.land dwClockDivisor 0xFF) ;;
  append (Z.land (Z.shiftr dwClockDivisor 8) 0xFF) ;;
  execute ;;
  append OPEN_DRAIN ;;
  append (Z.lor SDA_OUT SCL) ;;
  append 0x00 ;;
  execute ;;
  append DISABLE_LOOPBACK ;;
  execute ;;
  ret 0.

(* the buffers a successful configuration hands to the driver *)
Definition setup_batches (dwClockDivisor : Z) : list (list Z) :=
  [[DISABLE_CLK_DIV_5; DISABLE_CLK_DIV_5; ENABLE_3_PHASE_CLK];
   [SET_BITS_LOW_BYTE; Z.lor SDA_OUT SCL; Z.lor SDA_OUT SCL;
    SET_CLK_DIV; dwClockDivisor mod 256; dwClockDivisor / 256];
   [OPEN_DRAIN; Z.lor SDA_OUT SCL; 0x00];
   [DISABLE_LOOPBACK]].

(* the buffers the bus scan hands to the driver when it probes the given
   addresses against the given replies, and the addresses it reports *)
Fixpoint scan_batches (ixs : list Z) (replies : list (Z * list Z))
    : list (list Z) :=
  match ixs with
  | [] => []
  | i :: ixs' =>
      let reply := match replies with [] => (FT_OK, []) | r :: _ => r end in
      ((start_cmds ++ send_cmds (READ i)) ::
       (if is_ack reply then [release_cmds] else [])) ++
      [stop_cmds] ++ scan_batches ixs' (tl replies)
  end.

Fixpoint scan_acked (ixs : list Z) (replies : list (Z * list Z)) : list Z :=
  match ixs with
  | [] => []
  | i :: ixs' =>
      let reply := match replies with [] => (FT_OK, []) | r :: _ => r end in
      (if is_ack reply then [uchar i] else []) ++ scan_acked ixs' (tl replies)
  end.

(* the replies of a bus whose only slave is at [addr] to probes of the
   addresses 0, 1, ..., n-1 in turn *)
Definition bus_with_slave_at (addr : Z) (n : nat) : list (Z * list Z) :=
  map (fun i => if i =? addr then (FT_OK, [0x00]) else (FT_OK, [0x01]))
      (indices n 0).

(** ** The command buffer between calls

    [leaves_empty m]: [m] ends with an empty command buffer wherever it
    starts; [keeps_empty m]: it does so when it starts with one.  The states
    the program can be in between two calls of its top-level functions are
    the [reachable] ones. *)

Definition leaves_empty {A} (m : M A) : Prop :=
  forall st, outputBuffer (snd (m st)) = [].

Definition keeps_empty {A} (m : M A) : Prop :=
  forall st, outputBuffer st = [] -> outputBuffer (snd (m st)) = [].

Inductive reachable : state -> Prop :=
| reach_boot : forall wr rd, reachable (boot wr rd)
| reach_configure : forall drv speed_khz st,
    reachable st -> reachable (snd (ftdi_configure_i2c drv speed_khz st))
| reach_scan : forall st,
    reachable st -> reachable (snd (main_i2c_scan st))
| reach_transaction : forall slave_addr nread nwrite wbuf st,
    reachable st ->
    reachable (snd (i2c_transaction slave_addr nread nwrite wbuf st)).

(** ** Text output and the command line

    C strings are lists of characters (without the terminating NUL); a
    [char *] that may be NULL is an [option]. *)

(* a lowercase hexadecimal digit as printf's %x writes it *)
Definition hex_digit (d : Z) : ascii :=
  if d <? 10 then ascii_of_nat (Z.to_nat (48 + d))
  else ascii_of_nat (Z.to_nat (87 + d)).

Definition newline : ascii := ascii_of_nat 10.

(* fprintf(stdout, "%02hx ", v) for an unsigned char v *)
Definition fmt_02hx (v : Z) : list ascii :=
  [hex_digit (v / 16); hex_digit (v mod 16); " "%char].

(* dump received bytes: what dump_hex(buf, len) writes to stdout *)
Fixpoint dump_hex_loop (n : nat) (i : Z) (buf : list Z) : list ascii :=
  match n with
  | O => []
  | S n' =>
      fmt_02hx (uchar (nth (Z.to_nat i) buf 0)) ++
      (if (i + 1) mod 16 =? 0 then [newline] else []) ++
      dump_hex_loop n' (i + 1) buf
  end.

Definition dump_hex (buf : list Z) (len : Z) : list ascii :=
  dump_hex_loop (Z.to_nat (len - 0)) 0 buf.

(* reading a dump back: two hexadecimal digits and the blank after them
   make a byte, newlines are skipped *)
Definition hex_value (c : ascii) : Z :=
  let n := Z.of_nat (nat_of_ascii c) in
  if n <? 58 then n - 48 else n - 87.

Fixpoint undump (s : list ascii) : list Z :=
  match s with
  | [] => []
  | c :: s' =>
      if Ascii.eqb c newline then undump s'
      else
        match s' with
        | l :: _ :: rest => (16 * hex_value c + hex_value l) :: undump rest
        | _ => []
        end
  end.

(* strpbrk(s, accept) of <string.h>: the position of the first character of
   s that occurs in accept *)
Fixpoint strpbrk (s accept : list ascii) : option nat :=
  match s with
  | [] => None
  | c :: s' =>
      if existsb (Ascii.eqb c) accept then Some O
      else option_map S (strpbrk s' accept)
  end.

(* mystrsep(&stringp, delim): the value returned and the new *stringp.  The
   delimiter found is overwritten with NUL, which ends the returned token. *)
Definition mystrsep (stringp : option (list ascii)) (delim : list ascii)
    : option (list ascii) * option (list ascii) :=
  match stringp with
  | None => (None, None)
  | Some start =>
      match strpbrk start delim with
      | None => (Some start, None)
      | Some p => (Some (firstn p start), Some (skipn (S p) start))
      end
  end.

(* the write buffer of main: wbufsize and the bytes wbuf[0 .. pwbuf-wbuf-1] *)
Record write_buffer := mkWbuf {
  wbufsize : Z;
  wbuf_bytes : list Z
}.

Section WriteArguments.

(* strtoul(s, NULL, 0) of <stdlib.h> *)
Variable strtoul : list ascii -> Z.

(* grow our buffer if needed, then *pwbuf++ = strtoul(s, NULL, 0) *)
Definition store_byte (s : list ascii) (w : write_buffer) : write_buffer :=
  let len := Z.of_nat (length (wbuf_bytes w)) in
  let wbufsize := if len >=? wbufsize w then wbufsize w * 2 else wbufsize w in
  mkWbuf wbufsize (wbuf_bytes w ++ [uchar (strtoul s)]).

(* while((s = mystrsep(&arg, " "))) { ... }: [None] when the fuel runs out
   before the loop ends *)
Fixpoint split_arg (fuel : nat) (arg : option (list ascii)) (w : write_buffer)
    : option write_buffer :=
  match fuel with
  | O => None
  | S fuel' =>
      match mystrsep arg [" "%char] with
      | (None, _) => Some w
      | (Some s, arg') => split_arg fuel' arg' (store_byte s w)
      end
  end.

(* while(optind < argc) { arg = argv[optind++]; ... } *)
Fixpoint main_write_args (args : list (list ascii)) (w : write_buffer)
    : option write_buffer :=
  match args with
  | [] => Some w
  | arg :: rest =>
      match split_arg (S (S (length arg))) (Some arg) w with
      | None => None
      | Some w' => main_write_args rest w'
      end
  end.

(* "grab all remaining args as the data to write": nwrite and the bytes *)
Definition main_wbuf (writing : bool) (args : list (list ascii))
    : option (Z * write_buffer) :=
  if writing then
    match main_write_args args (mkWbuf 128 []) with
    | None => None
    | Some w => Some (Z.of_nat (length (wbuf_bytes w)), w)
    end
  else Some (0, mkWbuf 128 []).

End WriteArguments.

(* the fields of a string between its blanks *)
Fixpoint split_blanks (s : list ascii) : list (list ascii) :=
  match s with
  | [] => [[]]
  | c :: s' =>
      if Ascii.eqb c " "%char then [] :: split_blanks s'
      else
        match split_blanks s' with
        | [] => [[c]]
        | t :: ts => (c :: t) :: ts
        end
  end.

(* fields joined with one blank between them *)
Fixpoint join_blanks (ts : list (list ascii)) : list ascii :=
  match ts with
  | [] => []
  | [t] => t
  | t :: ts' => t ++ " "%char :: join_blanks ts'
  end.

(** ** The bus across a run

    [drives m P Q]: run from an empty command buffer with the bus in a state
    satisfying [P], [m] ends with an empty command buffer, has only added to
    what the driver was handed, and leaves the bus in a state satisfying [Q]
    of its result. *)

Definition drives {A} (m : M A) (P : bus -> Prop) (Q : A -> bus -> Prop) : Prop :=
  forall (st : state) (b : bus),
    outputBuffer st = [] ->
    P b ->
    exists batches : list (list Z),
      written (snd (m st)) = written st ++ batches /\
      outputBuffer (snd (m st)) = [] /\
      Q (fst (m st)) (bus_run b (concat batches)).

(* between two commands with SCL low, after s start and p stop conditions *)
Definition at_low (s p : nat) (b : bus) : Prop :=
  expecting b = Opcode /\ scl b = false /\ starts b = s /\ stops b = p.

(* idle, after s start and p stop conditions *)
Definition at_idle (s p : nat) (b : bus) : Prop :=
  bus_idle b /\ starts b = s /\ stops b = p.

(* two states that differ at most in what FT_Write answers and in the
   status last recorded *)
Definition same_but_writes (st st' : state) : Prop :=
  outputBuffer st = outputBuffer st' /\
  inputBuffer st = inputBuffer st' /\
  inputRead st = inputRead st' /\
  written st = written st' /\
  read_replies st = read_replies st'.

(* [m] gives the same result and keeps such states alike *)
Definition blind_to_writes {A} (m : M A) : Prop :=
  forall st st',
    same_but_writes st st' ->
    fst (m st) = fst (m st') /\ same_but_writes (snd (m st)) (snd (m st')).

(* ... and if not the same result, at least alike states *)
Definition alike_after {A} (m : M A) : Prop :=
  forall st st',
    same_but_writes st st' -> same_but_writes (snd (m st)) (snd (m st')).

(* every set-up call of ftdi_configure_i2c answers FT_OK *)
Definition setup_ok (drv : setup_replies) : Prop :=
  open_status drv = FT_OK /\ reset_status drv = FT_OK /\
  queue_status drv = FT_OK /\ usb_status drv = FT_OK /\
  chars_status drv = FT_OK /\ timeouts_status drv = FT_OK /\
  latency_status drv = FT_OK /\ bitmode_reset_status drv = FT_OK /\
  bitmode_mpsse_status drv = FT_OK.

(* a start condition can follow: between two commands, with SCL low or with
   both lines high *)
Definition may_start (s p : nat) (b : bus) : Prop :=
  expecting b = Opcode /\ (scl b = false \/ sda b = true) /\
  starts b = s /\ stops b = p.

(* where a block of i2c_transaction that is not skipped leaves the bus: with
   the clock low if it went through, idle after its stop condition if it
   returned *)
Definition after_block (s p : nat) (r : option Z) (b : bus) : Prop :=
  match r with
  | None => at_low (S s) p b
  | Some v => (v = SLAVE_NAK_ADDR \/ v = SLAVE_NAK_DATA) /\ at_idle (S s) (S p) b
  end.

(* ... and the transaction as a whole: w and d count the address bytes of
   the write and of the read phase *)
Definition after_transaction (nread nwrite : Z) (s p : nat) (r : Z) (b : bus)
    : Prop :=
  let w := if nwrite =? 0 then 0%nat else 1%nat in
  let d := if nread =? 0 then 0%nat else 1%nat in
  bus_idle b /\
  (r = 0 \/ r = SLAVE_NAK_ADDR \/ r = SLAVE_NAK_DATA) /\
  stops b = (p + Nat.max w d)%nat /\
  (s + Nat.max w d <= starts b <= s + w + d)%nat /\
  (r = 0 -> starts b = (s + w + d)%nat).

(** ** What the theorems about the bus take for granted

    The driver script logs every buffer handed to FT_Write, whatever status
    the call returns, and the input buffer is modelled without its size.
    Properties of the bus, and of the bytes handed to the driver after a
    read, are therefore stated for drivers that accept every write and for
    reads that fit the 1024 bytes of inputBuffer. *)

(* every FT_Write to come returns FT_OK (as an exhausted script does) *)
Definition writes_accepted (st : state) : Prop :=
  Forall (fun s => s = FT_OK) (write_replies st).

(* char inputBuffer[1024] *)
Definition sizeof_inputBuffer : Z := 1024.

(* the states between two calls of the top-level functions, for such
   drivers and such reads *)
Inductive between_calls : state -> Prop :=
| calls_boot : forall wr rd,
    Forall (fun s => s = FT_OK) wr -> between_calls (boot wr rd)
| calls_configure : forall drv speed_khz st,
    queue_size drv <= sizeof_inputBuffer ->
    between_calls st -> between_calls (snd (ftdi_configure_i2c drv speed_khz st))
| calls_scan : forall st,
    between_calls st -> between_calls (snd (main_i2c_scan st))
| calls_transaction : forall slave_addr nread nwrite wbuf st,
    nread <= sizeof_inputBuffer ->
    between_calls st ->
    between_calls (snd (i2c_transaction slave_addr nread nwrite wbuf st)).

(** ** [main] from the end of the option loop on

    What the option loop leaves in the variables of [main], what
    FT_ListDevices answers to scan_devices, and the rest of [main]: the value
    it exits with or returns, and the addresses the bus scan reported. *)

Record options := mkOptions {
  opt_slave_addr : Z;                     (* slave_addr: -1 unless -a was given *)
  opt_ftdi_scan : bool;                   (* ftdi_scan, set by -S *)
  opt_i2c_scan : bool;                    (* i2c_scan, set by -s *)
  opt_writing : bool;                     (* writing, set by -w *)
  opt_nread : Z;                          (* nread, set by -r *)
  opt_speed_khz : Z;                      (* speed_khz, set by -1 and -4 *)
  opt_serial_num : option (list ascii)    (* serial_num, set by -d *)
}.

Record device_list := mkDevices {
  list_status : Z;                        (* what FT_ListDevices returns *)
  serial_numbers : list (list ascii)      (* cBufLD[0 .. iNumDevs-1] *)
}.

Definition MAX_DEVICES : nat := 16.

(* scan_devices(): the value returned and the new default_serial_num, the
   serial number of the first device found *)
Definition scan_devices (devs : device_list)
    (default_serial_num : option (list ascii)) : Z * option (list ascii) :=
  if negb (list_status devs =? FT_OK) then (1, default_serial_num)
  else
    (0, match firstn MAX_DEVICES (serial_numbers devs) with
        | [] => default_serial_num
        | first :: _ => Some first
        end).

(* [None] only if the loop over the write arguments ran out of fuel *)
Definition main_after_options (strtoul : list ascii -> Z) (o : options)
    (args : list (list ascii)) (devs : device_list) (drv : setup_replies)
    : M (option (Z * list Z)) :=
  if (opt_slave_addr o <? 0) && negb (opt_ftdi_scan o) && negb (opt_i2c_scan o)
  then ret (Some (1, []))                           (* usage(argv[0]): exit(1) *)
  else
    (* grab all remaining args as the data to write *)
    match main_wbuf strtoul (opt_writing o) args with
    | None => ret None
    | Some (nwrite, w) =>
        (* if scanning only just do that and exit *)
        if opt_ftdi_scan o then ret (Some (0, []))  (* scan_devices(); exit(0) *)
        else
          (* If no serial number was given, just pick the first one *)
          let serial_num :=
            match opt_serial_num o with
            | Some s => Some s
            | None => snd (scan_devices devs None)
            end in
          match serial_num with
          | None => ret (Some (-1, []))             (* exit(-1) *)
          | Some _ =>
              r <- main_bus drv (opt_speed_khz o) (opt_i2c_scan o)
                     (opt_slave_addr o) (opt_nread o) nwrite (wbuf_bytes w) ;;
              ret (Some r)
          end
    end.

(* the hexadecimal digits of printf's %x *)
Definition hex_digits : list ascii :=
  ["0"; "1"; "2"; "3"; "4"; "5"; "6"; "7"; "8"; "9";
   "a"; "b"; "c"; "d"; "e"; "f"]%char.

(** * Properties *)

(** ** The state monad and the command buffer *)

Lemma uchar_uchar (x : Z) : uchar (uchar x) = uchar x.
Proof. unfold uchar. apply Z.mod_mod. lia. Qed.

Lemma uchar_small (x : Z) : 0 <= x < 256 -> uchar x = x.
Proof. intros H. unfold uchar. apply Z.mod_small. exact H. Qed.

Ltac fields :=
  unfold set_outputBuffer, set_ftStatus in *;
  cbn [outputBuffer inputBuffer inputRead ftStatus written write_replies
       read_replies] in *.

Lemma enqueue_nil (st : state) : enqueue [] st = st.
Proof.
  destruct st. unfold enqueue. fields.
  rewrite firstn_nil, app_nil_r. reflexivity.
Qed.

Lemma enqueue_app (a b : list Z) (st : state) :
  enqueue (a ++ b) st = enqueue b (enqueue a st).
Proof.
  destruct st as [buf ib ir fs w wr rr].
  unfold enqueue. fields. f_equal.
  rewrite firstn_app, <- app_assoc. do 2 f_equal.
  f_equal. rewrite length_app, length_firstn. lia.
Qed.

Lemma append_enqueue (d : Z) (st : state) :
  append d st =
  (if outputSize st >=? sizeof_outputBuffer - 1 then -1 else 0,
   enqueue [uchar d] st).
Proof.
  unfold append, enqueue, outputSize, sizeof_outputBuffer, capacity.
  destruct (Z.geb_spec (Z.of_nat (length (outputBuffer st))) (1024 - 1)) as [H | H].
  - replace (1023 - length (outputBuffer st))%nat with 0%nat by lia.
    rewrite firstn_O, app_nil_r. destruct st. reflexivity.
  - replace (1023 - length (outputBuffer st))%nat
      with (S (1022 - length (outputBuffer st)))%nat by lia.
    rewrite firstn_cons, firstn_nil. reflexivity.
Qed.

Lemma bind_append {A} (d : Z) (k : M A) (st : state) :
  (append d ;; k) st = k (enqueue [uchar d] st).
Proof. unfold bind. rewrite append_enqueue. reflexivity. Qed.

Lemma enqueue_cons (d : Z) (ds : list Z) (st : state) :
  enqueue ds (enqueue [d] st) = enqueue (d :: ds) st.
Proof. rewrite <- enqueue_app. reflexivity. Qed.

Lemma set_bits_enqueue (d : Z) (st : state) :
  set_bits d st = (tt, enqueue (set_bits_cmd (uchar d)) st).
Proof.
  unfold set_bits. rewrite !bind_append. unfold ret.
  rewrite !enqueue_cons. reflexivity.
Qed.

Lemma bind_set_bits {A} (d : Z) (k : M A) (st : state) :
  (set_bits d ;; k) st = k (enqueue (set_bits_cmd (uchar d)) st).
Proof. unfold bind at 1. rewrite set_bits_enqueue. reflexivity. Qed.

Lemma for_loop_set_bits (d : Z) (n : nat) (i : Z) (st : state) :
  for_loop n i (fun _ => set_bits d) st = (tt, enqueue (hold (uchar d) n) st).
Proof.
  revert i st. induction n as [| n IH]; intros i st.
  - simpl. rewrite enqueue_nil. reflexivity.
  - simpl for_loop. rewrite bind_set_bits, IH.
    change (hold (uchar d) (S n))
      with (set_bits_cmd (uchar d) ++ hold (uchar d) n).
    rewrite enqueue_app. reflexivity.
Qed.

Lemma i2c_start_bk_enqueue (st : state) :
  i2c_start_bk st = (tt, enqueue start_cmds st).
Proof.
  unfold i2c_start_bk, for_, bind. rewrite !for_loop_set_bits.
  unfold start_cmds. rewrite !enqueue_app. reflexivity.
Qed.

Lemma i2c_stop_bk_enqueue (st : state) :
  i2c_stop_bk st = (tt, enqueue stop_cmds st).
Proof.
  unfold i2c_stop_bk, for_, bind. rewrite !for_loop_set_bits.
  unfold stop_cmds. rewrite !enqueue_app. reflexivity.
Qed.

Arguments enqueue : simpl never.
Arguments capacity : simpl never.

Lemma written_enqueue (ds : list Z) (st : state) :
  written (enqueue ds st) = written st.
Proof. reflexivity. Qed.

Lemma read_replies_enqueue (ds : list Z) (st : state) :
  read_replies (enqueue ds st) = read_replies st.
Proof. reflexivity. Qed.

Lemma outputBuffer_enqueue (ds : list Z) (st : state) :
  outputBuffer (enqueue ds st) =
  outputBuffer st ++ firstn (capacity - length (outputBuffer st)) ds.
Proof. reflexivity. Qed.

(* from an empty buffer, what is queued is what fits *)
Lemma outputBuffer_enqueue_empty (ds : list Z) (st : state) :
  outputBuffer st = [] -> outputBuffer (enqueue ds st) = firstn capacity ds.
Proof.
  intros H. rewrite outputBuffer_enqueue, H. simpl length.
  rewrite Nat.sub_0_r. reflexivity.
Qed.

Lemma outputBuffer_enqueue_fits (ds : list Z) (st : state) :
  (length (outputBuffer st) + length ds <= capacity)%nat ->
  outputBuffer (enqueue ds st) = outputBuffer st ++ ds.
Proof.
  intros H. rewrite outputBuffer_enqueue, firstn_all2 by lia. reflexivity.
Qed.

Lemma outputBuffer_enqueue_nonempty (ds : list Z) (st : state) :
  ds <> [] -> outputBuffer (enqueue ds st) <> [].
Proof.
  intros Hds. rewrite outputBuffer_enqueue.
  destruct (outputBuffer st) as [| x buf]; [| discriminate].
  destruct ds as [| d ds]; [congruence |].
  cbn [length app]. rewrite Nat.sub_0_r. discriminate.
Qed.

Lemma execute_empty (st : state) :
  outputBuffer st = [] -> execute st = (0, st).
Proof. intros H. unfold execute, outputSize. rewrite H. reflexivity. Qed.

Lemma execute_nonempty (st : state) :
  outputBuffer st <> [] ->
  execute st =
  (hd FT_OK (write_replies st),
   mkState [] (inputBuffer st) (inputRead st) (hd FT_OK (write_replies st))
           (written st ++ [outputBuffer st]) (tl (write_replies st))
           (read_replies st)).
Proof.
  intros H. unfold execute, outputSize.
  destruct (outputBuffer st) as [| x buf] eqn:E; [congruence |].
  destruct (Z.eqb_spec (Z.of_nat (length (x :: buf))) 0) as [H0 | H0].
  - simpl length in H0. lia.
  - unfold FT_Write. fields. reflexivity.
Qed.

(* execute leaves an empty buffer, hands the driver the buffer if it holds
   anything, and takes nothing from the read script *)
Lemma execute_view (st : state) :
  outputBuffer (snd (execute st)) = [] /\
  read_replies (snd (execute st)) = read_replies st /\
  written (snd (execute st)) =
    written st ++ match outputBuffer st with [] => [] | _ :: _ => [outputBuffer st] end.
Proof.
  destruct (outputBuffer st) as [| x buf] eqn:E.
  - rewrite execute_empty by exact E. simpl. rewrite app_nil_r. auto.
  - rewrite execute_nonempty by congruence. simpl. rewrite E. auto.
Qed.

Lemma send_queue {A} (d : Z) (k : M A) (st : state) :
  (append MSB_FALLING_EDGE_CLOCK_BYTE_OUT ;;
   append 0x00 ;;
   append 0x00 ;;
   append (uchar d) ;;
   set_bits SDA_OUT ;;
   append MSB_RISING_EDGE_CLOCK_BIT_IN ;;
   append 0x00 ;;
   append SEND_IMMEDIATE ;;
   k) st = k (enqueue (send_cmds d) st).
Proof.
  rewrite !bind_append, bind_set_bits, !bind_append, uchar_uchar.
  rewrite <- !enqueue_app. reflexivity.
Qed.

(* the tail of i2c_send_bk: what it does with the reply it reads *)
Lemma send_reply_view (st : state) :
  outputBuffer st = [] ->
  let r := (s <- FT_Read 1 ;;
            fun st =>
              let st := set_ftStatus s st in
              if negb (ftStatus st =? FT_OK) || (inputRead st =? 0) then
                (-2, st)
              else if negb (Z.land (nth 0 (inputBuffer st) 0) 0x01 =? 0x00) then
                (-1, st)
              else
                (set_bits SDA_OUT ;;
                 execute ;;
                 ret 0) st) st in
  fst r = send_code (interpret_reply (next_reply st)) /\
  outputBuffer (snd r) = [] /\
  read_replies (snd r) = tl (read_replies st) /\
  written (snd r) =
    written st ++ (if fst r =? 0 then [release_cmds] else []).
Proof.
  intros Hbuf. destruct st as [buf ib ir fs w wr rr]. fields. subst buf.
  unfold bind, FT_Read, next_reply, interpret_reply, is_io_failure, is_nak.
  cbv zeta. fields.
  destruct rr as [| [s bytes] rest]; fields; cbn [fst snd tl].
  - cbn. rewrite app_nil_r. auto.
  - destruct (Z.eqb_spec s FT_OK) as [Hs | Hs]; cbn [negb orb andb].
    + destruct bytes as [| b bs].
      * cbn. rewrite app_nil_r. auto.
      * change (firstn (Z.to_nat 1) (b :: bs)) with [b].
        cbn [length app nth].
        change (Z.of_nat 1 =? 0) with false. cbn [orb negb].
        destruct (Z.land b 1 =? 0) eqn:Hb; cbn [negb].
        -- rewrite set_bits_enqueue. unfold ret.
           rewrite execute_nonempty
             by (apply outputBuffer_enqueue_nonempty; discriminate).
           cbn. auto.
        -- cbn. rewrite app_nil_r. auto.
    + destruct bytes; cbn; rewrite app_nil_r; auto.
Qed.

(** ** i2c_send_bk *)

Lemma i2c_send_bk_unfold (d : Z) (st : state) :
  i2c_send_bk d st =
  (s <- FT_Read 1 ;;
   fun st =>
     let st := set_ftStatus s st in
     if negb (ftStatus st =? FT_OK) || (inputRead st =? 0) then
       (-2, st)
     else if negb (Z.land (nth 0 (inputBuffer st) 0) 0x01 =? 0x00) then
       (-1, st)
     else
       (set_bits SDA_OUT ;;
        execute ;;
        ret 0) st) (snd (execute (enqueue (send_cmds d) st))).
Proof.
  unfold i2c_send_bk. cbv zeta. rewrite send_queue.
  unfold bind at 1. destruct (execute (enqueue (send_cmds d) st)). reflexivity.
Qed.

Lemma send_cmds_nonempty (d : Z) : send_cmds d <> [].
Proof. discriminate. Qed.

(* Whatever the buffer held, i2c_send_bk hands the driver one buffer that
   ends with the commands for the byte, reads one reply, and after an
   acknowledge hands it the command that sets SDA high again. *)
Lemma i2c_send_bk_view (d : Z) (st : state) :
  fst (i2c_send_bk d st) = send_code (interpret_reply (next_reply st)) /\
  outputBuffer (snd (i2c_send_bk d st)) = [] /\
  read_replies (snd (i2c_send_bk d st)) = tl (read_replies st) /\
  written (snd (i2c_send_bk d st)) =
    written st ++
    outputBuffer (enqueue (send_cmds d) st) ::
    (if fst (i2c_send_bk d st) =? 0 then [release_cmds] else []).
Proof.
  rewrite i2c_send_bk_unfold.
  pose proof (outputBuffer_enqueue_nonempty (send_cmds d) st (send_cmds_nonempty d)) as Hne.
  pose proof (execute_view (enqueue (send_cmds d) st)) as (Hb & Hr & Hw).
  destruct (outputBuffer (enqueue (send_cmds d) st)) as [| x buf] eqn:E;
    [congruence |].
  pose proof (send_reply_view (snd (execute (enqueue (send_cmds d) st))) Hb)
    as H.
  cbv zeta in H. destruct H as (H1 & H2 & H3 & H4).
  unfold next_reply in *. rewrite Hr, read_replies_enqueue in *.
  rewrite Hw, written_enqueue in H4.
  rewrite <- app_assoc in H4. auto.
Qed.

(** ** read_bytes *)

Lemma FT_Read_view (n : Z) (st : state) :
  outputBuffer (snd (FT_Read n st)) = outputBuffer st /\
  read_replies (snd (FT_Read n st)) = tl (read_replies st) /\
  written (snd (FT_Read n st)) = written st.
Proof.
  unfold FT_Read. destruct (read_replies st) as [| [s bytes] rest]; simpl; auto.
Qed.

Lemma read_body_enqueue (nbytes i : Z) (st : state) :
  (append MSB_FALLING_EDGE_CLOCK_BYTE_IN ;;
   append 0x00 ;;
   append 0x00 ;;
   append MSB_FALLING_EDGE_CLOCK_BIT_OUT ;;
   append 0x00 ;;
   (if i =? nbytes - 1 then append 0x80 else append 0x00) ;;
   ret tt) st =
  (tt, enqueue (read_group nbytes i) st).
Proof.
  rewrite !bind_append. unfold bind, read_group.
  destruct (i =? nbytes - 1); rewrite append_enqueue; unfold ret;
    rewrite <- !enqueue_app; reflexivity.
Qed.

Lemma read_loop_enqueue (nbytes : Z) (k : nat) (i : Z) (st : state) :
  for_loop k i (fun i =>
      append MSB_FALLING_EDGE_CLOCK_BYTE_IN ;;
      append 0x00 ;;
      append 0x00 ;;
      append MSB_FALLING_EDGE_CLOCK_BIT_OUT ;;
      append 0x00 ;;
      (if i =? nbytes - 1 then append 0x80 else append 0x00) ;;
      ret tt) st =
  (tt, enqueue (flat_map (read_group nbytes) (indices k i)) st).
Proof.
  revert i st. induction k as [| k IH]; intros i st.
  - simpl. rewrite enqueue_nil. reflexivity.
  - cbn [for_loop indices flat_map]. unfold bind at 1.
    rewrite read_body_enqueue, IH, enqueue_app. reflexivity.
Qed.

Lemma read_bytes_invalid (nbytes : Z) (st : state) :
  nbytes <= 0 -> read_bytes nbytes st = (-1, st).
Proof.
  intros H. unfold read_bytes.
  destruct (Z.leb_spec nbytes 0); [reflexivity | lia].
Qed.

Lemma read_cmds_nonempty (nbytes : Z) : read_cmds nbytes <> [].
Proof. unfold read_cmds. intros H. apply app_eq_nil in H. destruct H. discriminate. Qed.

Lemma read_bytes_unfold (nbytes : Z) (st : state) :
  0 < nbytes ->
  read_bytes nbytes st =
  let st1 := snd (execute (enqueue (read_cmds nbytes) st)) in
  (0, set_ftStatus (fst (FT_Read nbytes st1)) (snd (FT_Read nbytes st1))).
Proof.
  intros H. unfold read_bytes.
  destruct (Z.leb_spec nbytes 0); [lia |].
  unfold for_. rewrite Z.sub_0_r. unfold bind at 1.
  rewrite read_loop_enqueue, bind_append, <- enqueue_app.
  change (flat_map (read_group nbytes) (indices (Z.to_nat nbytes) 0) ++
          [uchar SEND_IMMEDIATE]) with (read_cmds nbytes).
  unfold bind, ret.
  destruct (execute (enqueue (read_cmds nbytes) st)) as [e st1].
  cbn [snd]. destruct (FT_Read nbytes st1) as [s st2]. reflexivity.
Qed.

(* For a positive count read_bytes hands the driver one buffer, ending with
   as much of the read commands as fitted, and takes one reply; it returns 0
   whatever the reply. *)
Lemma read_bytes_view (nbytes : Z) (st : state) :
  0 < nbytes ->
  fst (read_bytes nbytes st) = 0 /\
  outputBuffer (snd (read_bytes nbytes st)) = [] /\
  read_replies (snd (read_bytes nbytes st)) = tl (read_replies st) /\
  written (snd (read_bytes nbytes st)) =
    written st ++ [outputBuffer (enqueue (read_cmds nbytes) st)].
Proof.
  intros H. rewrite read_bytes_unfold by exact H. cbv zeta.
  pose proof (outputBuffer_enqueue_nonempty (read_cmds nbytes) st
                (read_cmds_nonempty nbytes)) as Hne.
  pose proof (execute_view (enqueue (read_cmds nbytes) st)) as (Hb & Hr & Hw).
  pose proof (FT_Read_view nbytes (snd (execute (enqueue (read_cmds nbytes) st))))
    as (Fb & Fr & Fw).
  cbn [fst snd]. fields.
  rewrite Fb, Fr, Fw, Hb, Hr, Hw, written_enqueue, read_replies_enqueue.
  destruct (outputBuffer (enqueue (read_cmds nbytes) st)); [congruence | auto].
Qed.

(** ** i2c_transaction, block by block *)

Lemma i2c_transaction_blocks (slave_addr nread nwrite : Z) (wbuf : list Z) :
  i2c_transaction slave_addr nread nwrite wbuf =
  (w <- write_block (uchar slave_addr) nwrite wbuf ;;
   match w with
   | Some v => ret v
   | None =>
       rd <- read_block (uchar slave_addr) nread ;;
       match rd with
       | Some v => ret v
       | None => stop_block nread nwrite ;; ret 0
       end
   end).
Proof. reflexivity. Qed.

Lemma bind_start {A} (k : M A) (st : state) :
  (i2c_start_bk ;; k) st = k (enqueue start_cmds st).
Proof. unfold bind. rewrite i2c_start_bk_enqueue. reflexivity. Qed.

Lemma length_start_cmds : length start_cmds = 360%nat.
Proof. reflexivity. Qed.

Lemma length_stop_cmds : length stop_cmds = 360%nat.
Proof. reflexivity. Qed.

Lemma length_send_cmds (d : Z) : length (send_cmds d) = 10%nat.
Proof. reflexivity. Qed.

Lemma stop_execute_eq {A} (v : A) (st : state) :
  (i2c_stop_bk ;; execute ;; ret v) st =
  (v, snd (execute (enqueue stop_cmds st))).
Proof.
  unfold bind, ret. rewrite i2c_stop_bk_enqueue.
  destruct (execute (enqueue stop_cmds st)). reflexivity.
Qed.

(* i2c_stop_bk(); execute(); on an empty buffer *)
Lemma stop_execute_view {A} (v : A) (st : state) :
  outputBuffer st = [] ->
  let r := (i2c_stop_bk ;; execute ;; ret v) st in
  fst r = v /\
  outputBuffer (snd r) = [] /\
  read_replies (snd r) = read_replies st /\
  written (snd r) = written st ++ [stop_cmds].
Proof.
  intros Hb. cbv zeta. rewrite stop_execute_eq. cbn [fst snd].
  pose proof (execute_view (enqueue stop_cmds st)) as (Eb & Er & Ew).
  rewrite outputBuffer_enqueue_fits in Ew
    by (rewrite Hb, length_stop_cmds; unfold capacity; simpl; lia).
  rewrite Hb in Ew. cbn [app] in Ew. auto.
Qed.

(* i2c_start_bk(); i2c_send_bk(d); on an empty buffer *)
Lemma start_send_view (d : Z) (st : state) :
  outputBuffer st = [] ->
  let r := i2c_send_bk d (enqueue start_cmds st) in
  fst r = send_code (interpret_reply (next_reply st)) /\
  outputBuffer (snd r) = [] /\
  read_replies (snd r) = tl (read_replies st) /\
  written (snd r) =
    written st ++
    (start_cmds ++ send_cmds d) ::
    (if fst r =? 0 then [release_cmds] else []).
Proof.
  intros Hb. cbv zeta.
  pose proof (i2c_send_bk_view d (enqueue start_cmds st)) as (H1 & H2 & H3 & H4).
  rewrite (outputBuffer_enqueue_fits (send_cmds d)) in H4.
  - rewrite outputBuffer_enqueue_fits in H4
      by (rewrite Hb, length_start_cmds; unfold capacity; simpl; lia).
    rewrite Hb in H4. auto.
  - rewrite outputBuffer_enqueue_fits
      by (rewrite Hb, length_start_cmds; unfold capacity; simpl; lia).
    rewrite Hb, length_send_cmds. cbn [app]. rewrite length_start_cmds.
    unfold capacity. lia.
Qed.

(* i2c_send_bk(d) on an empty buffer *)
Lemma send_view (d : Z) (st : state) :
  outputBuffer st = [] ->
  let r := i2c_send_bk d st in
  fst r = send_code (interpret_reply (next_reply st)) /\
  outputBuffer (snd r) = [] /\
  read_replies (snd r) = tl (read_replies st) /\
  written (snd r) =
    written st ++
    send_cmds d :: (if fst r =? 0 then [release_cmds] else []).
Proof.
  intros Hb. cbv zeta.
  pose proof (i2c_send_bk_view d st) as (H1 & H2 & H3 & H4).
  rewrite outputBuffer_enqueue_fits in H4
    by (rewrite Hb, length_send_cmds; unfold capacity; simpl; lia).
  rewrite Hb in H4. auto.
Qed.

(** ** Replies *)

Lemma interpret_ack (r : Z * list Z) : is_ack r = true -> interpret_reply r = Ack.
Proof.
  destruct r as [s [| b bs]]; unfold is_ack, interpret_reply, is_io_failure, is_nak;
    cbn [fst snd]; intros H.
  - rewrite andb_false_r in H. discriminate.
  - apply andb_true_iff in H. destruct H as [Hs Hb]. rewrite Hs, Hb. reflexivity.
Qed.

Lemma interpret_nak (r : Z * list Z) : is_nak r = true -> interpret_reply r = Nak.
Proof.
  destruct r as [s [| b bs]]; unfold interpret_reply, is_io_failure, is_nak;
    cbn [fst snd]; intros H.
  - rewrite andb_false_r in H. discriminate.
  - rewrite H. apply andb_true_iff in H. destruct H as [Hs Hb]. rewrite Hs.
    reflexivity.
Qed.

Lemma interpret_io_failure (r : Z * list Z) :
  is_io_failure r = true -> interpret_reply r = IoError.
Proof. unfold interpret_reply. intros H. rewrite H. reflexivity. Qed.

(* the three kinds of reply exclude one another and leave nothing out *)
Lemma reply_cases (r : Z * list Z) :
  (is_ack r = true /\ is_nak r = false /\ is_io_failure r = false) \/
  (is_ack r = false /\ is_nak r = true /\ is_io_failure r = false) \/
  (is_ack r = false /\ is_nak r = false /\ is_io_failure r = true).
Proof.
  destruct r as [s [| b bs]]; unfold is_ack, is_nak, is_io_failure; cbn [fst snd];
    destruct (s =? FT_OK); try destruct (Z.land b 1 =? 0); cbn; auto.
Qed.

(** ** Composing runs *)

Lemma outcome_ret {A} (a : A) (st : state) :
  outputBuffer st = [] -> outcome (ret a st) st a [] (read_replies st).
Proof. intros H. unfold outcome, ret. cbn. rewrite app_nil_r. auto. Qed.

Lemma outcome_bind {A B} (m : M A) (k : A -> M B) (st : state)
    (a : A) (b1 : list (list Z)) (r1 : list (Z * list Z))
    (c : B) (b2 : list (list Z)) (r2 : list (Z * list Z)) :
  outcome (m st) st a b1 r1 ->
  (forall st1, outputBuffer st1 = [] -> read_replies st1 = r1 ->
               outcome (k a st1) st1 c b2 r2) ->
  outcome (bind m k st) st c (b1 ++ b2) r2.
Proof.
  intros (H1 & H2 & H3 & H4) Hk. unfold bind.
  destruct (m st) as [a' st1]. cbn [fst snd] in *. subst a'.
  destruct (Hk st1 H2 H3) as (K1 & K2 & K3 & K4).
  unfold outcome. rewrite K4, H4, app_assoc. auto.
Qed.

Lemma outcome_send (d : Z) (st : state) :
  outputBuffer st = [] ->
  outcome (i2c_send_bk d st) st
    (send_code (interpret_reply (next_reply st)))
    (send_cmds d ::
     (if send_code (interpret_reply (next_reply st)) =? 0
      then [release_cmds] else []))
    (tl (read_replies st)).
Proof.
  intros Hb. destruct (send_view d st Hb) as (H1 & H2 & H3 & H4).
  unfold outcome. rewrite H1 in H4. auto.
Qed.

Lemma outcome_start_send {B} (d : Z) (k : Z -> M B) (st : state)
    (c : B) (b2 : list (list Z)) (r2 : list (Z * list Z)) :
  outputBuffer st = [] ->
  (forall st1, outputBuffer st1 = [] -> read_replies st1 = tl (read_replies st) ->
               outcome (k (send_code (interpret_reply (next_reply st))) st1) st1 c b2 r2) ->
  outcome ((i2c_start_bk ;; r <- i2c_send_bk d ;; k r) st) st c
    (((start_cmds ++ send_cmds d) ::
      (if send_code (interpret_reply (next_reply st)) =? 0
       then [release_cmds] else [])) ++ b2)
    r2.
Proof.
  intros Hb Hk. rewrite bind_start.
  destruct (start_send_view d st Hb) as (H1 & H2 & H3 & H4).
  rewrite H1 in H4. unfold bind.
  destruct (i2c_send_bk d (enqueue start_cmds st)) as [r st1].
  cbn [fst snd] in *. subst r.
  destruct (Hk st1 H2 H3) as (K1 & K2 & K3 & K4).
  unfold outcome. rewrite K4, H4, app_assoc. auto.
Qed.

Lemma outcome_stop {A} (v : A) (st : state) :
  outputBuffer st = [] ->
  outcome ((i2c_stop_bk ;; execute ;; ret v) st) st v [stop_cmds] (read_replies st).
Proof. intros Hb. exact (stop_execute_view v st Hb). Qed.

Lemma outcome_read_bytes (nbytes : Z) (st : state) :
  0 < nbytes ->
  outputBuffer st = [] ->
  outcome (read_bytes nbytes st) st 0
    [firstn capacity (read_cmds nbytes)] (tl (read_replies st)).
Proof.
  intros Hn Hb. destruct (read_bytes_view nbytes st Hn) as (H1 & H2 & H3 & H4).
  rewrite outputBuffer_enqueue_empty in H4 by exact Hb.
  unfold outcome. auto.
Qed.

(* weakening of the description of a run *)
Lemma outcome_eq {A} (p : A * state) (st : state) (a a' : A)
    (b b' : list (list Z)) (r r' : list (Z * list Z)) :
  outcome p st a b r -> a = a' -> b = b' -> r = r' -> outcome p st a' b' r'.
Proof. intros H -> -> ->. exact H. Qed.

(** ** The write block *)

Lemma data_loop_acks (wbuf : list Z) (n : nat) :
  forall (i : Z) (st : state) (acks rest : list (Z * list Z)),
    outputBuffer st = [] ->
    read_replies st = acks ++ rest ->
    length acks = n ->
    forallb is_ack acks = true ->
    outcome
      (for_ret_loop n i (fun i =>
         r <- i2c_send_bk (nth (Z.to_nat i) wbuf 0) ;;
         if negb (r =? 0) then
           i2c_stop_bk ;;
           execute ;;
           ret (Some SLAVE_NAK_DATA)
         else ret None) st)
      st None (payload_batches wbuf (indices n i)) rest.
Proof.
  induction n as [| n IH]; intros i st acks rest Hb Hr Hl Ha.
  - destruct acks; [| discriminate]. cbn [for_ret_loop indices payload_batches flat_map].
    cbn [app] in Hr. rewrite <- Hr. apply outcome_ret. exact Hb.
  - destruct acks as [| a acks]; [discriminate |].
    cbn [forallb] in Ha. apply andb_true_iff in Ha. destruct Ha as [Ha Has].
    cbn [for_ret_loop indices payload_batches flat_map].
    change (?x :: ?y :: ?l) with ([x; y] ++ l).
    eapply outcome_bind.
    + rewrite <- (app_nil_r [_; _]). eapply outcome_bind.
      * eapply outcome_eq; [apply outcome_send; exact Hb | reflexivity | | reflexivity].
        unfold next_reply. rewrite Hr. cbn [app].
        rewrite (interpret_ack a Ha). reflexivity.
      * intros st1 Hb1 Hr1. unfold next_reply. rewrite Hr. cbn [app].
        rewrite (interpret_ack a Ha). cbn [send_code Z.eqb negb].
        eapply outcome_eq; [apply outcome_ret; exact Hb1 | reflexivity | reflexivity |].
        exact Hr1.
    + intros st1 Hb1 Hr1. cbv beta iota.
      apply (IH (i + 1) st1 acks rest Hb1).
      * rewrite Hr1, Hr. reflexivity.
      * cbn in Hl. congruence.
      * exact Has.
Qed.

(** ** The bus under the command sequences *)

Lemma bus_run_app (b : bus) (x y : list Z) :
  bus_run b (x ++ y) = bus_run (bus_run b x) y.
Proof. apply fold_left_app. Qed.

Lemma bus_run_nil (b : bus) : bus_run b [] = b.
Proof. reflexivity. Qed.

(* single commands, from any state of the bus between two commands *)
Section OneCommand.

Variables (ns np : nat) (bo bi : list Z) (yi ti : Z).

Lemma run_set_bits (sc sd : bool) (v : Z) :
  bus_run (mkBus Opcode sc sd ns np bo bi yi ti) (set_bits_cmd v) =
  mkBus Opcode (Z.testbit v 0) (Z.testbit v 1)
        (if sc && Z.testbit v 0 && sd && negb (Z.testbit v 1) then S ns else ns)
        (if sc && Z.testbit v 0 && negb sd && Z.testbit v 1 then S np else np)
        bo bi yi ti.
Proof. reflexivity. Qed.

Lemma run_send (sd : bool) (d : Z) :
  bus_run (mkBus Opcode false sd ns np bo bi yi ti) (send_cmds d) =
  mkBus Opcode false true ns np (bo ++ [uchar d]) bi yi (ti + 1).
Proof. reflexivity. Qed.

Lemma run_release (sd : bool) :
  bus_run (mkBus Opcode false sd ns np bo bi yi ti) release_cmds =
  mkBus Opcode false true ns np bo bi yi ti.
Proof. reflexivity. Qed.

Lemma run_send_immediate (sc sd : bool) :
  bus_run (mkBus Opcode sc sd ns np bo bi yi ti) [SEND_IMMEDIATE] =
  mkBus Opcode sc sd ns np bo bi yi ti.
Proof. reflexivity. Qed.

Lemma run_read_group (nbytes i : Z) (sc sd : bool) :
  bus_run (mkBus Opcode sc sd ns np bo bi yi ti) (read_group nbytes i) =
  mkBus Opcode sc (i =? nbytes - 1) ns np bo
        (bi ++ [if i =? nbytes - 1 then 0x80 else 0x00]) (yi + 1) ti.
Proof. unfold read_group. destruct (i =? nbytes - 1); reflexivity. Qed.

End OneCommand.

(* setting the same levels again changes nothing *)
Lemma run_hold (n : nat) :
  forall (sc sd : bool) (ns np : nat) (bo bi : list Z) (yi ti : Z) (v : Z),
    bus_run (mkBus Opcode sc sd ns np bo bi yi ti) (hold v (S n)) =
    bus_run (mkBus Opcode sc sd ns np bo bi yi ti) (set_bits_cmd v).
Proof.
  induction n as [| n IH]; intros sc sd ns np bo bi yi ti v.
  - unfold hold. cbn [repeat concat]. rewrite app_nil_r. reflexivity.
  - change (hold v (S (S n))) with (set_bits_cmd v ++ hold v (S n)).
    rewrite bus_run_app, run_set_bits, IH, run_set_bits.
    destruct (Z.testbit v 0), (Z.testbit v 1), sc, sd; reflexivity.
Qed.

Lemma run_start (sc : bool) (ns np : nat) (bo bi : list Z) (yi ti : Z) :
  bus_run (mkBus Opcode sc true ns np bo bi yi ti) start_cmds =
  mkBus Opcode false false (S ns) np bo bi yi ti.
Proof.
  unfold start_cmds. rewrite !bus_run_app.
  rewrite run_hold, run_set_bits, run_hold, run_set_bits, run_hold, run_set_bits.
  destruct sc; reflexivity.
Qed.

Lemma run_stop (sd : bool) (ns np : nat) (bo bi : list Z) (yi ti : Z) :
  bus_run (mkBus Opcode false sd ns np bo bi yi ti) stop_cmds =
  mkBus Opcode true true ns (S np) bo bi yi ti.
Proof.
  unfold stop_cmds. rewrite !bus_run_app.
  rewrite run_hold, run_set_bits, run_hold, run_set_bits, run_hold, run_set_bits.
  reflexivity.
Qed.

Lemma run_payload (wbuf : list Z) (ixs : list Z) :
  forall (sd : bool) (ns np : nat) (bo bi : list Z) (yi ti : Z),
    bus_run (mkBus Opcode false sd ns np bo bi yi ti)
            (concat (payload_batches wbuf ixs)) =
    mkBus Opcode false (match ixs with [] => sd | _ :: _ => true end) ns np
          (bo ++ map (fun i => uchar (nth (Z.to_nat i) wbuf 0)) ixs) bi yi
          (ti + Z.of_nat (length ixs)).
Proof.
  induction ixs as [| i ixs IH]; intros sd ns np bo bi yi ti.
  - cbn. rewrite app_nil_r, Z.add_0_r. reflexivity.
  - cbn [payload_batches flat_map app concat].
    rewrite !bus_run_app, run_send, run_release.
    fold (payload_batches wbuf ixs). rewrite IH.
    cbn [map length]. rewrite <- app_assoc. cbn [app].
    f_equal; [destruct ixs; reflexivity | lia].
Qed.

Lemma run_read_groups (nbytes : Z) (k : nat) :
  forall (i : Z) (sc sd : bool) (ns np : nat) (bo bi : list Z) (yi ti : Z),
    bus_run (mkBus Opcode sc sd ns np bo bi yi ti)
            (flat_map (read_group nbytes) (indices k i)) =
    mkBus Opcode sc
          (match k with O => sd | S k' => (i + Z.of_nat k' =? nbytes - 1) end)
          ns np bo
          (bi ++ map (fun j => if j =? nbytes - 1 then 0x80 else 0x00) (indices k i))
          (yi + Z.of_nat k) ti.
Proof.
  induction k as [| k IH]; intros i sc sd ns np bo bi yi ti.
  - cbn. rewrite app_nil_r, Z.add_0_r. reflexivity.
  - cbn [indices flat_map]. rewrite bus_run_app, run_read_group, IH.
    cbn [map]. rewrite <- app_assoc. cbn [app].
    f_equal; [| lia].
    destruct k as [| k']; [f_equal; lia |].
    f_equal. lia.
Qed.

(** ** Acknowledged replies *)

Lemma acknowledged_S (k : nat) (replies : list (Z * list Z)) :
  acknowledged (S k) replies ->
  exists a rest, replies = a :: rest /\ is_ack a = true /\ acknowledged k rest.
Proof.
  intros [Hl Ha]. destruct replies as [| a rest]; [cbn in Hl; lia |].
  cbn [firstn forallb] in Ha. apply andb_true_iff in Ha. destruct Ha as [Ha Hr].
  exists a, rest. repeat split; auto. cbn in Hl. lia.
Qed.

Lemma acknowledged_split (k : nat) (replies : list (Z * list Z)) :
  acknowledged k replies ->
  replies = firstn k replies ++ skipn k replies /\
  length (firstn k replies) = k /\
  forallb is_ack (firstn k replies) = true.
Proof.
  intros [Hl Ha]. rewrite firstn_skipn, length_firstn. repeat split; auto. lia.
Qed.

Lemma acknowledged_add (j k : nat) (replies : list (Z * list Z)) :
  acknowledged (j + k) replies ->
  acknowledged j replies /\ acknowledged k (skipn j replies).
Proof.
  intros [Hl Ha].
  rewrite <- (firstn_skipn j replies) in Ha at 1.
  rewrite firstn_app, length_firstn, forallb_app in Ha.
  apply andb_true_iff in Ha. destruct Ha as [H1 H2].
  rewrite firstn_firstn in H1.
  replace (Nat.min (j + k) j) with j in H1 by lia.
  replace (j + k - Nat.min j (length replies))%nat with k in H2 by lia.
  repeat split; auto; try lia. rewrite length_skipn. lia.
Qed.

(** ** The blocks of i2c_transaction *)

Lemma write_block_acks (a nwrite : Z) (wbuf : list Z) (st : state) :
  outputBuffer st = [] ->
  nwrite <> 0 ->
  acknowledged (S (Z.to_nat nwrite)) (read_replies st) ->
  outcome (write_block a nwrite wbuf st) st None
    ([start_cmds ++ send_cmds (WRITE a); release_cmds] ++
     payload_batches wbuf (indices (Z.to_nat nwrite) 0))
    (skipn (S (Z.to_nat nwrite)) (read_replies st)).
Proof.
  intros Hb Hn Ha. unfold write_block.
  destruct (Z.eqb_spec nwrite 0) as [E | _]; [contradiction |]. cbn [negb].
  destruct (acknowledged_S _ _ Ha) as (r0 & rest & Hr & Hr0 & Hrest).
  destruct (acknowledged_split _ _ Hrest) as (Hs & Hl & Hf).
  assert (Hcode : send_code (interpret_reply (next_reply st)) = 0).
  { unfold next_reply. rewrite Hr, (interpret_ack r0 Hr0). reflexivity. }
  eapply outcome_eq.
  - apply outcome_start_send; [exact Hb |].
    intros st1 Hb1 Hr1. rewrite Hcode. cbn [Z.eqb negb]. unfold for_ret.
    rewrite Z.sub_0_r.
    apply (data_loop_acks wbuf (Z.to_nat nwrite) 0 st1
             (firstn (Z.to_nat nwrite) rest) (skipn (Z.to_nat nwrite) rest) Hb1);
      [| exact Hl | exact Hf].
    rewrite Hr1, Hr. cbn [tl]. exact Hs.
  - reflexivity.
  - rewrite Hcode. reflexivity.
  - rewrite Hr. reflexivity.
Qed.

(* the address byte is not acknowledged: a Nak or a transport failure *)
Lemma write_block_refused (a nwrite : Z) (wbuf : list Z) (st : state) :
  outputBuffer st = [] ->
  nwrite <> 0 ->
  is_ack (next_reply st) = false ->
  outcome (write_block a nwrite wbuf st) st (Some SLAVE_NAK_ADDR)
    [start_cmds ++ send_cmds (WRITE a); stop_cmds]
    (tl (read_replies st)).
Proof.
  intros Hb Hn Ha. unfold write_block.
  destruct (Z.eqb_spec nwrite 0) as [E | _]; [contradiction |]. cbn [negb].
  assert (Hcode : (send_code (interpret_reply (next_reply st)) =? 0) = false).
  { destruct (reply_cases (next_reply st)) as [(H & _) | [(_ & H & _) | (_ & _ & H)]].
    - congruence.
    - rewrite (interpret_nak _ H). reflexivity.
    - rewrite (interpret_io_failure _ H). reflexivity. }
  eapply outcome_eq.
  - apply outcome_start_send; [exact Hb |].
    intros st1 Hb1 Hr1. rewrite Hcode. cbn [negb].
    eapply outcome_eq; [apply outcome_stop; exact Hb1 | reflexivity | reflexivity |].
    exact Hr1.
  - reflexivity.
  - rewrite Hcode. reflexivity.
  - reflexivity.
Qed.

Lemma write_block_skipped (a : Z) (wbuf : list Z) (st : state) :
  write_block a 0 wbuf st = (None, st).
Proof. reflexivity. Qed.

Lemma read_block_skipped (a : Z) (st : state) :
  read_block a 0 st = (None, st).
Proof. reflexivity. Qed.

Lemma stop_block_skipped (st : state) :
  stop_block 0 0 st = (tt, st).
Proof. reflexivity. Qed.

(* the address is acknowledged: the read goes ahead, and whatever the
   driver answers to it the block falls through *)
Lemma read_block_ack (a nread : Z) (st : state) :
  outputBuffer st = [] ->
  0 < nread ->
  is_ack (next_reply st) = true ->
  outcome (read_block a nread st) st None
    [start_cmds ++ send_cmds (READ a); release_cmds;
     firstn capacity (read_cmds nread)]
    (tl (tl (read_replies st))).
Proof.
  intros Hb Hn Ha. unfold read_block.
  destruct (Z.eqb_spec nread 0) as [E | _]; [lia |]. cbn [negb].
  assert (Hcode : send_code (interpret_reply (next_reply st)) = 0).
  { rewrite (interpret_ack _ Ha). reflexivity. }
  eapply outcome_eq.
  - apply outcome_start_send; [exact Hb |].
    intros st1 Hb1 Hr1. rewrite Hcode. cbn [Z.eqb negb].
    eapply outcome_bind.
    + apply outcome_read_bytes; [exact Hn | exact Hb1].
    + intros st2 Hb2 Hr2.
      eapply outcome_eq; [apply outcome_ret; exact Hb2 | reflexivity | reflexivity |].
      rewrite Hr2, Hr1. reflexivity.
  - reflexivity.
  - rewrite Hcode. reflexivity.
  - reflexivity.
Qed.

Lemma read_block_refused (a nread : Z) (st : state) :
  outputBuffer st = [] ->
  nread <> 0 ->
  is_ack (next_reply st) = false ->
  outcome (read_block a nread st) st (Some SLAVE_NAK_ADDR)
    [start_cmds ++ send_cmds (READ a); stop_cmds]
    (tl (read_replies st)).
Proof.
  intros Hb Hn Ha. unfold read_block.
  destruct (Z.eqb_spec nread 0) as [E | _]; [contradiction |]. cbn [negb].
  assert (Hcode : (send_code (interpret_reply (next_reply st)) =? 0) = false).
  { destruct (reply_cases (next_reply st)) as [(H & _) | [(_ & H & _) | (_ & _ & H)]].
    - congruence.
    - rewrite (interpret_nak _ H). reflexivity.
    - rewrite (interpret_io_failure _ H). reflexivity. }
  eapply outcome_eq.
  - apply outcome_start_send; [exact Hb |].
    intros st1 Hb1 Hr1. rewrite Hcode. cbn [negb].
    eapply outcome_eq; [apply outcome_stop; exact Hb1 | reflexivity | reflexivity |].
    exact Hr1.
  - reflexivity.
  - rewrite Hcode. reflexivity.
  - reflexivity.
Qed.

Lemma stop_block_stops (nread nwrite : Z) (st : state) :
  outputBuffer st = [] ->
  nread <> 0 \/ nwrite <> 0 ->
  outcome (stop_block nread nwrite st) st tt [stop_cmds] (read_replies st).
Proof.
  intros Hb Hn. unfold stop_block.
  replace (negb (nread =? 0) || negb (nwrite =? 0)) with true.
  - apply outcome_stop. exact Hb.
  - destruct (Z.eqb_spec nread 0), (Z.eqb_spec nwrite 0); cbn; auto. lia.
Qed.

(** ** Whole transactions *)

(* a write-then-read transaction acknowledged throughout *)
Lemma transaction_write_read_acks (slave_addr nread nwrite : Z) (wbuf : list Z)
    (st : state) :
  outputBuffer st = [] ->
  0 < nwrite ->
  0 < nread ->
  acknowledged (Z.to_nat nwrite + 2) (read_replies st) ->
  outcome (i2c_transaction slave_addr nread nwrite wbuf st) st 0
    (write_read_batches (uchar slave_addr) nread nwrite wbuf)
    (skipn (Z.to_nat nwrite + 3) (read_replies st)).
Proof.
  intros Hb Hw Hr Ha. rewrite i2c_transaction_blocks.
  replace (Z.to_nat nwrite + 2)%nat with (S (Z.to_nat nwrite) + 1)%nat in Ha by lia.
  destruct (acknowledged_add _ _ _ Ha) as [Ha1 Ha2].
  destruct (acknowledged_S _ _ Ha2) as (r1 & rest & Hr1 & Hack & _).
  unfold write_read_batches. rewrite app_assoc.
  eapply outcome_bind.
  - apply write_block_acks; [exact Hb | lia | exact Ha1].
  - intros st1 Hb1 Hrr1. cbv beta iota.
    change [start_cmds ++ send_cmds (READ (uchar slave_addr)); release_cmds;
            firstn capacity (read_cmds nread); stop_cmds]
      with ([start_cmds ++ send_cmds (READ (uchar slave_addr)); release_cmds;
             firstn capacity (read_cmds nread)] ++ [stop_cmds]).
    eapply outcome_bind.
    + apply read_block_ack; [exact Hb1 | exact Hr |].
      unfold next_reply. rewrite Hrr1, Hr1. exact Hack.
    + intros st2 Hb2 Hrr2. cbv beta iota.
      rewrite <- (app_nil_r [stop_cmds]). eapply outcome_bind.
      * apply stop_block_stops; [exact Hb2 | lia].
      * intros st3 Hb3 Hrr3.
        eapply outcome_eq; [apply outcome_ret; exact Hb3 | reflexivity | reflexivity |].
        rewrite Hrr3, Hrr2, Hrr1, Hr1. cbn [tl].
        replace (Z.to_nat nwrite + 3)%nat with (2 + S (Z.to_nat nwrite))%nat by lia.
        rewrite <- skipn_skipn, Hr1. reflexivity.
Qed.

(* the address byte of the write block is refused *)
Lemma transaction_write_refused (slave_addr nread nwrite : Z) (wbuf : list Z)
    (st : state) :
  outputBuffer st = [] ->
  nwrite <> 0 ->
  is_ack (next_reply st) = false ->
  outcome (i2c_transaction slave_addr nread nwrite wbuf st) st SLAVE_NAK_ADDR
    [start_cmds ++ send_cmds (WRITE (uchar slave_addr)); stop_cmds]
    (tl (read_replies st)).
Proof.
  intros Hb Hw Ha. rewrite i2c_transaction_blocks.
  rewrite <- (app_nil_r [_; _]). eapply outcome_bind.
  - apply write_block_refused; [exact Hb | exact Hw | exact Ha].
  - intros st1 Hb1 Hr1. cbv beta iota.
    eapply outcome_eq; [apply outcome_ret; exact Hb1 | reflexivity | reflexivity |].
    exact Hr1.
Qed.

(* a read-only transaction whose address byte is acknowledged *)
Lemma transaction_read_ack (slave_addr nread : Z) (wbuf : list Z) (st : state) :
  outputBuffer st = [] ->
  0 < nread ->
  is_ack (next_reply st) = true ->
  outcome (i2c_transaction slave_addr nread 0 wbuf st) st 0
    [start_cmds ++ send_cmds (READ (uchar slave_addr)); release_cmds;
     firstn capacity (read_cmds nread); stop_cmds]
    (tl (tl (read_replies st))).
Proof.
  intros Hb Hr Ha. rewrite i2c_transaction_blocks.
  unfold bind at 1. rewrite write_block_skipped.
  change [start_cmds ++ send_cmds (READ (uchar slave_addr)); release_cmds;
          firstn capacity (read_cmds nread); stop_cmds]
    with ([start_cmds ++ send_cmds (READ (uchar slave_addr)); release_cmds;
           firstn capacity (read_cmds nread)] ++ [stop_cmds]).
  eapply outcome_bind.
  - apply read_block_ack; [exact Hb | exact Hr | exact Ha].
  - intros st2 Hb2 Hrr2. cbv beta iota.
    rewrite <- (app_nil_r [stop_cmds]). eapply outcome_bind.
    + apply stop_block_stops; [exact Hb2 | lia].
    + intros st3 Hb3 Hrr3.
      eapply outcome_eq; [apply outcome_ret; exact Hb3 | reflexivity | reflexivity |].
      rewrite Hrr3, Hrr2. reflexivity.
Qed.

(** ** What went over the wire *)

Lemma sent_since_batches (st st' : state) (batches : list (list Z)) :
  written st' = written st ++ batches ->
  wire st' = wire st ++ concat batches /\
  sent_since st st' = concat batches.
Proof.
  intros H. unfold sent_since, wire. rewrite H, concat_app. split; [reflexivity |].
  rewrite skipn_app, skipn_all, Nat.sub_diag. reflexivity.
Qed.

Lemma outcome_sent {A} (p : A * state) (st : state) (a : A)
    (batches : list (list Z)) (rest : list (Z * list Z)) :
  outcome p st a batches rest ->
  wire (snd p) = wire st ++ sent_since st (snd p) /\
  sent_since st (snd p) = concat batches.
Proof.
  intros (_ & _ & _ & H). destruct (sent_since_batches _ _ _ H) as [H1 H2].
  rewrite H2. auto.
Qed.

Lemma bus_idle_inv (b : bus) :
  bus_idle b ->
  b = mkBus Opcode true true (starts b) (stops b) (bytes_out b) (bits_out b)
            (bytes_in b) (bits_in b).
Proof.
  destruct b. unfold bus_idle. cbn. intros (-> & -> & ->). reflexivity.
Qed.

(** ** The read commands that fit *)

Lemma indices_app (j k : nat) (i : Z) :
  indices (j + k) i = indices j i ++ indices k (i + Z.of_nat j).
Proof.
  revert i. induction j as [| j IH]; intros i.
  - cbn. rewrite Z.add_0_r. reflexivity.
  - cbn [Nat.add indices app]. rewrite IH. do 3 f_equal. lia.
Qed.

Lemma length_indices (k : nat) (i : Z) : length (indices k i) = k.
Proof. revert i. induction k; intros i; cbn; auto. Qed.

Lemma length_read_groups (nbytes : Z) (k : nat) (i : Z) :
  length (flat_map (read_group nbytes) (indices k i)) = (6 * k)%nat.
Proof.
  revert i. induction k as [| k IH]; intros i; [reflexivity |].
  cbn [indices flat_map]. rewrite length_app, IH. unfold read_group.
  cbn [length]. lia.
Qed.

Lemma length_read_cmds (nbytes : Z) :
  length (read_cmds nbytes) = (6 * Z.to_nat nbytes + 1)%nat.
Proof.
  unfold read_cmds. rewrite length_app, length_read_groups. cbn [length]. lia.
Qed.

Lemma read_cmds_fit (nbytes : Z) :
  nbytes <= 170 -> firstn capacity (read_cmds nbytes) = read_cmds nbytes.
Proof.
  intros H. apply firstn_all2. rewrite length_read_cmds. unfold capacity. lia.
Qed.

(* of more than 170 bytes, only the commands of the first 170 and the
   clock-in command of the next one are queued *)
Lemma read_cmds_cut (nbytes : Z) :
  170 < nbytes ->
  firstn capacity (read_cmds nbytes) =
  flat_map (read_group nbytes) (indices 170 0) ++
  [MSB_FALLING_EDGE_CLOCK_BYTE_IN; 0x00; 0x00].
Proof.
  intros H. unfold read_cmds.
  replace (Z.to_nat nbytes) with (170 + S (Z.to_nat nbytes - 171))%nat by lia.
  rewrite indices_app, flat_map_app.
  pose proof (length_read_groups nbytes 170 0) as Hl.
  set (g := flat_map (read_group nbytes) (indices 170 0)) in *.
  cbn [indices flat_map].
  rewrite <- !app_assoc, firstn_app, Hl.
  rewrite firstn_all2 by (rewrite Hl; unfold capacity; lia).
  f_equal.
Qed.

(* the read commands of read_bytes, as far as they are queued, leave SCL
   low and produce no start or stop condition *)
Lemma run_read_cmds (nbytes : Z) (sd : bool) (ns np : nat)
    (bo bi : list Z) (yi ti : Z) :
  exists sd' bi' yi',
    bus_run (mkBus Opcode false sd ns np bo bi yi ti)
            (firstn capacity (read_cmds nbytes)) =
    mkBus Opcode false sd' ns np bo bi' yi' ti.
Proof.
  destruct (Z_le_gt_dec nbytes 170) as [H | H].
  - rewrite read_cmds_fit by exact H. unfold read_cmds.
    rewrite bus_run_app, run_read_groups. eexists _, _, _. reflexivity.
  - rewrite read_cmds_cut by lia.
    rewrite bus_run_app, run_read_groups. eexists _, _, _. reflexivity.
Qed.

Lemma nak_not_ack (r : Z * list Z) : is_nak r = true -> is_ack r = false.
Proof.
  intros H. destruct (reply_cases r) as [(_ & H' & _) | [(H' & _) | (H' & _)]];
    congruence.
Qed.

Lemma nth_map_indices (f : Z -> Z) (k : nat) :
  forall (i : Z) (j : nat) (d : Z),
    (j < k)%nat -> nth j (map f (indices k i)) d = f (i + Z.of_nat j).
Proof.
  induction k as [| k IH]; intros i j d H; [lia |].
  destruct j as [| j]; cbn [indices map nth].
  - f_equal. cbn. lia.
  - rewrite IH by lia. f_equal. lia.
Qed.

(** ** ftdi_configure_i2c *)

Lemma ftdi_configure_i2c_parts (drv : setup_replies) (speed_khz : Z) (st : state) :
  ftdi_configure_i2c drv speed_khz st =
  let st := set_ftStatus (open_status drv) st in
  if negb (ftStatus st =? FT_OK) then (-1, st)
  else
    let st := setup_calls drv st in
    if negb (ftStatus st =? FT_OK) then (-1, st)
    else setup_commands (dwClockDivisor speed_khz) st.
Proof.
  unfold ftdi_configure_i2c, setup_calls, setup_commands. cbv zeta. reflexivity.
Qed.

Lemma outputBuffer_set_ftStatus (s : Z) (st : state) :
  outputBuffer (set_ftStatus s st) = outputBuffer st.
Proof. reflexivity. Qed.

Lemma written_set_ftStatus (s : Z) (st : state) :
  written (set_ftStatus s st) = written st.
Proof. reflexivity. Qed.

Lemma setup_calls_view (drv : setup_replies) (st : state) :
  outputBuffer (setup_calls drv st) = outputBuffer st /\
  written (setup_calls drv st) = written st.
Proof.
  unfold setup_calls. cbv zeta.
  rewrite !outputBuffer_set_ftStatus, !written_set_ftStatus.
  match goal with |- context [if ?c then _ else _] => destruct c end.
  - match goal with
    | |- context [FT_Read ?n ?x] =>
        destruct (FT_Read_view n x) as (H1 & _ & H3); rewrite H1, H3
    end.
    rewrite !outputBuffer_set_ftStatus, !written_set_ftStatus. auto.
  - rewrite !outputBuffer_set_ftStatus, !written_set_ftStatus. auto.
Qed.

(* a buffer queued on an empty command buffer and executed *)
Lemma outcome_batch {A} (ds : list Z) (k : M A) (st : state)
    (c : A) (b2 : list (list Z)) (r2 : list (Z * list Z)) :
  outputBuffer st = [] ->
  ds <> [] ->
  (length ds <= capacity)%nat ->
  (forall st1, outputBuffer st1 = [] -> read_replies st1 = read_replies st ->
               outcome (k st1) st1 c b2 r2) ->
  outcome ((execute ;; k) (enqueue ds st)) st c ([ds] ++ b2) r2.
Proof.
  intros Hb Hne Hlen Hk.
  pose proof (execute_view (enqueue ds st)) as (E1 & E2 & E3).
  rewrite outputBuffer_enqueue_fits in E3 by (rewrite Hb; cbn [length]; lia).
  rewrite Hb in E3. cbn [app] in E3.
  destruct ds as [| d ds]; [congruence |].
  unfold bind. destruct (execute (enqueue (d :: ds) st)) as [e st1].
  cbn [snd] in *.
  destruct (Hk st1 E1 E2) as (K1 & K2 & K3 & K4).
  unfold outcome. rewrite K4, E3, <- app_assoc. auto.
Qed.

Lemma dwClockDivisor_bytes (speed_khz : Z) :
  uchar (Z.land (dwClockDivisor speed_khz) 0xFF) = dwClockDivisor speed_khz mod 256 /\
  uchar (Z.land (Z.shiftr (dwClockDivisor speed_khz) 8) 0xFF) =
    dwClockDivisor speed_khz / 256.
Proof. unfold dwClockDivisor. destruct (speed_khz =? 400); split; reflexivity. Qed.

Lemma setup_commands_outcome (speed_khz : Z) (st : state) :
  outputBuffer st = [] ->
  outcome (setup_commands (dwClockDivisor speed_khz) st) st 0
    (setup_batches (dwClockDivisor speed_khz)) (read_replies st).
Proof.
  intros Hb. unfold setup_commands, setup_batches.
  destruct (dwClockDivisor_bytes speed_khz) as [Hlo Hhi].
  rewrite !bind_append, <- !enqueue_app.
  apply (outcome_batch [DISABLE_CLK_DIV_5; DISABLE_CLK_DIV_5; ENABLE_3_PHASE_CLK]);
    [exact Hb | discriminate | cbn; unfold capacity; lia |].
  intros st1 Hb1 Hr1. rewrite !bind_append, <- !enqueue_app. cbn [app].
  rewrite Hlo, Hhi.
  apply (outcome_batch
           [SET_BITS_LOW_BYTE; Z.lor SDA_OUT SCL; Z.lor SDA_OUT SCL;
            SET_CLK_DIV; dwClockDivisor speed_khz mod 256;
            dwClockDivisor speed_khz / 256]);
    [exact Hb1 | discriminate | cbn; unfold capacity; lia |].
  intros st2 Hb2 Hr2. rewrite !bind_append, <- !enqueue_app.
  apply (outcome_batch [OPEN_DRAIN; Z.lor SDA_OUT SCL; 0x00]);
    [exact Hb2 | discriminate | cbn; unfold capacity; lia |].
  intros st3 Hb3 Hr3. rewrite !bind_append.
  rewrite <- (app_nil_r [[DISABLE_LOOPBACK]]).
  apply (outcome_batch [DISABLE_LOOPBACK]);
    [exact Hb3 | discriminate | cbn; unfold capacity; lia |].
  intros st4 Hb4 Hr4.
  eapply outcome_eq; [apply outcome_ret; exact Hb4 | reflexivity | reflexivity |].
  rewrite Hr4, Hr3, Hr2, Hr1. reflexivity.
Qed.

(* ftdi_configure_i2c returns 0 or -1; when it returns 0 it has handed the
   driver the four set-up buffers, and either way the command buffer is
   left empty *)
Lemma ftdi_configure_i2c_view (drv : setup_replies) (speed_khz : Z) (st : state) :
  outputBuffer st = [] ->
  let r := ftdi_configure_i2c drv speed_khz st in
  outputBuffer (snd r) = [] /\
  ((fst r = 0 /\
    written (snd r) = written st ++ setup_batches (dwClockDivisor speed_khz)) \/
   (fst r = -1 /\ written (snd r) = written st)).
Proof.
  intros Hb r. subst r. rewrite ftdi_configure_i2c_parts. cbv zeta.
  set (st0 := set_ftStatus (open_status drv) st).
  assert (Hb0 : outputBuffer st0 = []) by exact Hb.
  assert (Hw0 : written st0 = written st) by reflexivity.
  clearbody st0.
  destruct (negb (ftStatus st0 =? FT_OK)).
  - cbn [fst snd]. rewrite Hw0. auto.
  - pose proof (setup_calls_view drv st0) as [V1 V2].
    set (st1 := setup_calls drv st0) in *. clearbody st1.
    destruct (negb (ftStatus st1 =? FT_OK)).
    + cbn [fst snd]. rewrite V1, V2, Hw0. auto.
    + destruct (setup_commands_outcome speed_khz st1 (eq_trans V1 Hb0))
        as (K1 & K2 & K3 & K4).
      rewrite V2, Hw0 in K4. auto.
Qed.

(** ** The bus scan *)

Lemma code_zero_is_ack (r : Z * list Z) :
  (send_code (interpret_reply r) =? 0) = is_ack r.
Proof.
  destruct (reply_cases r) as [(H & _) | [(H0 & H & _) | (H0 & _ & H)]].
  - rewrite (interpret_ack _ H), H. reflexivity.
  - rewrite (interpret_nak _ H), H0. reflexivity.
  - rewrite (interpret_io_failure _ H), H0. reflexivity.
Qed.

Lemma outcome_stop_then {A} (m : M A) (st : state)
    (c : A) (b2 : list (list Z)) (r2 : list (Z * list Z)) :
  outputBuffer st = [] ->
  (forall st1, outputBuffer st1 = [] -> read_replies st1 = read_replies st ->
               outcome (m st1) st1 c b2 r2) ->
  outcome ((i2c_stop_bk ;; execute ;; m) st) st c ([stop_cmds] ++ b2) r2.
Proof.
  intros Hb Hk. unfold bind at 1. rewrite i2c_stop_bk_enqueue.
  apply outcome_batch;
    [exact Hb | discriminate | rewrite length_stop_cmds; unfold capacity; lia |].
  exact Hk.
Qed.

Lemma skipn_tl {A} (n : nat) (l : list A) : skipn n (tl l) = skipn (S n) l.
Proof. destruct l; [destruct n; reflexivity | reflexivity]. Qed.

Lemma scan_loop_outcome (n : nat) :
  forall (i : Z) (acked : list Z) (st : state),
    outputBuffer st = [] ->
    outcome (i2c_scan_loop n i acked st) st
      (acked ++ scan_acked (indices n i) (read_replies st))
      (scan_batches (indices n i) (read_replies st))
      (skipn n (read_replies st)).
Proof.
  induction n as [| n IH]; intros i acked st Hb.
  - cbn [i2c_scan_loop indices scan_acked scan_batches skipn].
    rewrite app_nil_r. apply outcome_ret. exact Hb.
  - cbn [i2c_scan_loop indices scan_acked scan_batches].
    fold (next_reply st).
    eapply outcome_eq.
    + apply outcome_start_send; [exact Hb |].
      intros st1 Hb1 Hr1. apply outcome_stop_then; [exact Hb1 |].
      intros st2 Hb2 Hr2.
      eapply outcome_eq; [apply IH; exact Hb2 | | |];
        rewrite Hr2, Hr1; reflexivity.
    + rewrite code_zero_is_ack.
      destruct (is_ack (next_reply st)); cbn [negb app].
      * rewrite <- app_assoc. reflexivity.
      * reflexivity.
    + rewrite code_zero_is_ack. reflexivity.
    + apply skipn_tl.
Qed.

(* the bus under a scan: one start, one address byte, one stop per probe *)
Lemma run_scan (ixs : list Z) :
  forall (replies : list (Z * list Z)) (ns np : nat) (bo bi : list Z) (yi ti : Z),
    bus_run (mkBus Opcode true true ns np bo bi yi ti)
            (concat (scan_batches ixs replies)) =
    mkBus Opcode true true (ns + length ixs) (np + length ixs)
          (bo ++ map (fun i => uchar (READ i)) ixs) bi yi
          (ti + Z.of_nat (length ixs)).
Proof.
  induction ixs as [| i ixs IH]; intros replies ns np bo bi yi ti.
  - cbn. rewrite !Nat.add_0_r, app_nil_r, Z.add_0_r. reflexivity.
  - cbn [scan_batches]. rewrite !concat_app. cbn [concat].
    rewrite !bus_run_app, run_start, run_send.
    destruct (is_ack _); cbn [concat app]; rewrite ?app_nil_r, ?bus_run_app.
    + rewrite run_release, run_stop, bus_run_nil, IH. cbn [map length]. rewrite <- app_assoc. cbn [app].
      f_equal; lia.
    + rewrite !bus_run_nil, run_stop, IH. cbn [map length]. rewrite <- app_assoc. cbn [app].
      f_equal; lia.
Qed.

Lemma not_in_existsb (x : Z) (l : list Z) :
  existsb (Z.eqb x) l = false -> ~ In x l.
Proof.
  intros H Hin. assert (E : existsb (Z.eqb x) l = true).
  { apply existsb_exists. exists x. split; [exact Hin | apply Z.eqb_refl]. }
  congruence.
Qed.

Lemma main_i2c_scan_eq : main_i2c_scan = i2c_scan_loop 127 0 [].
Proof.
  unfold main_i2c_scan.
  replace (Z.to_nat (0x7f - 0)) with 127%nat by reflexivity. reflexivity.
Qed.

(** ** Slave addresses *)

Lemma READ_odd (a : Z) : READ a = 2 * a + 1.
Proof.
  unfold READ. rewrite Z.shiftl_mul_pow2 by lia.
  change (2 ^ 1) with 2. rewrite <- Z.lxor_lor, <- Z.add_nocarry_lxor.
  - lia.
  - change 1 with (Z.ones 1). rewrite Z.land_ones by lia.
    change (2 ^ 1) with 2. apply Z.mod_mul. lia.
  - change 1 with (Z.ones 1). rewrite Z.land_ones by lia.
    change (2 ^ 1) with 2. apply Z.mod_mul. lia.
Qed.

Lemma WRITE_even (a : Z) : WRITE a = 2 * a.
Proof.
  unfold WRITE. rewrite Z.lor_0_r, Z.shiftl_mul_pow2 by lia.
  change (2 ^ 1) with 2. lia.
Qed.

Lemma main_opt_a_mod (v : Z) : main_opt_a v = v mod 128.
Proof.
  unfold main_opt_a, uchar. change 0x7F with (Z.ones 7).
  rewrite Z.land_ones by lia. change (2 ^ 7) with 128.
  apply Z.mod_mod_divide. exists 2. reflexivity.
Qed.

(** ** The command buffer is empty between calls *)

Lemma leaves_keeps {A} (m : M A) : leaves_empty m -> keeps_empty m.
Proof. intros H st _. apply H. Qed.

Lemma keeps_ret {A} (a : A) : keeps_empty (ret a).
Proof. intros st H. exact H. Qed.

Lemma keeps_bind {A B} (m : M A) (k : A -> M B) :
  keeps_empty m -> (forall a, keeps_empty (k a)) -> keeps_empty (bind m k).
Proof.
  intros Hm Hk st Hb. unfold bind. specialize (Hm st Hb).
  destruct (m st) as [a st1]. apply Hk. exact Hm.
Qed.

Lemma leaves_bind {A B} (m : M A) (k : A -> M B) :
  leaves_empty m -> (forall a, keeps_empty (k a)) -> leaves_empty (bind m k).
Proof.
  intros Hm Hk st. unfold bind. specialize (Hm st).
  destruct (m st) as [a st1]. apply Hk. exact Hm.
Qed.

Lemma leaves_after {A B} (m : M A) (k : M B) :
  leaves_empty k -> leaves_empty (m ;; k).
Proof. intros Hk st. unfold bind. destruct (m st) as [a st1]. apply Hk. Qed.

Lemma leaves_execute : leaves_empty execute.
Proof. intros st. apply execute_view. Qed.

Lemma leaves_send (d : Z) : leaves_empty (i2c_send_bk d).
Proof. intros st. apply i2c_send_bk_view. Qed.

Lemma leaves_stop {A} (v : A) : leaves_empty (i2c_stop_bk ;; execute ;; ret v).
Proof.
  apply leaves_after, leaves_bind; [apply leaves_execute |].
  intros _. apply keeps_ret.
Qed.

Create HintDb buffer.
#[local] Hint Resolve leaves_keeps keeps_ret leaves_execute leaves_send leaves_stop
  : buffer.

Lemma keeps_read_bytes (nbytes : Z) : keeps_empty (read_bytes nbytes).
Proof.
  intros st Hb. destruct (Z_le_gt_dec nbytes 0) as [H | H].
  - rewrite read_bytes_invalid by exact H. exact Hb.
  - apply read_bytes_view. lia.
Qed.

Lemma keeps_for_ret_loop (body : Z -> M (option Z)) (n : nat) :
  (forall i, keeps_empty (body i)) ->
  forall i, keeps_empty (for_ret_loop n i body).
Proof.
  intros Hbody. induction n as [| n IH]; intros i.
  - apply keeps_ret.
  - cbn [for_ret_loop]. apply keeps_bind; [apply Hbody |].
    intros [v |]; [apply keeps_ret | apply IH].
Qed.

Lemma keeps_write_block (a nwrite : Z) (wbuf : list Z) :
  keeps_empty (write_block a nwrite wbuf).
Proof.
  unfold write_block. destruct (negb (nwrite =? 0)); [| apply keeps_ret].
  apply leaves_keeps, leaves_after, leaves_bind; [auto with buffer |].
  intros r. destruct (negb (r =? 0)); [auto with buffer |].
  apply keeps_for_ret_loop. intros i.
  apply leaves_keeps, leaves_bind; [auto with buffer |].
  intros r'. destruct (negb (r' =? 0)); auto with buffer.
Qed.

Lemma keeps_read_block (a nread : Z) : keeps_empty (read_block a nread).
Proof.
  unfold read_block. destruct (negb (nread =? 0)); [| apply keeps_ret].
  apply leaves_keeps, leaves_after, leaves_bind; [auto with buffer |].
  intros r. destruct (negb (r =? 0)); [auto with buffer |].
  apply keeps_bind; [apply keeps_read_bytes |]. auto with buffer.
Qed.

Lemma keeps_stop_block (nread nwrite : Z) : keeps_empty (stop_block nread nwrite).
Proof.
  unfold stop_block.
  destruct (negb (nread =? 0) || negb (nwrite =? 0)); auto with buffer.
Qed.

Lemma keeps_i2c_transaction (slave_addr nread nwrite : Z) (wbuf : list Z) :
  keeps_empty (i2c_transaction slave_addr nread nwrite wbuf).
Proof.
  rewrite i2c_transaction_blocks.
  apply keeps_bind; [apply keeps_write_block |].
  intros [v |]; [apply keeps_ret |].
  apply keeps_bind; [apply keeps_read_block |].
  intros [v |]; [apply keeps_ret |].
  apply keeps_bind; [apply keeps_stop_block |]. intros _. apply keeps_ret.
Qed.

(* between two calls of the top-level functions the command buffer is empty *)
Lemma reachable_buffer_empty (st : state) :
  reachable st -> outputBuffer st = [].
Proof.
  induction 1 as [wr rd | drv speed_khz st _ IH | st _ IH
                  | slave_addr nread nwrite wbuf st _ IH].
  - reflexivity.
  - apply (ftdi_configure_i2c_view drv speed_khz st IH).
  - rewrite main_i2c_scan_eq. apply (scan_loop_outcome 127 0 [] st IH).
  - apply keeps_i2c_transaction. exact IH.
Qed.

(* a successful configuration leaves the bus idle, with no start or stop
   condition produced *)
Lemma setup_leaves_bus_idle (speed_khz : Z) :
  bus_run idle_bus (concat (setup_batches (dwClockDivisor speed_khz))) = idle_bus.
Proof. unfold dwClockDivisor. destruct (speed_khz =? 400); reflexivity. Qed.

(** ** The program run on simulated slaves *)

(* read one byte from 0x3C: the slave acknowledges its address and returns
   0xAB; the program exits with 0 and the byte is in inputBuffer *)
Example read_one_byte_from_0x3C :
  let r := main_bus setup_all_ok 100 false 0x3C 1 0 []
             (boot [] [(FT_OK, [0x00]); (FT_OK, [0xAB])]) in
  fst r = (0, []) /\
  firstn (Z.to_nat (inputRead (snd r))) (inputBuffer (snd r)) = [0xAB] /\
  bytes_out (bus_run idle_bus (wire (snd r))) = [READ 0x3C] /\
  starts (bus_run idle_bus (wire (snd r))) = 1%nat /\
  stops (bus_run idle_bus (wire (snd r))) = 1%nat.
Proof. vm_compute. repeat split. Qed.

(* write 0x12 0x34 to 0x3C: the slave refuses the second data byte; the
   transaction returns SLAVE_NAK_DATA after a stop, and nothing further is
   clocked out *)
Example write_refused_at_second_byte :
  let r := i2c_transaction 0x3C 0 2 [0x12; 0x34]
             (boot [] [(FT_OK, [0x00]); (FT_OK, [0x00]); (FT_OK, [0x01])]) in
  fst r = SLAVE_NAK_DATA /\
  bytes_out (bus_run idle_bus (wire (snd r))) = [WRITE 0x3C; 0x12; 0x34] /\
  starts (bus_run idle_bus (wire (snd r))) = 1%nat /\
  stops (bus_run idle_bus (wire (snd r))) = 1%nat.
Proof. vm_compute. repeat split. Qed.

(** * The claims *)

(** C1, on the code.  A configuration that succeeds hands the driver, as its
    first buffer, DISABLE_CLK_DIV_5 twice and then ENABLE_3_PHASE_CLK; the
    opcode DISABLE_ADAPTIVE_CLK (0x97) is in none of the buffers it sends. *)
Theorem configure_never_sends_disable_adaptive_clk :
  forall (drv : setup_replies) (speed_khz : Z) (st : state),
    outputBuffer st = [] ->
    fst (ftdi_configure_i2c drv speed_khz st) = 0 ->
    nth (length (written st))
        (written (snd (ftdi_configure_i2c drv speed_khz st))) [] =
      [DISABLE_CLK_DIV_5; DISABLE_CLK_DIV_5; ENABLE_3_PHASE_CLK] /\
    ~ In DISABLE_ADAPTIVE_CLK
         (sent_since st (snd (ftdi_configure_i2c drv speed_khz st))).
Proof.
  intros drv speed_khz st Hb Hok.
  destruct (ftdi_configure_i2c_view drv speed_khz st Hb) as (_ & [[_ Hw] | [Hf _]]);
    [| rewrite Hok in Hf; discriminate].
  split.
  - rewrite Hw. rewrite <- (Nat.add_0_r (length (written st))), app_nth2_plus.
    reflexivity.
  - destruct (sent_since_batches _ _ _ Hw) as [_ Hs]. rewrite Hs.
    unfold dwClockDivisor. destruct (speed_khz =? 400); cbn;
      intros H; repeat (destruct H as [H | H]; [discriminate |]); exact H.
Qed.

Lemma configure_never_sends_disable_adaptive_clk_witness :
  let st := boot [] [] in
  nth (length (written st))
      (written (snd (ftdi_configure_i2c setup_all_ok 100 st))) [] =
    [DISABLE_CLK_DIV_5; DISABLE_CLK_DIV_5; ENABLE_3_PHASE_CLK] /\
  ~ In DISABLE_ADAPTIVE_CLK
       (sent_since st (snd (ftdi_configure_i2c setup_all_ok 100 st))).
Proof.
  apply (configure_never_sends_disable_adaptive_clk setup_all_ok 100 (boot [] [])).
  - reflexivity.
  - vm_compute. reflexivity.
Defined.

(** C2, on the code.  A read-only transaction whose address byte is
    acknowledged returns 0, the success code, whatever the driver answers to
    the read of read_bytes: a failed read and a read of no bytes are not told
    apart from a read that delivered the data. *)
Theorem read_failure_reported_as_success :
  forall (st : state) (slave_addr nread : Z) (wbuf : list Z),
    outputBuffer st = [] ->
    0 < nread ->
    is_ack (next_reply st) = true ->
    fst (i2c_transaction slave_addr nread 0 wbuf st) = 0.
Proof.
  intros st slave_addr nread wbuf Hb Hn Ha.
  apply (transaction_read_ack slave_addr nread wbuf st Hb Hn Ha).
Qed.

Lemma read_failure_reported_as_success_witness :
  fst (i2c_transaction 0x3C 1 0 []
         (boot [] [(FT_OK, [0x00]); (FT_IO_ERROR, [])])) = 0.
Proof.
  apply (read_failure_reported_as_success
           (boot [] [(FT_OK, [0x00]); (FT_IO_ERROR, [])]) 0x3C 1 []).
  - reflexivity.
  - reflexivity.
  - reflexivity.
Defined.

(** C3, on the code.  Whatever the slaves answer, the bus scan probes the
    addresses 0x00 to 0x7E and no other: read from an idle bus, what it sends
    clocks out the 127 address bytes READ(0x00) ... READ(0x7E), each between a
    start and a stop condition of its own, and clocks no data byte in or
    acknowledge bit out; READ(0x7F) is not among the bytes sent.  The scan
    reports the probed addresses whose reply was an acknowledge. *)
Theorem bus_scan_probes_0x00_to_0x7E :
  forall (st : state) (b : bus),
    outputBuffer st = [] ->
    bus_idle b ->
    let r := main_i2c_scan st in
    let b' := bus_run b (sent_since st (snd r)) in
    fst r = scan_acked (indices 127 0) (read_replies st) /\
    bytes_out b' = bytes_out b ++ map READ (indices 127 0) /\
    ~ In (READ 0x7F) (map READ (indices 127 0)) /\
    starts b' = (starts b + 127)%nat /\
    stops b' = (stops b + 127)%nat /\
    bytes_in b' = bytes_in b /\
    bits_out b' = bits_out b /\
    bus_idle b'.
Proof.
  intros st b Hb Hidle r b'. subst b' r. rewrite main_i2c_scan_eq.
  pose proof (scan_loop_outcome 127 0 [] st Hb) as Hout.
  destruct (outcome_sent _ _ _ _ _ Hout) as [_ Hsent].
  assert (Hmap : map (fun i => uchar (READ i)) (indices 127 0) =
                 map READ (indices 127 0)) by (vm_compute; reflexivity).
  split; [apply Hout |].
  rewrite Hsent, (bus_idle_inv b Hidle), run_scan, Hmap.
  rewrite length_indices. cbn [bytes_out starts stops bytes_in bits_out].
  unfold bus_idle. cbn [expecting scl sda].
  repeat split.
  apply not_in_existsb. vm_compute. reflexivity.
Qed.

Lemma bus_scan_probes_0x00_to_0x7E_witness :
  let st := boot [] (bus_with_slave_at 0x7F 128) in
  let r := main_i2c_scan st in
  let b' := bus_run idle_bus (sent_since st (snd r)) in
  fst r = scan_acked (indices 127 0) (read_replies st) /\
  bytes_out b' = bytes_out idle_bus ++ map READ (indices 127 0) /\
  ~ In (READ 0x7F) (map READ (indices 127 0)) /\
  starts b' = (starts idle_bus + 127)%nat /\
  stops b' = (stops idle_bus + 127)%nat /\
  bytes_in b' = bytes_in idle_bus /\
  bits_out b' = bits_out idle_bus /\
  bus_idle b'.
Proof.
  apply (bus_scan_probes_0x00_to_0x7E
           (boot [] (bus_with_slave_at 0x7F 128)) idle_bus).
  - reflexivity.
  - unfold bus_idle. repeat split.
Defined.

(* a bus whose only slave is at 0x7F: the scan reports nothing and never
   gets to the one reply that acknowledges; with the slave at 0x3C instead
   it reports 0x3C *)
Example scan_misses_slave_at_0x7F :
  fst (main_i2c_scan (boot [] (bus_with_slave_at 0x7F 128))) = [] /\
  read_replies (snd (main_i2c_scan (boot [] (bus_with_slave_at 0x7F 128)))) =
    [(FT_OK, [0x00])] /\
  fst (main_i2c_scan (boot [] (bus_with_slave_at 0x3C 128))) = [0x3C].
Proof. vm_compute. repeat split. Qed.

(** C4.  A write-then-read transaction (a write payload of [nwrite > 0]
    bytes and a read length [nread > 0]) that starts from an empty command
    buffer and in which the slave acknowledges both address bytes and every
    payload byte returns 0, and what it sends over the wire, read from an
    idle bus, produces exactly two start conditions and exactly one stop
    condition and leaves the bus idle, whatever the payload and its length. *)
Theorem write_then_read_two_starts_one_stop :
  forall (st : state) (slave_addr nread nwrite : Z) (wbuf : list Z),
    outputBuffer st = [] ->
    0 < nwrite ->
    0 < nread ->
    acknowledged (Z.to_nat nwrite + 2) (read_replies st) ->
    let r := i2c_transaction slave_addr nread nwrite wbuf st in
    fst r = 0 /\
    wire (snd r) = wire st ++ sent_since st (snd r) /\
    forall b : bus,
      bus_idle b ->
      starts (bus_run b (sent_since st (snd r))) = S (S (starts b)) /\
      stops (bus_run b (sent_since st (snd r))) = S (stops b) /\
      bus_idle (bus_run b (sent_since st (snd r))).
Proof.
  intros st slave_addr nread nwrite wbuf Hb Hw Hr Ha r.
  pose proof (transaction_write_read_acks slave_addr nread nwrite wbuf st Hb Hw Hr Ha)
    as Hout.
  fold r in Hout. destruct (outcome_sent _ _ _ _ _ Hout) as [Hwire Hsent].
  split; [apply Hout |]. split; [exact Hwire |].
  intros b Hidle. rewrite Hsent, (bus_idle_inv b Hidle).
  unfold write_read_batches. rewrite !concat_app. cbn [concat].
  rewrite app_nil_r, !bus_run_app.
  rewrite run_start, run_send, run_release, run_payload.
  replace (match indices (Z.to_nat nwrite) 0 with [] => true | _ :: _ => true end)
    with true by (destruct (indices (Z.to_nat nwrite) 0); reflexivity).
  rewrite run_start, run_send, run_release.
  match goal with
  | |- context [bus_run (mkBus Opcode false ?sd ?ns ?np ?bo ?bi ?yi ?ti)
                        (firstn capacity (read_cmds nread))] =>
      destruct (run_read_cmds nread sd ns np bo bi yi ti) as (sd' & bi' & yi' & E);
      rewrite E
  end.
  rewrite run_stop. cbn. unfold bus_idle. cbn. repeat split.
Qed.

Lemma write_then_read_two_starts_one_stop_witness :
  let st := snd (ftdi_configure_i2c setup_all_ok 100
                   (boot [] [(FT_OK, [0x00]); (FT_OK, [0x00]); (FT_OK, [0x00]);
                             (FT_OK, [0xAB; 0xCD])])) in
  let r := i2c_transaction 0x3C 2 1 [0x12] st in
  fst r = 0 /\
  wire (snd r) = wire st ++ sent_since st (snd r) /\
  forall b : bus,
    bus_idle b ->
    starts (bus_run b (sent_since st (snd r))) = S (S (starts b)) /\
    stops (bus_run b (sent_since st (snd r))) = S (stops b) /\
    bus_idle (bus_run b (sent_since st (snd r))).
Proof.
  apply (write_then_read_two_starts_one_stop
           (snd (ftdi_configure_i2c setup_all_ok 100
                   (boot [] [(FT_OK, [0x00]); (FT_OK, [0x00]); (FT_OK, [0x00]);
                             (FT_OK, [0xAB; 0xCD])])))
           0x3C 2 1 [0x12]).
  - vm_compute. reflexivity.
  - reflexivity.
  - reflexivity.
  - split; [vm_compute; lia | vm_compute; reflexivity].
Defined.

(** C5.  A transaction with a write payload ([nwrite] not 0) whose address
    byte the slave Naks returns SLAVE_NAK_ADDR after handing the driver two
    buffers, the start condition with the WRITE address byte and then the
    stop condition: the address is the only byte clocked out, no payload byte
    is, and there is one stop condition, after which the bus is idle. *)
Theorem write_nak_addr_sends_no_payload :
  forall (st : state) (slave_addr nread nwrite : Z) (wbuf : list Z),
    outputBuffer st = [] ->
    nwrite <> 0 ->
    is_nak (next_reply st) = true ->
    let r := i2c_transaction slave_addr nread nwrite wbuf st in
    fst r = SLAVE_NAK_ADDR /\
    written (snd r) =
      written st ++ [start_cmds ++ send_cmds (WRITE (uchar slave_addr)); stop_cmds] /\
    forall b : bus,
      bus_idle b ->
      bytes_out (bus_run b (sent_since st (snd r))) =
        bytes_out b ++ [uchar (WRITE (uchar slave_addr))] /\
      starts (bus_run b (sent_since st (snd r))) = S (starts b) /\
      stops (bus_run b (sent_since st (snd r))) = S (stops b) /\
      bus_idle (bus_run b (sent_since st (snd r))).
Proof.
  intros st slave_addr nread nwrite wbuf Hb Hw Hn r.
  pose proof (transaction_write_refused slave_addr nread nwrite wbuf st Hb Hw
                (nak_not_ack _ Hn)) as Hout.
  fold r in Hout. destruct (outcome_sent _ _ _ _ _ Hout) as [Hwire Hsent].
  split; [apply Hout |]. split; [apply Hout |].
  intros b Hidle. rewrite Hsent, (bus_idle_inv b Hidle).
  cbn [concat]. rewrite app_nil_r, !bus_run_app.
  rewrite run_start, run_send, run_stop. cbn. unfold bus_idle. cbn.
  repeat split.
Qed.

Lemma write_nak_addr_sends_no_payload_witness :
  let st := snd (ftdi_configure_i2c setup_all_ok 400 (boot [] [(FT_OK, [0x01])])) in
  let r := i2c_transaction 0x3C 0 2 [0x12; 0x34] st in
  fst r = SLAVE_NAK_ADDR /\
  written (snd r) =
    written st ++ [start_cmds ++ send_cmds (WRITE (uchar 0x3C)); stop_cmds] /\
  forall b : bus,
    bus_idle b ->
    bytes_out (bus_run b (sent_since st (snd r))) =
      bytes_out b ++ [uchar (WRITE (uchar 0x3C))] /\
    starts (bus_run b (sent_since st (snd r))) = S (starts b) /\
    stops (bus_run b (sent_since st (snd r))) = S (stops b) /\
    bus_idle (bus_run b (sent_since st (snd r))).
Proof.
  apply (write_nak_addr_sends_no_payload
           (snd (ftdi_configure_i2c setup_all_ok 400 (boot [] [(FT_OK, [0x01])])))
           0x3C 0 2 [0x12; 0x34]).
  - vm_compute. reflexivity.
  - discriminate.
  - vm_compute. reflexivity.
Defined.

(** Within the command buffer read_bytes does what C6 says.  When the 6n+1
    command bytes of read_bytes(n), n >= 1, fit in what is left of the
    command buffer (n <= 170 from an empty buffer), read_bytes returns 0 and hands the driver the buffer followed by
    the read commands; read by the command processor these clock out exactly
    n acknowledge bits, and the one for byte index i is 0x00 (Ack) for
    i < n-1 and 0x80 (Nak, the bit is taken MSB first) for i = n-1. *)
Theorem read_bytes_acks_all_but_last :
  forall (st : state) (nbytes : Z),
    1 <= nbytes ->
    outputSize st + (6 * nbytes + 1) <= sizeof_outputBuffer - 1 ->
    let r := read_bytes nbytes st in
    fst r = 0 /\
    written (snd r) = written st ++ [outputBuffer st ++ read_cmds nbytes] /\
    forall b : bus,
      expecting b = Opcode ->
      length (bits_out (bus_run b (read_cmds nbytes))) =
        (length (bits_out b) + Z.to_nat nbytes)%nat /\
      forall i : Z,
        0 <= i < nbytes ->
        nth (length (bits_out b) + Z.to_nat i)
            (bits_out (bus_run b (read_cmds nbytes))) (-1) =
        (if i =? nbytes - 1 then 0x80 else 0x00).
Proof.
  intros st nbytes Hn Hroom r.
  destruct (read_bytes_view nbytes st) as (H1 & H2 & H3 & H4); [lia |].
  fold r in H1, H2, H3, H4.
  split; [exact H1 |]. split.
  - rewrite H4, outputBuffer_enqueue_fits; [reflexivity |].
    rewrite length_read_cmds. unfold outputSize, sizeof_outputBuffer in Hroom.
    unfold capacity. lia.
  - intros b Hop. destruct b as [e sc sd ns np bo bi yi ti]. cbn in Hop. subst e.
    unfold read_cmds. rewrite bus_run_app, run_read_groups, run_send_immediate.
    cbn [bits_out]. split.
    + rewrite length_app, length_map, length_indices. reflexivity.
    + intros i Hi. rewrite app_nth2_plus, nth_map_indices by lia.
      rewrite Z2Nat.id by lia. reflexivity.
Qed.

Lemma read_bytes_acks_all_but_last_witness :
  let st := boot [] [(FT_OK, [0x11; 0x22; 0x33])] in
  let r := read_bytes 3 st in
  fst r = 0 /\
  written (snd r) = written st ++ [outputBuffer st ++ read_cmds 3] /\
  forall b : bus,
    expecting b = Opcode ->
    length (bits_out (bus_run b (read_cmds 3))) =
      (length (bits_out b) + Z.to_nat 3)%nat /\
    forall i : Z,
      0 <= i < 3 ->
      nth (length (bits_out b) + Z.to_nat i)
          (bits_out (bus_run b (read_cmds 3))) (-1) =
      (if i =? 3 - 1 then 0x80 else 0x00).
Proof.
  apply (read_bytes_acks_all_but_last (boot [] [(FT_OK, [0x11; 0x22; 0x33])]) 3).
  - lia.
  - vm_compute. discriminate.
Defined.

(** Beyond it the rule fails: asked for 171 bytes from an empty command
    buffer, read_bytes queues no acknowledge bit at all for byte index 170,
    so the last byte is not given a Nak. *)
Lemma read_bytes_171_queues_no_nak :
  ~ (forall nbytes i : Z,
       1 <= nbytes ->
       0 <= i < nbytes ->
       nth (Z.to_nat i)
           (bits_out (bus_run idle_bus (wire (snd (read_bytes nbytes (boot [] []))))))
           (-1) =
       (if i =? nbytes - 1 then 0x80 else 0x00)).
Proof.
  intros H. specialize (H 171 170 ltac:(lia) ltac:(lia)).
  vm_compute in H. discriminate.
Qed.

(** C6, on the code.  Asked for 171 bytes with the command buffer empty,
    read_bytes returns 0.  Its loop does call append with the Nak (0x80) for
    byte index 170, the byte at position 6 * 170 + 5 of its commands, but
    append refuses everything past 1023 bytes and nobody looks at what it
    returns: the one buffer handed to the driver is the first 1023 bytes of
    the commands.  Carried out, these clock in 171 bytes and clock out 170
    acknowledge bits, all of them Ack: the last byte gets no Nak. *)
Theorem read_bytes_171_sends_no_nak :
  let r := read_bytes 171 (boot [] []) in
  let b := bus_run idle_bus (wire (snd r)) in
  fst r = 0 /\
  nth (6 * 170 + 5) (read_cmds 171) 0 = 0x80 /\
  written (snd r) = [firstn 1023 (read_cmds 171)] /\
  length (wire (snd r)) = 1023%nat /\
  bytes_in b = 171 /\
  bits_out b = repeat 0x00 170 /\
  ~ In 0x80 (bits_out b).
Proof.
  cbv zeta.
  assert (Hbits : bits_out (bus_run idle_bus (wire (snd (read_bytes 171 (boot [] []))))) =
                  repeat 0x00 170) by (vm_compute; reflexivity).
  split; [vm_compute; reflexivity |]. split; [vm_compute; reflexivity |].
  split; [vm_compute; reflexivity |]. split; [vm_compute; reflexivity |].
  split; [vm_compute; reflexivity |]. split; [exact Hbits |].
  rewrite Hbits. intros H. apply repeat_spec in H. discriminate.
Qed.

(** C7, as the code has it.  i2c_send_bk returns the code of the outcome
    read off the reply to its one-byte read, whatever FT_Write answered
    before: -2 (I/O error) if the read failed or brought no byte,
    else -1 (Nak) if the low bit of the byte is set, else 0 (Ack).  It hands
    the driver the buffer ending with the commands for the byte, and only
    after an Ack a second buffer, the command setting SDA high as an output
    with SCL low.  The three codes are pairwise distinct. *)
Theorem send_byte_outcomes :
  forall (data : Z) (st : state),
    let r := i2c_send_bk data st in
    fst r = send_code (interpret_reply (next_reply st)) /\
    written (snd r) =
      written st ++
      outputBuffer (enqueue (send_cmds data) st) ::
      match interpret_reply (next_reply st) with
      | Ack => [[SET_BITS_LOW_BYTE; SDA_OUT; Z.lor SDA_OUT SCL]]
      | Nak | IoError => []
      end /\
    outputBuffer (snd r) = [] /\
    send_code IoError <> send_code Nak /\
    send_code IoError <> send_code Ack /\
    send_code Nak <> send_code Ack.
Proof.
  intros data st r.
  destruct (i2c_send_bk_view data st) as (H1 & H2 & H3 & H4). fold r in H1, H2, H3, H4.
  split; [exact H1 |]. split.
  - rewrite H4, H1. destruct (interpret_reply (next_reply st)); reflexivity.
  - split; [exact H2 |]. cbn. repeat split; discriminate.
Qed.

(** C7, as stated, fails: a transport failure of the write goes unnoticed.
    When FT_Write fails and the read that follows brings a byte with its low
    bit clear, i2c_send_bk returns 0, the code of an Ack and not that of an
    I/O error, and sets SDA high as after any Ack. *)
Lemma send_byte_succeeds_after_failed_write :
  let st := boot [FT_IO_ERROR] [(FT_OK, [0x00])] in
  let r := i2c_send_bk 0xA5 st in
  fst (execute (enqueue (send_cmds 0xA5) st)) = FT_IO_ERROR /\
  FT_IO_ERROR <> FT_OK /\
  fst r = send_code Ack /\
  fst r <> send_code IoError /\
  written (snd r) =
    [send_cmds 0xA5; [SET_BITS_LOW_BYTE; SDA_OUT; Z.lor SDA_OUT SCL]].
Proof.
  vm_compute. repeat split; discriminate.
Qed.

(** C8.  For a 7-bit address a, READ(a) is (a<<1)|1 = 2a+1 and WRITE(a) is
    (a<<1) = 2a; both fit a byte, so the address byte i2c_send_bk queues is
    exactly that value, with the address in bits 7..1 and the direction in
    bit 0.  The address given with option -a is reduced to its low 7 bits
    whatever value was supplied, and a 7-bit address is left as it is. *)
Theorem slave_address_encoding :
  forall a : Z,
    0 <= a <= 0x7F ->
    READ a = Z.lor (Z.shiftl a 1) 1 /\
    WRITE a = Z.shiftl a 1 /\
    READ a = 2 * a + 1 /\
    WRITE a = 2 * a /\
    send_cmds (READ a) =
      [MSB_FALLING_EDGE_CLOCK_BYTE_OUT; 0x00; 0x00; Z.lor (Z.shiftl a 1) 1;
       SET_BITS_LOW_BYTE; SDA_OUT; Z.lor SDA_OUT SCL;
       MSB_RISING_EDGE_CLOCK_BIT_IN; 0x00; SEND_IMMEDIATE] /\
    send_cmds (WRITE a) =
      [MSB_FALLING_EDGE_CLOCK_BYTE_OUT; 0x00; 0x00; Z.shiftl a 1;
       SET_BITS_LOW_BYTE; SDA_OUT; Z.lor SDA_OUT SCL;
       MSB_RISING_EDGE_CLOCK_BIT_IN; 0x00; SEND_IMMEDIATE] /\
    main_opt_a a = a /\
    forall v : Z,
      0 <= main_opt_a v <= 0x7F /\
      main_opt_a v = v mod 128 /\
      Z.testbit (main_opt_a v) 7 = false /\
      uchar (main_opt_a v) = main_opt_a v.
Proof.
  intros a Ha.
  assert (HW : WRITE a = Z.shiftl a 1) by (unfold WRITE; apply Z.lor_0_r).
  assert (HR : uchar (READ a) = READ a)
    by (apply uchar_small; rewrite READ_odd; lia).
  assert (HW' : uchar (WRITE a) = WRITE a)
    by (apply uchar_small; rewrite WRITE_even; lia).
  split; [reflexivity |]. split; [exact HW |].
  split; [apply READ_odd |]. split; [apply WRITE_even |].
  split; [unfold send_cmds; rewrite HR; reflexivity |].
  split; [unfold send_cmds; rewrite HW', HW; reflexivity |].
  split; [rewrite main_opt_a_mod; apply Z.mod_small; lia |].
  intros v. rewrite main_opt_a_mod.
  assert (Hv : 0 <= v mod 128 < 128) by (apply Z.mod_pos_bound; lia).
  repeat split; try lia.
  - apply Z.bits_above_log2; [lia |].
    destruct (Z.eq_dec (v mod 128) 0) as [E | E]; [rewrite E; cbn; lia |].
    apply Z.log2_lt_pow2; [lia |]. change (2 ^ 7) with 128. lia.
  - apply uchar_small. lia.
Qed.

Lemma slave_address_encoding_witness :
  READ 0x3C = Z.lor (Z.shiftl 0x3C 1) 1 /\
  WRITE 0x3C = Z.shiftl 0x3C 1 /\
  READ 0x3C = 2 * 0x3C + 1 /\
  WRITE 0x3C = 2 * 0x3C /\
  send_cmds (READ 0x3C) =
    [MSB_FALLING_EDGE_CLOCK_BYTE_OUT; 0x00; 0x00; Z.lor (Z.shiftl 0x3C 1) 1;
     SET_BITS_LOW_BYTE; SDA_OUT; Z.lor SDA_OUT SCL;
     MSB_RISING_EDGE_CLOCK_BIT_IN; 0x00; SEND_IMMEDIATE] /\
  send_cmds (WRITE 0x3C) =
    [MSB_FALLING_EDGE_CLOCK_BYTE_OUT; 0x00; 0x00; Z.shiftl 0x3C 1;
     SET_BITS_LOW_BYTE; SDA_OUT; Z.lor SDA_OUT SCL;
     MSB_RISING_EDGE_CLOCK_BIT_IN; 0x00; SEND_IMMEDIATE] /\
  main_opt_a 0x3C = 0x3C /\
  forall v : Z,
    0 <= main_opt_a v <= 0x7F /\
    main_opt_a v = v mod 128 /\
    Z.testbit (main_opt_a v) 7 = false /\
    uchar (main_opt_a v) = main_opt_a v.
Proof.
  apply (slave_address_encoding 0x3C). lia.
Defined.

(** C9.  The divisor is 0x012B for 100 kHz, 0x004A for 400 kHz, and 0x012B
    again for every other requested speed (the 100 kHz profile is the
    default).  When the configuration succeeds, the second buffer handed to
    the driver carries SET_CLK_DIV followed by the low byte and then the high
    byte of that 16-bit divisor. *)
Theorem clock_divisor_sent_little_endian :
  forall (drv : setup_replies) (speed_khz : Z) (st : state),
    outputBuffer st = [] ->
    fst (ftdi_configure_i2c drv speed_khz st) = 0 ->
    let d := dwClockDivisor speed_khz in
    (speed_khz = 100 -> d = 0x012B) /\
    (speed_khz = 400 -> d = 0x004A) /\
    (speed_khz <> 400 -> d = 0x012B) /\
    0 <= d < 65536 /\
    d = d mod 256 + 256 * (d / 256) /\
    nth (length (written st) + 1)
        (written (snd (ftdi_configure_i2c drv speed_khz st))) [] =
      [SET_BITS_LOW_BYTE; Z.lor SDA_OUT SCL; Z.lor SDA_OUT SCL;
       SET_CLK_DIV; d mod 256; d / 256].
Proof.
  intros drv speed_khz st Hb Hok d.
  destruct (ftdi_configure_i2c_view drv speed_khz st Hb) as (_ & [[_ Hw] | [Hf _]]);
    [| rewrite Hok in Hf; discriminate].
  repeat split.
  - intros ->. reflexivity.
  - intros ->. reflexivity.
  - intros H. unfold d, dwClockDivisor.
    destruct (Z.eqb_spec speed_khz 400); [contradiction | reflexivity].
  - unfold d, dwClockDivisor. destruct (speed_khz =? 400); lia.
  - unfold d, dwClockDivisor. destruct (speed_khz =? 400); lia.
  - unfold d, dwClockDivisor. destruct (speed_khz =? 400); reflexivity.
  - rewrite Hw, app_nth2_plus. reflexivity.
Qed.

Lemma clock_divisor_sent_little_endian_witness :
  let st := boot [] [] in
  let d := dwClockDivisor 400 in
  (400 = 100 -> d = 0x012B) /\
  (400 = 400 -> d = 0x004A) /\
  (400 <> 400 -> d = 0x012B) /\
  0 <= d < 65536 /\
  d = d mod 256 + 256 * (d / 256) /\
  nth (length (written st) + 1)
      (written (snd (ftdi_configure_i2c setup_all_ok 400 st))) [] =
    [SET_BITS_LOW_BYTE; Z.lor SDA_OUT SCL; Z.lor SDA_OUT SCL;
     SET_CLK_DIV; d mod 256; d / 256].
Proof.
  apply (clock_divisor_sent_little_endian setup_all_ok 400 (boot [] [])).
  - reflexivity.
  - vm_compute. reflexivity.
Defined.

(** C10.  With nothing to write and nothing to read, i2c_transaction returns
    0 and leaves the whole state as it was: nothing is queued in the command
    buffer, nothing is handed to the driver, no reply is read. *)
Theorem empty_transaction_does_nothing :
  forall (st : state) (slave_addr : Z) (wbuf : list Z),
    i2c_transaction slave_addr 0 0 wbuf st = (0, st).
Proof. intros st slave_addr wbuf. reflexivity. Qed.

(** * Further properties of the code *)

(** ** The command buffer *)

Lemma enqueue_prefix (ds : list Z) (st : state) :
  (length (outputBuffer st) <= capacity)%nat ->
  outputBuffer (enqueue ds st) = firstn capacity (outputBuffer st ++ ds).
Proof.
  intros H. rewrite outputBuffer_enqueue, firstn_app.
  rewrite (firstn_all2 (outputBuffer st)) by exact H. reflexivity.
Qed.

(** X1.  execute hands the driver the queued bytes in one FT_Write, empties
    the buffer, and returns and records the status of that write; on an empty
    buffer it returns 0 without calling the driver and changes nothing, so a
    second execute in a row never sends anything. *)
Theorem execute_sends_the_buffer_once :
  forall st : state,
    (outputBuffer st = [] -> execute st = (0, st)) /\
    (outputBuffer st <> [] ->
     written (snd (execute st)) = written st ++ [outputBuffer st] /\
     fst (execute st) = hd FT_OK (write_replies st) /\
     ftStatus (snd (execute st)) = fst (execute st) /\
     write_replies (snd (execute st)) = tl (write_replies st)) /\
    outputBuffer (snd (execute st)) = [] /\
    read_replies (snd (execute st)) = read_replies st /\
    execute (snd (execute st)) = (0, snd (execute st)).
Proof.
  intros st. split; [apply execute_empty |]. split.
  - intros H. rewrite (execute_nonempty st H). cbn. auto.
  - destruct (execute_view st) as (H1 & H2 & _).
    split; [exact H1 |]. split; [exact H2 |]. apply execute_empty. exact H1.
Qed.

(** X2.  Queueing never writes past the command buffer: when the buffer holds
    at most 1023 bytes, after set_bits, i2c_start_bk or i2c_stop_bk it holds
    the first 1023 bytes of the old contents followed by the new commands (all
    of them if they fit, silently cut short otherwise), and nothing has
    been handed to the driver. *)
Theorem queueing_stays_within_the_buffer :
  forall (st : state) (data : Z),
    outputSize st <= sizeof_outputBuffer - 1 ->
    outputBuffer (snd (set_bits data st)) =
      firstn 1023 (outputBuffer st ++ [SET_BITS_LOW_BYTE; uchar data; Z.lor SDA_OUT SCL]) /\
    outputBuffer (snd (i2c_start_bk st)) = firstn 1023 (outputBuffer st ++ start_cmds) /\
    outputBuffer (snd (i2c_stop_bk st)) = firstn 1023 (outputBuffer st ++ stop_cmds) /\
    outputSize (snd (set_bits data st)) <= sizeof_outputBuffer - 1 /\
    outputSize (snd (i2c_start_bk st)) <= sizeof_outputBuffer - 1 /\
    outputSize (snd (i2c_stop_bk st)) <= sizeof_outputBuffer - 1 /\
    written (snd (set_bits data st)) = written st /\
    written (snd (i2c_start_bk st)) = written st /\
    written (snd (i2c_stop_bk st)) = written st.
Proof.
  intros st data H. unfold outputSize, sizeof_outputBuffer in *.
  assert (Hc : (length (outputBuffer st) <= capacity)%nat) by (unfold capacity; lia).
  rewrite set_bits_enqueue, i2c_start_bk_enqueue, i2c_stop_bk_enqueue.
  cbn [snd]. rewrite !enqueue_prefix by exact Hc.
  change capacity with 1023%nat.
  repeat split; try reflexivity;
    match goal with
    | |- Z.of_nat (length (firstn ?n ?l)) <= _ =>
        pose proof (firstn_le_length n l); rewrite length_firstn; lia
    end.
Qed.

Lemma queueing_stays_within_the_buffer_witness :
  let st := snd (i2c_start_bk (snd (i2c_start_bk (snd (i2c_start_bk (boot [] [])))))) in
  outputBuffer (snd (set_bits 0 st)) =
    firstn 1023 (outputBuffer st ++ [SET_BITS_LOW_BYTE; uchar 0; Z.lor SDA_OUT SCL]) /\
  outputBuffer (snd (i2c_start_bk st)) = firstn 1023 (outputBuffer st ++ start_cmds) /\
  outputBuffer (snd (i2c_stop_bk st)) = firstn 1023 (outputBuffer st ++ stop_cmds) /\
  outputSize (snd (set_bits 0 st)) <= sizeof_outputBuffer - 1 /\
  outputSize (snd (i2c_start_bk st)) <= sizeof_outputBuffer - 1 /\
  outputSize (snd (i2c_stop_bk st)) <= sizeof_outputBuffer - 1 /\
  written (snd (set_bits 0 st)) = written st /\
  written (snd (i2c_start_bk st)) = written st /\
  written (snd (i2c_stop_bk st)) = written st.
Proof.
  apply (queueing_stays_within_the_buffer
           (snd (i2c_start_bk (snd (i2c_start_bk (snd (i2c_start_bk (boot [] [])))))))
           0).
  vm_compute. discriminate.
Defined.

(** X3.  A start condition followed at once by a stop condition: from an
    empty buffer the 720 bytes go to the driver in one buffer, and on an idle
    bus they produce one start condition, one stop condition, clock nothing
    in or out, and leave both lines high again. *)
Theorem start_then_stop_returns_to_idle :
  forall (st : state) (b : bus),
    outputBuffer st = [] ->
    bus_idle b ->
    let r := (i2c_start_bk ;; i2c_stop_bk ;; execute) st in
    written (snd r) = written st ++ [start_cmds ++ stop_cmds] /\
    outputBuffer (snd r) = [] /\
    bus_run b (start_cmds ++ stop_cmds) =
      mkBus Opcode true true (S (starts b)) (S (stops b))
            (bytes_out b) (bits_out b) (bytes_in b) (bits_in b).
Proof.
  intros st b Hb Hidle r.
  assert (Heq : r = execute (enqueue (start_cmds ++ stop_cmds) st)).
  { subst r. rewrite bind_start. unfold bind. rewrite i2c_stop_bk_enqueue.
    rewrite <- enqueue_app. reflexivity. }
  rewrite Heq. clear Heq r.
  pose proof (execute_view (enqueue (start_cmds ++ stop_cmds) st)) as (E1 & _ & E3).
  rewrite outputBuffer_enqueue_fits in E3
    by (rewrite Hb, length_app, length_start_cmds, length_stop_cmds;
        unfold capacity; cbn; lia).
  rewrite Hb in E3. split; [exact E3 |]. split; [exact E1 |].
  rewrite (bus_idle_inv b Hidle), bus_run_app, run_start, run_stop. reflexivity.
Qed.

Lemma start_then_stop_returns_to_idle_witness :
  let st := boot [] [] in
  let r := (i2c_start_bk ;; i2c_stop_bk ;; execute) st in
  written (snd r) = written st ++ [start_cmds ++ stop_cmds] /\
  outputBuffer (snd r) = [] /\
  bus_run idle_bus (start_cmds ++ stop_cmds) =
    mkBus Opcode true true (S (starts idle_bus)) (S (stops idle_bus))
          (bytes_out idle_bus) (bits_out idle_bus) (bytes_in idle_bus)
          (bits_in idle_bus).
Proof.
  apply (start_then_stop_returns_to_idle (boot [] []) idle_bus).
  - reflexivity.
  - unfold bus_idle. repeat split.
Defined.

(** ** More transactions *)

Lemma not_ack_code (r : Z * list Z) :
  is_ack r = false -> (send_code (interpret_reply r) =? 0) = false.
Proof. intros H. rewrite code_zero_is_ack. exact H. Qed.

Lemma ack_code (r : Z * list Z) :
  is_ack r = true -> send_code (interpret_reply r) = 0.
Proof. intros H. rewrite (interpret_ack r H). reflexivity. Qed.

Lemma tl_skipn {A} (k : nat) (l : list A) : tl (skipn k l) = skipn (S k) l.
Proof.
  revert l. induction k as [| k IH]; intros l.
  - destruct l; reflexivity.
  - destruct l as [| x l]; [reflexivity |]. cbn [skipn]. rewrite IH. reflexivity.
Qed.

(* a write-only transaction acknowledged throughout *)
Lemma transaction_write_acks (slave_addr nwrite : Z) (wbuf : list Z) (st : state) :
  outputBuffer st = [] ->
  0 < nwrite ->
  acknowledged (S (Z.to_nat nwrite)) (read_replies st) ->
  outcome (i2c_transaction slave_addr 0 nwrite wbuf st) st 0
    (([start_cmds ++ send_cmds (WRITE (uchar slave_addr)); release_cmds] ++
      payload_batches wbuf (indices (Z.to_nat nwrite) 0)) ++ [stop_cmds])
    (skipn (S (Z.to_nat nwrite)) (read_replies st)).
Proof.
  intros Hb Hw Ha. rewrite i2c_transaction_blocks.
  eapply outcome_bind.
  - apply write_block_acks; [exact Hb | lia | exact Ha].
  - intros st1 Hb1 Hr1. cbv beta iota. unfold bind at 1.
    rewrite read_block_skipped.
    rewrite <- (app_nil_r [stop_cmds]). eapply outcome_bind.
    + apply stop_block_stops; [exact Hb1 | lia].
    + intros st2 Hb2 Hr2.
      eapply outcome_eq; [apply outcome_ret; exact Hb2 | reflexivity | reflexivity |].
      rewrite Hr2, Hr1. reflexivity.
Qed.

(* the data loop when the first k bytes are acknowledged and the next is not *)
Lemma data_loop_refused (wbuf : list Z) (k : nat) :
  forall (n : nat) (i : Z) (st : state) (acks tail : list (Z * list Z)),
    (k < n)%nat ->
    outputBuffer st = [] ->
    read_replies st = acks ++ tail ->
    length acks = k ->
    forallb is_ack acks = true ->
    is_ack (match tail with [] => (FT_OK, []) | r :: _ => r end) = false ->
    outcome
      (for_ret_loop n i (fun i =>
         r <- i2c_send_bk (nth (Z.to_nat i) wbuf 0) ;;
         if negb (r =? 0) then
           i2c_stop_bk ;;
           execute ;;
           ret (Some SLAVE_NAK_DATA)
         else ret None) st)
      st (Some SLAVE_NAK_DATA)
      (payload_batches wbuf (indices k i) ++
       [send_cmds (nth (Z.to_nat (i + Z.of_nat k)) wbuf 0); stop_cmds])
      (tl tail).
Proof.
  induction k as [| k IH]; intros n i st acks tail Hk Hb Hr Hl Ha Hn.
  - destruct acks; [| discriminate]. cbn [app] in Hr.
    destruct n as [| n]; [lia |].
    cbn [for_ret_loop indices payload_batches flat_map app].
    rewrite Z.add_0_r.
    assert (Hnext : is_ack (next_reply st) = false)
      by (unfold next_reply; rewrite Hr; exact Hn).
    rewrite <- (app_nil_r [_; _]). eapply outcome_bind.
    + change [send_cmds (nth (Z.to_nat i) wbuf 0); stop_cmds]
        with ([send_cmds (nth (Z.to_nat i) wbuf 0)] ++ [stop_cmds]).
      eapply outcome_bind.
      * eapply outcome_eq; [apply outcome_send; exact Hb | reflexivity | | reflexivity].
        rewrite (not_ack_code _ Hnext). reflexivity.
      * intros st1 Hb1 Hr1. rewrite (not_ack_code _ Hnext). cbn [negb].
        eapply outcome_eq; [apply outcome_stop; exact Hb1 | reflexivity | reflexivity |].
        rewrite Hr1, Hr. reflexivity.
    + intros st1 Hb1 Hr1. cbv beta iota.
      eapply outcome_eq; [apply outcome_ret; exact Hb1 | reflexivity | reflexivity |].
      exact Hr1.
  - destruct acks as [| a acks]; [discriminate |].
    destruct n as [| n]; [lia |].
    cbn [forallb] in Ha. apply andb_true_iff in Ha. destruct Ha as [Ha Has].
    cbn [for_ret_loop indices payload_batches flat_map].
    assert (Hnext : is_ack (next_reply st) = true)
      by (unfold next_reply; rewrite Hr; exact Ha).
    fold (payload_batches wbuf (indices k (i + 1))). rewrite <- app_assoc.
    eapply outcome_bind.
    + rewrite <- (app_nil_r [_; _]). eapply outcome_bind.
      * eapply outcome_eq; [apply outcome_send; exact Hb | reflexivity | | reflexivity].
        rewrite (ack_code _ Hnext). reflexivity.
      * intros st1 Hb1 Hr1. rewrite (ack_code _ Hnext). cbn [Z.eqb negb].
        eapply outcome_eq; [apply outcome_ret; exact Hb1 | reflexivity | reflexivity |].
        exact Hr1.
    + intros st1 Hb1 Hr1. cbv beta iota.
      replace (i + Z.of_nat (S k)) with (i + 1 + Z.of_nat k) by lia.
      apply (IH n (i + 1) st1 acks tail); try assumption; try lia.
      * rewrite Hr1, Hr. reflexivity.
      * cbn in Hl. lia.
Qed.

(* a transaction whose k-th payload byte (from 0) is the first not acknowledged *)
Lemma transaction_data_refused (slave_addr nread nwrite : Z) (wbuf : list Z)
    (k : nat) (st : state) :
  outputBuffer st = [] ->
  (k < Z.to_nat nwrite)%nat ->
  acknowledged (S k) (read_replies st) ->
  is_ack (match skipn (S k) (read_replies st) with
          | [] => (FT_OK, [])
          | r :: _ => r
          end) = false ->
  outcome (i2c_transaction slave_addr nread nwrite wbuf st) st SLAVE_NAK_DATA
    ([start_cmds ++ send_cmds (WRITE (uchar slave_addr)); release_cmds] ++
     payload_batches wbuf (indices k 0) ++
     [send_cmds (nth k wbuf 0); stop_cmds])
    (skipn (S (S k)) (read_replies st)).
Proof.
  intros Hb Hk Ha Hn. rewrite i2c_transaction_blocks.
  destruct (acknowledged_S _ _ Ha) as (r0 & rest & Hr & Hr0 & Hrest).
  destruct (acknowledged_split _ _ Hrest) as (Hs & Hl & Hf).
  rewrite Hr in Hn. cbn [skipn] in Hn.
  rewrite <- (app_nil_r (_ ++ _ ++ _)). eapply outcome_bind.
  - unfold write_block.
    destruct (Z.eqb_spec nwrite 0) as [E | _]; [lia |]. cbn [negb].
    assert (Hcode : send_code (interpret_reply (next_reply st)) = 0)
      by (apply ack_code; unfold next_reply; rewrite Hr; exact Hr0).
    eapply outcome_eq.
    + apply outcome_start_send; [exact Hb |].
      intros st1 Hb1 Hr1. rewrite Hcode. cbn [Z.eqb negb]. unfold for_ret.
      rewrite Z.sub_0_r.
      apply (data_loop_refused wbuf k (Z.to_nat nwrite) 0 st1
               (firstn k rest) (skipn k rest) Hk Hb1);
        [| exact Hl | exact Hf | exact Hn].
      rewrite Hr1, Hr. cbn [tl]. exact Hs.
    + reflexivity.
    + rewrite Hcode. cbn [Z.eqb app]. rewrite Z.add_0_l, Nat2Z.id. reflexivity.
    + reflexivity.
  - intros st1 Hb1 Hr1. cbv beta iota.
    eapply outcome_eq; [apply outcome_ret; exact Hb1 | reflexivity | reflexivity |].
    rewrite Hr1, Hr. cbn [skipn]. apply tl_skipn.
Qed.

(* a read-only transaction whose address byte is not acknowledged *)
Lemma transaction_read_refused (slave_addr nread : Z) (wbuf : list Z) (st : state) :
  outputBuffer st = [] ->
  nread <> 0 ->
  is_ack (next_reply st) = false ->
  outcome (i2c_transaction slave_addr nread 0 wbuf st) st SLAVE_NAK_ADDR
    [start_cmds ++ send_cmds (READ (uchar slave_addr)); stop_cmds]
    (tl (read_replies st)).
Proof.
  intros Hb Hr Ha. rewrite i2c_transaction_blocks.
  unfold bind at 1. rewrite write_block_skipped.
  rewrite <- (app_nil_r [_; _]). eapply outcome_bind.
  - apply read_block_refused; [exact Hb | exact Hr | exact Ha].
  - intros st1 Hb1 Hr1. cbv beta iota.
    eapply outcome_eq; [apply outcome_ret; exact Hb1 | reflexivity | reflexivity |].
    exact Hr1.
Qed.

(* a write-then-read transaction: the write is acknowledged throughout, the
   address byte of the read is not *)
Lemma transaction_write_then_read_refused (slave_addr nread nwrite : Z)
    (wbuf : list Z) (st : state) :
  outputBuffer st = [] ->
  0 < nwrite ->
  nread <> 0 ->
  acknowledged (S (Z.to_nat nwrite)) (read_replies st) ->
  is_ack (match skipn (S (Z.to_nat nwrite)) (read_replies st) with
          | [] => (FT_OK, [])
          | r :: _ => r
          end) = false ->
  outcome (i2c_transaction slave_addr nread nwrite wbuf st) st SLAVE_NAK_ADDR
    (([start_cmds ++ send_cmds (WRITE (uchar slave_addr)); release_cmds] ++
      payload_batches wbuf (indices (Z.to_nat nwrite) 0)) ++
     [start_cmds ++ send_cmds (READ (uchar slave_addr)); stop_cmds])
    (skipn (S (S (Z.to_nat nwrite))) (read_replies st)).
Proof.
  intros Hb Hw Hr Ha Hn. rewrite i2c_transaction_blocks.
  eapply outcome_bind.
  - apply write_block_acks; [exact Hb | lia | exact Ha].
  - intros st1 Hb1 Hr1. cbv beta iota.
    rewrite <- (app_nil_r [_; _]). eapply outcome_bind.
    + apply read_block_refused; [exact Hb1 | exact Hr |].
      unfold next_reply. rewrite Hr1. exact Hn.
    + intros st2 Hb2 Hr2. cbv beta iota.
      eapply outcome_eq; [apply outcome_ret; exact Hb2 | reflexivity | reflexivity |].
      rewrite Hr2, Hr1. apply tl_skipn.
Qed.

(* a read-only transaction with a negative length: the address goes out,
   read_bytes refuses, the stop follows *)
Lemma transaction_read_negative (slave_addr nread : Z) (wbuf : list Z) (st : state) :
  outputBuffer st = [] ->
  nread < 0 ->
  is_ack (next_reply st) = true ->
  outcome (i2c_transaction slave_addr nread 0 wbuf st) st 0
    [start_cmds ++ send_cmds (READ (uchar slave_addr)); release_cmds; stop_cmds]
    (tl (read_replies st)).
Proof.
  intros Hb Hr Ha. rewrite i2c_transaction_blocks.
  unfold bind at 1. rewrite write_block_skipped.
  change [start_cmds ++ send_cmds (READ (uchar slave_addr)); release_cmds; stop_cmds]
    with ([start_cmds ++ send_cmds (READ (uchar slave_addr)); release_cmds] ++
          [stop_cmds]).
  eapply outcome_bind.
  - unfold read_block.
    destruct (Z.eqb_spec nread 0) as [E | _]; [lia |]. cbn [negb].
    eapply outcome_eq.
    + apply outcome_start_send; [exact Hb |].
      intros st1 Hb1 Hr1. rewrite (ack_code _ Ha). cbn [Z.eqb negb].
      unfold bind. rewrite read_bytes_invalid by lia.
      eapply outcome_eq; [apply outcome_ret; exact Hb1 | reflexivity | reflexivity |].
      exact Hr1.
    + reflexivity.
    + rewrite (ack_code _ Ha). reflexivity.
    + reflexivity.
  - intros st2 Hb2 Hr2. cbv beta iota.
    rewrite <- (app_nil_r [stop_cmds]). eapply outcome_bind.
    + apply stop_block_stops; [exact Hb2 | lia].
    + intros st3 Hb3 Hr3.
      eapply outcome_eq; [apply outcome_ret; exact Hb3 | reflexivity | reflexivity |].
      rewrite Hr3, Hr2. reflexivity.
Qed.

(* the payload bytes wbuf[0 .. m-1] as they are sent *)
Lemma payload_bytes_from (m : nat) :
  forall (pre l : list Z),
    (m <= length l)%nat ->
    map (fun i => uchar (nth (Z.to_nat i) (pre ++ l) 0))
        (indices m (Z.of_nat (length pre))) =
    map uchar (firstn m l).
Proof.
  induction m as [| m IH]; intros pre l H; [reflexivity |].
  destruct l as [| x l]; [cbn in H; lia |].
  cbn [indices map firstn]. f_equal.
  - rewrite Nat2Z.id, app_nth2, Nat.sub_diag by lia. reflexivity.
  - replace (pre ++ x :: l) with ((pre ++ [x]) ++ l) by (rewrite <- app_assoc; reflexivity).
    replace (Z.of_nat (length pre) + 1) with (Z.of_nat (length (pre ++ [x])))
      by (rewrite length_app; cbn; lia).
    apply IH. cbn in H. lia.
Qed.

Lemma payload_bytes (m : nat) (wbuf : list Z) :
  (m <= length wbuf)%nat ->
  map (fun i => uchar (nth (Z.to_nat i) wbuf 0)) (indices m 0) =
  map uchar (firstn m wbuf).
Proof. intros H. exact (payload_bytes_from m [] wbuf H). Qed.

Lemma run_payload_low (wbuf : list Z) (ixs : list Z)
    (ns np : nat) (bo bi : list Z) (yi ti : Z) :
  bus_run (mkBus Opcode false true ns np bo bi yi ti)
          (concat (payload_batches wbuf ixs)) =
  mkBus Opcode false true ns np
        (bo ++ map (fun i => uchar (nth (Z.to_nat i) wbuf 0)) ixs) bi yi
        (ti + Z.of_nat (length ixs)).
Proof. rewrite run_payload. destruct ixs; reflexivity. Qed.

(** X4.  A write-only transaction in which the address byte and every
    payload byte is acknowledged returns 0, takes one reply per byte, and
    clocks out the WRITE address byte followed by the payload bytes in their
    order, between one start and one stop condition; nothing is clocked in. *)
Theorem write_only_sends_payload_in_order :
  forall (st : state) (slave_addr : Z) (wbuf : list Z),
    outputBuffer st = [] ->
    wbuf <> [] ->
    acknowledged (S (length wbuf)) (read_replies st) ->
    let r := i2c_transaction slave_addr 0 (Z.of_nat (length wbuf)) wbuf st in
    fst r = 0 /\
    read_replies (snd r) = skipn (S (length wbuf)) (read_replies st) /\
    forall b : bus,
      bus_idle b ->
      let b' := bus_run b (sent_since st (snd r)) in
      bytes_out b' = bytes_out b ++ uchar (WRITE (uchar slave_addr)) :: map uchar wbuf /\
      starts b' = S (starts b) /\
      stops b' = S (stops b) /\
      bytes_in b' = bytes_in b /\
      bus_idle b'.
Proof.
  intros st slave_addr wbuf Hb Hne Ha r.
  assert (Hw : 0 < Z.of_nat (length wbuf)) by (destruct wbuf; [congruence | cbn; lia]).
  pose proof (transaction_write_acks slave_addr _ wbuf st Hb Hw) as Hout.
  rewrite Nat2Z.id in Hout. specialize (Hout Ha). fold r in Hout.
  destruct (outcome_sent _ _ _ _ _ Hout) as [_ Hsent].
  split; [apply Hout |]. split; [apply Hout |].
  intros b Hidle b'. subst b'. rewrite Hsent, (bus_idle_inv b Hidle).
  rewrite !concat_app. cbn [concat]. rewrite app_nil_r, !bus_run_app.
  rewrite run_start, run_send, run_release, run_payload_low, run_stop.
  rewrite payload_bytes, firstn_all by lia.
  cbn [bytes_out starts stops bytes_in]. unfold bus_idle. cbn [expecting scl sda].
  rewrite <- app_assoc. repeat split.
Qed.

Lemma write_only_sends_payload_in_order_witness :
  let st := boot [] [(FT_OK, [0x00]); (FT_OK, [0x00]); (FT_OK, [0x00])] in
  let r := i2c_transaction 0x3C 0 (Z.of_nat (length [0x12; 0x34])) [0x12; 0x34] st in
  fst r = 0 /\
  read_replies (snd r) = skipn (S (length [0x12; 0x34])) (read_replies st) /\
  forall b : bus,
    bus_idle b ->
    let b' := bus_run b (sent_since st (snd r)) in
    bytes_out b' = bytes_out b ++ uchar (WRITE (uchar 0x3C)) :: map uchar [0x12; 0x34] /\
    starts b' = S (starts b) /\
    stops b' = S (stops b) /\
    bytes_in b' = bytes_in b /\
    bus_idle b'.
Proof.
  apply (write_only_sends_payload_in_order
           (boot [] [(FT_OK, [0x00]); (FT_OK, [0x00]); (FT_OK, [0x00])])
           0x3C [0x12; 0x34]).
  - reflexivity.
  - discriminate.
  - split; [vm_compute; lia | reflexivity].
Defined.

(** X5.  When the address byte and the first k payload bytes are
    acknowledged and payload byte k is not (a Nak, a failed read or a read of
    no byte), the transaction returns SLAVE_NAK_DATA whatever the read length:
    the bytes clocked out are the WRITE address byte and payload bytes 0 to k,
    nothing after the refused byte, and one stop condition ends it. *)
Theorem data_refused_ends_the_transaction :
  forall (st : state) (slave_addr nread : Z) (wbuf : list Z) (k : nat),
    outputBuffer st = [] ->
    (k < length wbuf)%nat ->
    acknowledged (S k) (read_replies st) ->
    is_ack (match skipn (S k) (read_replies st) with
            | [] => (FT_OK, [])
            | r :: _ => r
            end) = false ->
    let r := i2c_transaction slave_addr nread (Z.of_nat (length wbuf)) wbuf st in
    fst r = SLAVE_NAK_DATA /\
    read_replies (snd r) = skipn (S (S k)) (read_replies st) /\
    forall b : bus,
      bus_idle b ->
      let b' := bus_run b (sent_since st (snd r)) in
      bytes_out b' =
        bytes_out b ++ uchar (WRITE (uchar slave_addr)) :: map uchar (firstn (S k) wbuf) /\
      starts b' = S (starts b) /\
      stops b' = S (stops b) /\
      bytes_in b' = bytes_in b /\
      bus_idle b'.
Proof.
  intros st slave_addr nread wbuf k Hb Hk Ha Hn r.
  pose proof (transaction_data_refused slave_addr nread (Z.of_nat (length wbuf))
                wbuf k st Hb) as Hout.
  rewrite Nat2Z.id in Hout. specialize (Hout Hk Ha Hn). fold r in Hout.
  destruct (outcome_sent _ _ _ _ _ Hout) as [_ Hsent].
  split; [apply Hout |]. split; [apply Hout |].
  intros b Hidle b'. subst b'. rewrite Hsent, (bus_idle_inv b Hidle).
  rewrite !concat_app. cbn [concat]. rewrite app_nil_r, !bus_run_app.
  rewrite run_start, run_send, run_release, run_payload_low, run_send, run_stop.
  cbn [bytes_out starts stops bytes_in]. unfold bus_idle. cbn [expecting scl sda].
  repeat split.
  rewrite <- !app_assoc. cbn [app]. do 2 f_equal.
  rewrite <- (payload_bytes (S k)) by lia.
  replace (S k) with (k + 1)%nat by lia.
  rewrite indices_app, map_app. cbn [indices map]. rewrite Z.add_0_l, Nat2Z.id.
  reflexivity.
Qed.

Lemma data_refused_ends_the_transaction_witness :
  let st := boot [] [(FT_OK, [0x00]); (FT_OK, [0x00]); (FT_OK, [0x01])] in
  let r := i2c_transaction 0x3C 0 (Z.of_nat (length [0x12; 0x34; 0x56]))
             [0x12; 0x34; 0x56] st in
  fst r = SLAVE_NAK_DATA /\
  read_replies (snd r) = skipn (S (S 1)) (read_replies st) /\
  forall b : bus,
    bus_idle b ->
    let b' := bus_run b (sent_since st (snd r)) in
    bytes_out b' =
      bytes_out b ++ uchar (WRITE (uchar 0x3C)) ::
      map uchar (firstn (S 1) [0x12; 0x34; 0x56]) /\
    starts b' = S (starts b) /\
    stops b' = S (stops b) /\
    bytes_in b' = bytes_in b /\
    bus_idle b'.
Proof.
  apply (data_refused_ends_the_transaction
           (boot [] [(FT_OK, [0x00]); (FT_OK, [0x00]); (FT_OK, [0x01])])
           0x3C 0 [0x12; 0x34; 0x56] 1%nat).
  - reflexivity.
  - vm_compute. lia.
  - split; [vm_compute; lia | reflexivity].
  - reflexivity.
Defined.

(** X6.  When the first address byte of a transaction is not acknowledged,
    be it by a Nak, by a failed read or by a read that brings no byte, the
    transaction returns SLAVE_NAK_ADDR: a transport failure there is reported
    with the code of a Nak.  The driver gets the start condition with the
    address byte (WRITE if there is a payload, READ otherwise) and then the
    stop condition; one reply is taken and nothing is clocked in. *)
Theorem address_not_acknowledged :
  forall (st : state) (slave_addr nread nwrite : Z) (wbuf : list Z),
    outputBuffer st = [] ->
    nread <> 0 \/ nwrite <> 0 ->
    is_ack (next_reply st) = false ->
    let r := i2c_transaction slave_addr nread nwrite wbuf st in
    let address := if nwrite =? 0 then READ (uchar slave_addr)
                   else WRITE (uchar slave_addr) in
    fst r = SLAVE_NAK_ADDR /\
    written (snd r) = written st ++ [start_cmds ++ send_cmds address; stop_cmds] /\
    read_replies (snd r) = tl (read_replies st) /\
    forall b : bus,
      bus_idle b ->
      let b' := bus_run b (sent_since st (snd r)) in
      bytes_out b' = bytes_out b ++ [uchar address] /\
      starts b' = S (starts b) /\
      stops b' = S (stops b) /\
      bytes_in b' = bytes_in b /\
      bus_idle b'.
Proof.
  intros st slave_addr nread nwrite wbuf Hb Hnz Ha r address.
  assert (Hout : outcome r st SLAVE_NAK_ADDR
                   [start_cmds ++ send_cmds address; stop_cmds]
                   (tl (read_replies st))).
  { subst r address. destruct (Z.eqb_spec nwrite 0) as [E | E].
    - subst nwrite. apply transaction_read_refused; [exact Hb | lia | exact Ha].
    - apply transaction_write_refused; [exact Hb | exact E | exact Ha]. }
  destruct (outcome_sent _ _ _ _ _ Hout) as [_ Hsent].
  split; [apply Hout |]. split; [apply Hout |]. split; [apply Hout |].
  intros b Hidle b'. subst b'. rewrite Hsent, (bus_idle_inv b Hidle).
  cbn [concat]. rewrite app_nil_r, !bus_run_app.
  rewrite run_start, run_send, run_stop.
  cbn [bytes_out starts stops bytes_in]. unfold bus_idle. cbn [expecting scl sda].
  repeat split.
Qed.

Lemma address_not_acknowledged_witness :
  let st := boot [] [(FT_IO_ERROR, [])] in
  let r := i2c_transaction 0x3C 4 0 [] st in
  let address := if 0 =? 0 then READ (uchar 0x3C) else WRITE (uchar 0x3C) in
  fst r = SLAVE_NAK_ADDR /\
  written (snd r) = written st ++ [start_cmds ++ send_cmds address; stop_cmds] /\
  read_replies (snd r) = tl (read_replies st) /\
  forall b : bus,
    bus_idle b ->
    let b' := bus_run b (sent_since st (snd r)) in
    bytes_out b' = bytes_out b ++ [uchar address] /\
    starts b' = S (starts b) /\
    stops b' = S (stops b) /\
    bytes_in b' = bytes_in b /\
    bus_idle b'.
Proof.
  apply (address_not_acknowledged (boot [] [(FT_IO_ERROR, [])]) 0x3C 4 0 []).
  - reflexivity.
  - left. discriminate.
  - reflexivity.
Defined.

(** X7.  In a write-then-read transaction the repeated start and the READ
    address byte are sent once the write was acknowledged throughout; if that
    address byte is then not acknowledged the transaction returns
    SLAVE_NAK_ADDR after two start conditions and one stop condition, with
    the whole payload sent and no byte clocked in. *)
Theorem read_address_refused_after_write :
  forall (st : state) (slave_addr nread : Z) (wbuf : list Z),
    outputBuffer st = [] ->
    wbuf <> [] ->
    nread <> 0 ->
    acknowledged (S (length wbuf)) (read_replies st) ->
    is_ack (match skipn (S (length wbuf)) (read_replies st) with
            | [] => (FT_OK, [])
            | r :: _ => r
            end) = false ->
    let r := i2c_transaction slave_addr nread (Z.of_nat (length wbuf)) wbuf st in
    fst r = SLAVE_NAK_ADDR /\
    read_replies (snd r) = skipn (S (S (length wbuf))) (read_replies st) /\
    forall b : bus,
      bus_idle b ->
      let b' := bus_run b (sent_since st (snd r)) in
      bytes_out b' =
        bytes_out b ++ uchar (WRITE (uchar slave_addr)) :: map uchar wbuf ++
        [uchar (READ (uchar slave_addr))] /\
      starts b' = S (S (starts b)) /\
      stops b' = S (stops b) /\
      bytes_in b' = bytes_in b /\
      bus_idle b'.
Proof.
  intros st slave_addr nread wbuf Hb Hne Hr Ha Hn r.
  assert (Hw : 0 < Z.of_nat (length wbuf)) by (destruct wbuf; [congruence | cbn; lia]).
  pose proof (transaction_write_then_read_refused slave_addr nread _ wbuf st Hb Hw Hr)
    as Hout.
  rewrite Nat2Z.id in Hout. specialize (Hout Ha Hn). fold r in Hout.
  destruct (outcome_sent _ _ _ _ _ Hout) as [_ Hsent].
  split; [apply Hout |]. split; [apply Hout |].
  intros b Hidle b'. subst b'. rewrite Hsent, (bus_idle_inv b Hidle).
  rewrite !concat_app. cbn [concat]. rewrite app_nil_r, !bus_run_app.
  rewrite run_start, run_send, run_release, run_payload_low.
  rewrite run_start, run_send, run_stop.
  rewrite payload_bytes, firstn_all by lia.
  cbn [bytes_out starts stops bytes_in]. unfold bus_idle. cbn [expecting scl sda].
  rewrite <- !app_assoc. repeat split.
Qed.

Lemma read_address_refused_after_write_witness :
  let st := boot [] [(FT_OK, [0x00]); (FT_OK, [0x00]); (FT_OK, [0x01])] in
  let r := i2c_transaction 0x3C 4 (Z.of_nat (length [0x00])) [0x00] st in
  fst r = SLAVE_NAK_ADDR /\
  read_replies (snd r) = skipn (S (S (length [0x00]))) (read_replies st) /\
  forall b : bus,
    bus_idle b ->
    let b' := bus_run b (sent_since st (snd r)) in
    bytes_out b' =
      bytes_out b ++ uchar (WRITE (uchar 0x3C)) :: map uchar [0x00] ++
      [uchar (READ (uchar 0x3C))] /\
    starts b' = S (S (starts b)) /\
    stops b' = S (stops b) /\
    bytes_in b' = bytes_in b /\
    bus_idle b'.
Proof.
  apply (read_address_refused_after_write
           (boot [] [(FT_OK, [0x00]); (FT_OK, [0x00]); (FT_OK, [0x01])])
           0x3C 4 [0x00]).
  - reflexivity.
  - discriminate.
  - discriminate.
  - split; [vm_compute; lia | reflexivity].
  - reflexivity.
Defined.

(** X8.  A negative length makes read_bytes return -1 without touching the
    state: nothing is queued, sent or read.  i2c_transaction treats a
    negative read length as a request all the same: it sends the start
    condition and the READ address byte, and once that is acknowledged it
    sends the stop condition and returns 0 with no byte clocked in. *)
Theorem negative_read_length :
  forall (st : state) (slave_addr nread : Z) (wbuf : list Z),
    outputBuffer st = [] ->
    nread < 0 ->
    is_ack (next_reply st) = true ->
    let r := i2c_transaction slave_addr nread 0 wbuf st in
    (forall st' : state, read_bytes nread st' = (-1, st')) /\
    fst r = 0 /\
    written (snd r) =
      written st ++
      [start_cmds ++ send_cmds (READ (uchar slave_addr)); release_cmds; stop_cmds] /\
    read_replies (snd r) = tl (read_replies st) /\
    forall b : bus,
      bus_idle b ->
      let b' := bus_run b (sent_since st (snd r)) in
      bytes_out b' = bytes_out b ++ [uchar (READ (uchar slave_addr))] /\
      starts b' = S (starts b) /\
      stops b' = S (stops b) /\
      bytes_in b' = bytes_in b /\
      bus_idle b'.
Proof.
  intros st slave_addr nread wbuf Hb Hn Ha r.
  pose proof (transaction_read_negative slave_addr nread wbuf st Hb Hn Ha) as Hout.
  fold r in Hout. destruct (outcome_sent _ _ _ _ _ Hout) as [_ Hsent].
  split; [intros st'; apply read_bytes_invalid; lia |].
  split; [apply Hout |]. split; [apply Hout |]. split; [apply Hout |].
  intros b Hidle b'. subst b'. rewrite Hsent, (bus_idle_inv b Hidle).
  cbn [concat]. rewrite app_nil_r, !bus_run_app.
  rewrite run_start, run_send, run_release, run_stop.
  cbn [bytes_out starts stops bytes_in]. unfold bus_idle. cbn [expecting scl sda].
  repeat split.
Qed.

Lemma negative_read_length_witness :
  let st := boot [] [(FT_OK, [0x00])] in
  let r := i2c_transaction 0x3C (-1) 0 [] st in
  (forall st' : state, read_bytes (-1) st' = (-1, st')) /\
  fst r = 0 /\
  written (snd r) =
    written st ++
    [start_cmds ++ send_cmds (READ (uchar 0x3C)); release_cmds; stop_cmds] /\
  read_replies (snd r) = tl (read_replies st) /\
  forall b : bus,
    bus_idle b ->
    let b' := bus_run b (sent_since st (snd r)) in
    bytes_out b' = bytes_out b ++ [uchar (READ (uchar 0x3C))] /\
    starts b' = S (starts b) /\
    stops b' = S (stops b) /\
    bytes_in b' = bytes_in b /\
    bus_idle b'.
Proof.
  apply (negative_read_length (boot [] [(FT_OK, [0x00])]) 0x3C (-1) []).
  - reflexivity.
  - lia.
  - reflexivity.
Defined.

(** ** The bus across a run, whatever the slave answers *)

Lemma drives_ret {A} (a : A) (P : bus -> Prop) (Q : A -> bus -> Prop) :
  (forall b, P b -> Q a b) -> drives (ret a) P Q.
Proof.
  intros H st b Hb HP. exists []. unfold ret. cbn [fst snd concat].
  rewrite app_nil_r, bus_run_nil. auto.
Qed.

Lemma drives_bind {A B} (m : M A) (k : A -> M B)
    (P : bus -> Prop) (Q : A -> bus -> Prop) (R : B -> bus -> Prop) :
  drives m P Q -> (forall a, drives (k a) (Q a) R) -> drives (bind m k) P R.
Proof.
  intros Hm Hk st b Hb HP.
  destruct (Hm st b Hb HP) as (b1 & Hw1 & Ho1 & HQ1).
  unfold bind. destruct (m st) as [a st1]. cbn [fst snd] in *.
  destruct (Hk a st1 _ Ho1 HQ1) as (b2 & Hw2 & Ho2 & HR).
  exists (b1 ++ b2). rewrite Hw2, Hw1, app_assoc, concat_app, bus_run_app. auto.
Qed.

Lemma drives_weaken {A} (m : M A) (P P' : bus -> Prop) (Q Q' : A -> bus -> Prop) :
  drives m P Q ->
  (forall b, P' b -> P b) ->
  (forall a b, Q a b -> Q' a b) ->
  drives m P' Q'.
Proof.
  intros Hm HP HQ st b Hb Hp.
  destruct (Hm st b Hb (HP _ Hp)) as (bs & Hw & Ho & Hq).
  exists bs. auto.
Qed.

Lemma drives_outcome {A} (m : M A) (P : bus -> Prop) (Q : A -> bus -> Prop) :
  (forall st b, outputBuffer st = [] -> P b ->
     exists a batches rest,
       outcome (m st) st a batches rest /\ Q a (bus_run b (concat batches))) ->
  drives m P Q.
Proof.
  intros H st b Hb HP.
  destruct (H st b Hb HP) as (a & bs & rest & (Ha & Ho & _ & Hw) & HQ).
  exists bs. rewrite Ha. auto.
Qed.

Lemma at_low_inv (s p : nat) (b : bus) :
  at_low s p b ->
  b = mkBus Opcode false (sda b) s p (bytes_out b) (bits_out b)
            (bytes_in b) (bits_in b).
Proof.
  intros (He & Hc & Hs & Hp). destruct b as [e sc sd ns np bo bi yi ti].
  cbn [expecting scl sda starts stops bytes_out bits_out bytes_in bits_in] in *.
  subst. reflexivity.
Qed.

Lemma run_start_low (sd : bool) (ns np : nat) (bo bi : list Z) (yi ti : Z) :
  bus_run (mkBus Opcode false sd ns np bo bi yi ti) start_cmds =
  mkBus Opcode false false (S ns) np bo bi yi ti.
Proof.
  unfold start_cmds. rewrite !bus_run_app, !run_hold, !run_set_bits.
  destruct sd; reflexivity.
Qed.

Lemma run_start_any (s p : nat) (b : bus) :
  may_start s p b ->
  bus_run b start_cmds =
  mkBus Opcode false false (S s) p (bytes_out b) (bits_out b)
        (bytes_in b) (bits_in b).
Proof.
  intros (He & Hl & Hs & Hp). destruct b as [e sc sd ns np bo bi yi ti].
  cbn [expecting scl sda starts stops bytes_out bits_out bytes_in bits_in] in *.
  subst. destruct Hl as [-> | ->].
  - apply run_start_low.
  - apply run_start.
Qed.

Lemma drives_send (d : Z) (s p : nat) :
  drives (i2c_send_bk d) (at_low s p)
    (fun r b => at_low s p b /\ (r = 0 \/ r = -1 \/ r = -2)).
Proof.
  apply drives_outcome. intros st b Hb Hlow.
  eexists _, _, _. split; [apply outcome_send; exact Hb |].
  rewrite (at_low_inv s p b Hlow).
  destruct (interpret_reply (next_reply st)); cbn [send_code Z.eqb concat];
    rewrite ?app_nil_r, ?bus_run_app, run_send, ?run_release;
    (split; [repeat split | auto]).
Qed.

Lemma drives_start_send {B} (d : Z) (k : Z -> M B) (s p : nat)
    (R : B -> bus -> Prop) :
  (forall r, r = 0 \/ r = -1 \/ r = -2 -> drives (k r) (at_low (S s) p) R) ->
  drives (i2c_start_bk ;; r <- i2c_send_bk d ;; k r) (may_start s p) R.
Proof.
  intros Hk st b Hb Hm.
  assert (Hcode : forall o, send_code o = 0 \/ send_code o = -1 \/ send_code o = -2)
    by (intros []; cbn; auto).
  assert (Heq : (i2c_start_bk ;; r <- i2c_send_bk d ;; k r) st =
                k (fst (i2c_send_bk d (enqueue start_cmds st)))
                  (snd (i2c_send_bk d (enqueue start_cmds st)))).
  { rewrite bind_start. unfold bind.
    destruct (i2c_send_bk d (enqueue start_cmds st)). reflexivity. }
  rewrite Heq. clear Heq.
  pose proof (start_send_view d st Hb) as (Hf & Ho & _ & Hw). cbv zeta in *.
  destruct (i2c_send_bk d (enqueue start_cmds st)) as [r st1]. cbn [fst snd] in *.
  set (b1 := bus_run b (concat ((start_cmds ++ send_cmds d) ::
                                 (if r =? 0 then [release_cmds] else [])))).
  assert (Hb1 : at_low (S s) p b1).
  { subst b1. cbn [concat]. rewrite !bus_run_app, (run_start_any s p b Hm), run_send.
    destruct (r =? 0); cbn [concat]; rewrite ?app_nil_r, ?run_release, ?bus_run_nil;
      repeat split. }
  assert (Hr : r = 0 \/ r = -1 \/ r = -2) by (rewrite Hf; apply Hcode).
  destruct (Hk r Hr st1 b1 Ho Hb1) as (b2 & Hw2 & Ho2 & HR).
  eexists (_ ++ b2). rewrite Hw2, Hw, app_assoc, concat_app, bus_run_app. auto.
Qed.

Lemma drives_stop {A} (v : A) (s p : nat) :
  drives (i2c_stop_bk ;; execute ;; ret v) (at_low s p)
    (fun r b => r = v /\ at_idle s (S p) b).
Proof.
  apply drives_outcome. intros st b Hb Hlow.
  eexists _, _, _. split; [apply outcome_stop; exact Hb |].
  rewrite (at_low_inv s p b Hlow). cbn [concat]. rewrite app_nil_r, run_stop.
  repeat split.
Qed.

Lemma drives_read_bytes (nbytes : Z) (s p : nat) :
  drives (read_bytes nbytes) (at_low s p) (fun _ b => at_low s p b).
Proof.
  destruct (Z_lt_le_dec 0 nbytes) as [Hn | Hn].
  - apply drives_outcome. intros st b Hb Hlow.
    eexists _, _, _. split; [apply outcome_read_bytes; assumption |].
    rewrite (at_low_inv s p b Hlow). cbn [concat]. rewrite app_nil_r.
    destruct (run_read_cmds nbytes (sda b) s p (bytes_out b) (bits_out b)
                (bytes_in b) (bits_in b)) as (sd' & bi' & yi' & ->).
    repeat split.
  - intros st b Hb Hlow. rewrite read_bytes_invalid by exact Hn.
    exists []. cbn [fst snd concat]. rewrite app_nil_r, bus_run_nil. auto.
Qed.

Lemma drives_for_ret_loop (body : Z -> M (option Z)) (I : bus -> Prop)
    (E : Z -> bus -> Prop) (n : nat) :
  (forall i, drives (body i) I
               (fun r b => match r with None => I b | Some v => E v b end)) ->
  forall i, drives (for_ret_loop n i body) I
              (fun r b => match r with None => I b | Some v => E v b end).
Proof.
  intros Hbody. induction n as [| n IH]; intros i; cbn [for_ret_loop].
  - apply drives_ret. auto.
  - eapply drives_bind; [apply Hbody |].
    intros [v |]; [apply drives_ret; auto | apply IH].
Qed.

Lemma drives_send_or_stop (d : Z) (v : Z) (s p : nat) :
  drives (r <- i2c_send_bk d ;;
          if negb (r =? 0) then i2c_stop_bk ;; execute ;; ret (Some v)
          else ret None)
    (at_low s p)
    (fun r b => match r with
                | None => at_low s p b
                | Some w => w = v /\ at_idle s (S p) b
                end).
Proof.
  eapply drives_bind; [apply drives_send |].
  intros r. cbv beta. destruct (r =? 0); cbn [negb].
  - apply drives_ret. tauto.
  - eapply drives_weaken; [apply (drives_stop (Some v) s p) | tauto |].
    intros a b [-> H]. auto.
Qed.

Lemma at_low_may_start (s p : nat) (b : bus) : at_low s p b -> may_start s p b.
Proof. intros (He & Hc & Hs & Hp). repeat split; auto. Qed.

Lemma at_idle_may_start (s p : nat) (b : bus) : at_idle s p b -> may_start s p b.
Proof. intros ((He & Hc & Hd) & Hs & Hp). repeat split; auto. Qed.

Lemma drives_pure {A} (m : M A) (P : bus -> Prop) (Q : A -> bus -> Prop)
    (fact : Prop) :
  (forall b, P b -> fact) -> (fact -> drives m P Q) -> drives m P Q.
Proof. intros H1 H2 st b Hb HP. exact (H2 (H1 b HP) st b Hb HP). Qed.

Lemma drives_skip {A} (m : M A) (a : A) (P : bus -> Prop) :
  (forall st, m st = (a, st)) -> drives m P (fun r b => r = a /\ P b).
Proof.
  intros H st b Hb HP. exists []. rewrite H. cbn [fst snd concat].
  rewrite app_nil_r, bus_run_nil. auto.
Qed.

Lemma drives_write_block (a nwrite : Z) (wbuf : list Z) (s p : nat) :
  nwrite <> 0 ->
  drives (write_block a nwrite wbuf) (may_start s p) (after_block s p).
Proof.
  intros E. unfold write_block.
  destruct (Z.eqb_spec nwrite 0) as [E' | _]; [contradiction |]. cbn [negb].
  apply drives_start_send. intros r _. destruct (r =? 0); cbn [negb].
  - eapply drives_weaken;
      [apply (drives_for_ret_loop _ (at_low (S s) p)
                (fun v b => v = SLAVE_NAK_DATA /\ at_idle (S s) (S p) b));
       intros i; apply drives_send_or_stop
      | auto |].
    intros [v |] b H; cbn [after_block]; [| exact H].
    destruct H as [-> H]. auto.
  - eapply drives_weaken; [apply (drives_stop (Some SLAVE_NAK_ADDR) (S s) p) | auto |].
    intros r' b [-> H]. cbn [after_block]. auto.
Qed.

Lemma drives_read_block (a nread : Z) (s p : nat) :
  nread <> 0 ->
  drives (read_block a nread) (may_start s p) (after_block s p).
Proof.
  intros E. unfold read_block.
  destruct (Z.eqb_spec nread 0) as [E' | _]; [contradiction |]. cbn [negb].
  apply drives_start_send. intros r _. destruct (r =? 0); cbn [negb].
  - eapply drives_bind; [apply drives_read_bytes |].
    intros r0. apply drives_ret. intros b H. exact H.
  - eapply drives_weaken; [apply (drives_stop (Some SLAVE_NAK_ADDR) (S s) p) | auto |].
    intros r' b [-> H]. cbn [after_block]. auto.
Qed.

Lemma drives_stop_block (nread nwrite : Z) (s p : nat) :
  nread <> 0 \/ nwrite <> 0 ->
  drives (stop_block nread nwrite) (at_low s p) (fun _ b => at_idle s (S p) b).
Proof.
  intros Hnz. unfold stop_block.
  replace (negb (nread =? 0) || negb (nwrite =? 0)) with true
    by (destruct (Z.eqb_spec nread 0), (Z.eqb_spec nwrite 0); cbn; lia).
  eapply drives_weaken; [apply (drives_stop tt s p) | auto |].
  intros r b [_ H]. exact H.
Qed.

(* the tail of i2c_transaction once its last start condition is out *)
Lemma drives_stop_return (nread nwrite : Z) (s p : nat) (r : option Z)
    (Q : Z -> bus -> Prop) :
  nread <> 0 \/ nwrite <> 0 ->
  (forall v b, (v = SLAVE_NAK_ADDR \/ v = SLAVE_NAK_DATA) ->
               at_idle (S s) (S p) b -> Q v b) ->
  (forall b, at_idle (S s) (S p) b -> Q 0 b) ->
  drives (match r with
          | Some v => ret v
          | None => stop_block nread nwrite ;; ret 0
          end)
    (after_block s p r) Q.
Proof.
  intros Hnz Hfail Hdone. destruct r as [v |]; cbn [after_block].
  - apply drives_ret. intros b [Hv H]. auto.
  - eapply drives_bind; [apply drives_stop_block; exact Hnz |].
    intros r0. apply drives_ret. auto.
Qed.

Lemma drives_i2c_transaction (slave_addr nread nwrite : Z) (wbuf : list Z)
    (s p : nat) :
  drives (i2c_transaction slave_addr nread nwrite wbuf) (at_idle s p)
    (after_transaction nread nwrite s p).
Proof.
  rewrite i2c_transaction_blocks. unfold after_transaction.
  destruct (Z.eqb_spec nwrite 0) as [Ew | Ew], (Z.eqb_spec nread 0) as [Er | Er];
    cbn [Nat.max]; try subst nwrite; try subst nread.
  - (* nothing to do *)
    eapply drives_bind; [apply drives_skip, write_block_skipped |].
    intros w. apply drives_pure with (fact := w = None); [tauto |]. intros ->.
    eapply drives_bind; [apply drives_skip, read_block_skipped |].
    intros rd. apply drives_pure with (fact := rd = None); [tauto |]. intros ->.
    eapply drives_bind; [apply drives_skip, stop_block_skipped |].
    intros r0. apply drives_ret. intros b (_ & _ & _ & Hidle & Hs & Hp).
    split; [exact Hidle |]. split; [tauto |]. repeat split; lia.
  - (* read only *)
    eapply drives_bind; [apply drives_skip, write_block_skipped |].
    intros w. apply drives_pure with (fact := w = None); [tauto |]. intros ->.
    eapply drives_bind.
    + eapply drives_weaken; [apply (drives_read_block _ nread s p Er) | | intros r b H; exact H].
      intros b [_ H]. apply at_idle_may_start, H.
    + intros rd. apply drives_stop_return; [tauto | |].
      * intros v b Hv (Hidle & Hs & Hp).
        split; [exact Hidle |]. split; [tauto |]. split; [lia |]. split; [lia |].
        intros ->. destruct Hv; discriminate.
      * intros b (Hidle & Hs & Hp).
        split; [exact Hidle |]. split; [tauto |]. repeat split; lia.
  - (* write only *)
    eapply drives_bind.
    + eapply drives_weaken;
        [apply (drives_write_block _ nwrite wbuf s p Ew) | apply at_idle_may_start
        | intros r b H; exact H].
    + intros [v |]; cbn [after_block].
      * apply drives_ret. intros b (Hv & Hidle & Hs & Hp).
        split; [exact Hidle |]. split; [tauto |]. split; [lia |]. split; [lia |].
        intros ->. destruct Hv; discriminate.
      * eapply drives_bind; [apply drives_skip, read_block_skipped |].
        intros rd. apply drives_pure with (fact := rd = None); [tauto |]. intros ->.
        eapply drives_bind.
        -- eapply drives_weaken;
             [apply (drives_stop_block 0 nwrite (S s) p); tauto | | intros r b H; exact H].
           intros b [_ H]. exact H.
        -- intros r0. apply drives_ret. intros b (Hidle & Hs & Hp).
           split; [exact Hidle |]. split; [tauto |]. repeat split; lia.
  - (* write, then read *)
    eapply drives_bind.
    + eapply drives_weaken;
        [apply (drives_write_block _ nwrite wbuf s p Ew) | apply at_idle_may_start
        | intros r b H; exact H].
    + intros [v |]; cbn [after_block].
      * apply drives_ret. intros b (Hv & Hidle & Hs & Hp).
        split; [exact Hidle |]. split; [tauto |]. split; [lia |]. split; [lia |].
        intros ->. destruct Hv; discriminate.
      * eapply drives_bind.
        -- eapply drives_weaken;
             [apply (drives_read_block _ nread (S s) p Er) | apply at_low_may_start
             | intros r b H; exact H].
        -- intros rd. apply drives_stop_return; [tauto | |].
           ++ intros v b Hv (Hidle & Hs & Hp).
              split; [exact Hidle |]. split; [tauto |]. split; [lia |]. split; [lia |].
              intros ->. destruct Hv; discriminate.
           ++ intros b (Hidle & Hs & Hp).
              split; [exact Hidle |]. split; [tauto |]. repeat split; lia.
Qed.

Lemma run_setup (speed_khz : Z) (ns np : nat) (bo bi : list Z) (yi ti : Z) :
  bus_run (mkBus Opcode true true ns np bo bi yi ti)
          (concat (setup_batches (dwClockDivisor speed_khz))) =
  mkBus Opcode true true ns np bo bi yi ti.
Proof. unfold dwClockDivisor. destruct (speed_khz =? 400); reflexivity. Qed.

Lemma drives_ftdi_configure_i2c (drv : setup_replies) (speed_khz : Z) (s p : nat) :
  drives (ftdi_configure_i2c drv speed_khz) (at_idle s p)
    (fun r b => (r = 0 \/ r = -1) /\ at_idle s p b).
Proof.
  intros st b Hb (Hidle & Hs & Hp).
  destruct (ftdi_configure_i2c_view drv speed_khz st Hb) as (Ho & [[Hr Hw] | [Hr Hw]]).
  - exists (setup_batches (dwClockDivisor speed_khz)).
    rewrite (bus_idle_inv b Hidle), run_setup, Hr.
    repeat split; auto.
  - exists []. rewrite app_nil_r. cbn [concat]. rewrite bus_run_nil, Hr.
    repeat split; auto; apply Hidle.
Qed.

Lemma drives_main_i2c_scan (s p : nat) :
  drives main_i2c_scan (at_idle s p) (fun _ b => at_idle (s + 127) (p + 127) b).
Proof.
  apply drives_outcome. intros st b Hb (Hidle & Hs & Hp).
  eexists _, _, _. split.
  - rewrite main_i2c_scan_eq. apply (scan_loop_outcome 127 0 [] st Hb).
  - rewrite (bus_idle_inv b Hidle), run_scan, length_indices.
    repeat split; cbn [starts stops]; lia.
Qed.

(* the bus as it stands once everything handed to the driver is carried out *)
Lemma drives_wire {A} (m : M A) (P : bus -> Prop) (Q : A -> bus -> Prop)
    (st : state) :
  drives m P Q ->
  outputBuffer st = [] ->
  P (bus_run idle_bus (wire st)) ->
  outputBuffer (snd (m st)) = [] /\
  Q (fst (m st)) (bus_run idle_bus (wire (snd (m st)))).
Proof.
  intros Hm Hb HP. destruct (Hm st _ Hb HP) as (bs & Hw & Ho & HQ).
  destruct (sent_since_batches _ _ _ Hw) as [-> _].
  rewrite bus_run_app. auto.
Qed.

Lemma drives_sent {A} (m : M A) (P : bus -> Prop) (Q : A -> bus -> Prop)
    (st : state) (b : bus) :
  drives m P Q ->
  outputBuffer st = [] ->
  P b ->
  outputBuffer (snd (m st)) = [] /\
  Q (fst (m st)) (bus_run b (sent_since st (snd (m st)))).
Proof.
  intros Hm Hb HP. destruct (Hm st _ Hb HP) as (bs & Hw & Ho & HQ).
  destruct (sent_since_batches _ _ _ Hw) as [_ ->]. auto.
Qed.

(** X9.  Whatever replies its reads get (acknowledges, Naks, failed or empty
    reads, in any order), as long as the driver accepts every write, a
    transaction that has something to read (no more than inputBuffer holds)
    or to write, begun with an empty command buffer on an idle bus, returns
    0, SLAVE_NAK_ADDR or SLAVE_NAK_DATA, and by then has put exactly one stop
    condition on the bus, after one or two start conditions, and left the bus
    idle and the command buffer empty.  When it returns 0 there was one start
    condition for each of the write phase and the read phase requested. *)
Theorem transaction_ends_with_one_stop :
  forall (st : state) (slave_addr nread nwrite : Z) (wbuf : list Z) (b : bus),
    outputBuffer st = [] ->
    writes_accepted st ->
    nread <= sizeof_inputBuffer ->
    bus_idle b ->
    nread <> 0 \/ nwrite <> 0 ->
    let r := i2c_transaction slave_addr nread nwrite wbuf st in
    let b' := bus_run b (sent_since st (snd r)) in
    (fst r = 0 \/ fst r = SLAVE_NAK_ADDR \/ fst r = SLAVE_NAK_DATA) /\
    outputBuffer (snd r) = [] /\
    bus_idle b' /\
    stops b' = S (stops b) /\
    (S (starts b) <= starts b' <= S (S (starts b)))%nat /\
    (fst r = 0 ->
     starts b' = (starts b + (if (nwrite =? 0)%Z then 0 else 1) +
                  (if (nread =? 0)%Z then 0 else 1))%nat).
Proof.
  intros st slave_addr nread nwrite wbuf b Hb Hwrites Hfits Hidle Hnz r b'.
  destruct (drives_sent _ _ _ st b
              (drives_i2c_transaction slave_addr nread nwrite wbuf
                 (starts b) (stops b)) Hb)
    as (Ho & Hi & Hr & Hp & Hs & Hz).
  { repeat split; apply Hidle. }
  fold r in Ho, Hi, Hr, Hp, Hs, Hz. fold b' in Hi, Hp, Hs, Hz.
  split; [exact Hr |]. split; [exact Ho |]. split; [exact Hi |].
  destruct (Z.eqb_spec nwrite 0), (Z.eqb_spec nread 0); cbn [Nat.max] in *;
    try lia; (split; [lia |]); (split; [lia |]); exact Hz.
Qed.

Lemma transaction_ends_with_one_stop_witness :
  let st := boot [] [(FT_OK, [0x00]); (FT_IO_ERROR, [])] in
  let r := i2c_transaction 0x3C 2 1 [0xA5] st in
  let b' := bus_run idle_bus (sent_since st (snd r)) in
  (fst r = 0 \/ fst r = SLAVE_NAK_ADDR \/ fst r = SLAVE_NAK_DATA) /\
  outputBuffer (snd r) = [] /\
  bus_idle b' /\
  stops b' = S (stops idle_bus) /\
  (S (starts idle_bus) <= starts b' <= S (S (starts idle_bus)))%nat /\
  (fst r = 0 ->
   starts b' = (starts idle_bus + (if (1 =? 0)%Z then 0 else 1) +
                (if (2 =? 0)%Z then 0 else 1))%nat).
Proof.
  apply (transaction_ends_with_one_stop
           (boot [] [(FT_OK, [0x00]); (FT_IO_ERROR, [])]) 0x3C 2 1 [0xA5] idle_bus).
  - reflexivity.
  - apply Forall_nil.
  - unfold sizeof_inputBuffer. lia.
  - repeat split.
  - left. discriminate.
Defined.

(** X10.  Between any two calls of ftdi_configure_i2c, the bus scan and
    i2c_transaction, in whatever order and with whatever arguments and
    replies to the reads, provided the driver accepts every write and no read
    (the purge of the receive queue in ftdi_configure_i2c included) asks for
    more than the 1024 bytes of inputBuffer: the command buffer is empty, the
    commands handed to the driver so far leave the bus idle, and the bus has
    seen no more stop conditions than start conditions. *)
Theorem bus_idle_between_calls :
  forall st : state,
    between_calls st ->
    outputBuffer st = [] /\
    bus_idle (bus_run idle_bus (wire st)) /\
    (stops (bus_run idle_bus (wire st)) <= starts (bus_run idle_bus (wire st)))%nat.
Proof.
  intros st H.
  induction H as [wr rd _ | drv k st _ _ IH | st _ IH | a nr nw wbuf st _ _ IH].
  - split; [reflexivity |]. split; [repeat split | cbn; lia].
  - destruct IH as (Hb & Hidle & Hle). set (B := bus_run idle_bus (wire st)) in *.
    destruct (drives_wire _ _ _ st
                (drives_ftdi_configure_i2c drv k (starts B) (stops B)) Hb)
      as (Ho & _ & Hi & Hs & Hp).
    { repeat split; apply Hidle. }
    split; [exact Ho |]. split; [exact Hi | lia].
  - destruct IH as (Hb & Hidle & Hle). set (B := bus_run idle_bus (wire st)) in *.
    destruct (drives_wire _ _ _ st (drives_main_i2c_scan (starts B) (stops B)) Hb)
      as (Ho & Hi & Hs & Hp).
    { repeat split; apply Hidle. }
    split; [exact Ho |]. split; [exact Hi | lia].
  - destruct IH as (Hb & Hidle & Hle). set (B := bus_run idle_bus (wire st)) in *.
    destruct (drives_wire _ _ _ st
                (drives_i2c_transaction a nr nw wbuf (starts B) (stops B)) Hb)
      as (Ho & Hi & _ & Hp & Hs & _).
    { repeat split; apply Hidle. }
    split; [exact Ho |]. split; [exact Hi |].
    destruct (nw =? 0), (nr =? 0); cbn [Nat.max] in *; lia.
Qed.

Lemma bus_idle_between_calls_witness :
  let st := snd (i2c_transaction 0x3C 0 2 [0x12; 0x34]
                   (snd (ftdi_configure_i2c setup_all_ok 100
                           (boot [] [(FT_OK, [0x00]); (FT_OK, [0x01])])))) in
  outputBuffer st = [] /\
  bus_idle (bus_run idle_bus (wire st)) /\
  (stops (bus_run idle_bus (wire st)) <= starts (bus_run idle_bus (wire st)))%nat.
Proof.
  apply (bus_idle_between_calls
           (snd (i2c_transaction 0x3C 0 2 [0x12; 0x34]
                   (snd (ftdi_configure_i2c setup_all_ok 100
                           (boot [] [(FT_OK, [0x00]); (FT_OK, [0x01])])))))).
  apply calls_transaction; [unfold sizeof_inputBuffer; lia |].
  apply calls_configure; [unfold sizeof_inputBuffer; cbn; lia |].
  apply calls_boot, Forall_nil.
Defined.

(** ** Configuration and the exit status *)

Lemma ftStatus_set_ftStatus (s : Z) (st : state) : ftStatus (set_ftStatus s st) = s.
Proof. reflexivity. Qed.

Lemma ftStatus_FT_Read (n : Z) (st : state) :
  ftStatus (snd (FT_Read n st)) = ftStatus st.
Proof. unfold FT_Read. destruct (read_replies st) as [| [s bytes] rest]; reflexivity. Qed.

Lemma ftStatus_setup_calls (drv : setup_replies) (st : state) :
  ftStatus (setup_calls drv st) =
  Z.lor (Z.lor (Z.lor (Z.lor (Z.lor (Z.lor (Z.lor
    (reset_status drv) (queue_status drv)) (usb_status drv)) (chars_status drv))
    (timeouts_status drv)) (latency_status drv)) (bitmode_reset_status drv))
    (bitmode_mpsse_status drv).
Proof.
  unfold setup_calls. cbv zeta. rewrite !ftStatus_set_ftStatus.
  match goal with
  | |- context [ftStatus (if ?c then _ else _)] => destruct c
  end; rewrite ?ftStatus_FT_Read, !ftStatus_set_ftStatus; reflexivity.
Qed.

Lemma setup_calls_ok (drv : setup_replies) (st : state) :
  open_status drv = FT_OK ->
  (ftStatus (setup_calls drv st) = FT_OK <-> setup_ok drv).
Proof.
  intros Hopen. rewrite ftStatus_setup_calls. unfold setup_ok, FT_OK.
  rewrite !Z.lor_eq_0_iff. tauto.
Qed.

Lemma ftdi_configure_i2c_result (drv : setup_replies) (speed_khz : Z) (st : state) :
  outputBuffer st = [] ->
  (setup_ok drv /\ fst (ftdi_configure_i2c drv speed_khz st) = 0) \/
  (~ setup_ok drv /\ fst (ftdi_configure_i2c drv speed_khz st) = -1 /\
   ftStatus (snd (ftdi_configure_i2c drv speed_khz st)) <> FT_OK).
Proof.
  intros Hb. rewrite ftdi_configure_i2c_parts. cbv zeta.
  rewrite ftStatus_set_ftStatus.
  destruct (Z.eqb_spec (open_status drv) FT_OK) as [Hopen | Hopen]; cbn [negb].
  - pose proof (setup_calls_ok drv (set_ftStatus (open_status drv) st) Hopen) as Hiff.
    destruct (Z.eqb_spec (ftStatus (setup_calls drv (set_ftStatus (open_status drv) st)))
                FT_OK) as [Hs | Hs]; cbn [negb].
    + left. split; [apply Hiff, Hs |].
      apply setup_commands_outcome.
      destruct (setup_calls_view drv (set_ftStatus (open_status drv) st)) as [-> _].
      rewrite outputBuffer_set_ftStatus. exact Hb.
    + right. cbn [fst snd]. split; [rewrite <- Hiff; exact Hs |]. split; [reflexivity | exact Hs].
  - right. cbn [fst snd]. rewrite ftStatus_set_ftStatus.
    split; [intros (H & _); contradiction |]. split; [reflexivity | exact Hopen].
Qed.

(** X11.  When the receive queue to purge holds no more than the 1024 bytes
    of inputBuffer and the driver accepts every write, ftdi_configure_i2c
    returns 0 exactly when every set-up call of the driver answers FT_OK, and
    -1 otherwise.  On success it hands the driver its four command buffers;
    on failure it hands the driver nothing and the status it leaves in
    ftStatus is not FT_OK.  Either way the command buffer is empty afterwards
    and a bus that was idle stays idle. *)
Theorem configure_succeeds_iff_setup_ok :
  forall (drv : setup_replies) (speed_khz : Z) (st : state),
    outputBuffer st = [] ->
    writes_accepted st ->
    queue_size drv <= sizeof_inputBuffer ->
    let r := ftdi_configure_i2c drv speed_khz st in
    (fst r = 0 <-> setup_ok drv) /\
    (fst r = 0 \/ fst r = -1) /\
    (fst r = 0 ->
     written (snd r) = written st ++ setup_batches (dwClockDivisor speed_khz)) /\
    (fst r = -1 -> written (snd r) = written st /\ ftStatus (snd r) <> FT_OK) /\
    outputBuffer (snd r) = [] /\
    forall b : bus, bus_idle b -> bus_run b (sent_since st (snd r)) = b.
Proof.
  intros drv speed_khz st Hb Hwrites Hqueue r.
  pose proof (ftdi_configure_i2c_result drv speed_khz st Hb) as Hres.
  pose proof (ftdi_configure_i2c_view drv speed_khz st Hb) as (Ho & Hview).
  fold r in Hres, Ho, Hview.
  split; [| split; [| split; [| split; [| split]]]].
  - destruct Hres as [[Hok ->] | (Hno & -> & _)]; split; auto; try discriminate.
    intros Hok. contradiction.
  - destruct Hres as [[_ ->] | (_ & -> & _)]; auto.
  - intros H0. destruct Hview as [[_ Hw] | [H1 _]]; [exact Hw | congruence].
  - intros H1. destruct Hview as [[H0 _] | [_ Hw]]; [congruence |].
    split; [exact Hw |]. destruct Hres as [[_ H0] | (_ & _ & Hs)]; [congruence | exact Hs].
  - exact Ho.
  - intros b Hidle.
    destruct Hview as [[_ Hw] | [_ Hw]].
    + destruct (sent_since_batches _ _ _ Hw) as [_ ->].
      rewrite (bus_idle_inv b Hidle) at 1. rewrite run_setup.
      symmetry. apply bus_idle_inv, Hidle.
    + rewrite <- (app_nil_r (written st)) in Hw.
      destruct (sent_since_batches _ _ _ Hw) as [_ ->]. apply bus_run_nil.
Qed.

Lemma configure_succeeds_iff_setup_ok_witness :
  let st := boot [] [] in
  let r := ftdi_configure_i2c (mkSetup FT_OK FT_OK FT_OK 0 FT_OK FT_OK 4 FT_OK FT_OK FT_OK)
             400 st in
  (fst r = 0 <->
   setup_ok (mkSetup FT_OK FT_OK FT_OK 0 FT_OK FT_OK 4 FT_OK FT_OK FT_OK)) /\
  (fst r = 0 \/ fst r = -1) /\
  (fst r = 0 ->
   written (snd r) = written st ++ setup_batches (dwClockDivisor 400)) /\
  (fst r = -1 -> written (snd r) = written st /\ ftStatus (snd r) <> FT_OK) /\
  outputBuffer (snd r) = [] /\
  forall b : bus, bus_idle b -> bus_run b (sent_since st (snd r)) = b.
Proof.
  apply (configure_succeeds_iff_setup_ok
           (mkSetup FT_OK FT_OK FT_OK 0 FT_OK FT_OK 4 FT_OK FT_OK FT_OK) 400 (boot [] [])).
  - reflexivity.
  - apply Forall_nil.
  - unfold sizeof_inputBuffer. cbn. lia.
Defined.

Lemma main_bus_unfold (drv : setup_replies) (speed_khz : Z) (i2c_scan : bool)
    (slave_addr nread nwrite : Z) (wbuf : list Z) (st : state) :
  main_bus drv speed_khz i2c_scan slave_addr nread nwrite wbuf st =
  let c := ftdi_configure_i2c drv speed_khz st in
  if negb (fst c =? 0) then ((1, []), snd c)
  else
    let a := (if i2c_scan then main_i2c_scan else ret []) (snd c) in
    ((0, fst a), snd (i2c_transaction slave_addr nread nwrite wbuf (snd a))).
Proof.
  unfold main_bus, bind. cbv zeta.
  destruct (ftdi_configure_i2c drv speed_khz st) as [c st1]. cbn [fst snd].
  destruct (negb (c =? 0)); [reflexivity |].
  destruct ((if i2c_scan then main_i2c_scan else ret []) st1) as [acked st2].
  cbn [fst snd].
  destruct (i2c_transaction slave_addr nread nwrite wbuf st2) as [t st3].
  reflexivity.
Qed.

Lemma main_bus_status (drv : setup_replies) (speed_khz : Z) (i2c_scan : bool)
    (slave_addr nread nwrite : Z) (wbuf : list Z) (st : state) :
  let c := ftdi_configure_i2c drv speed_khz st in
  let r := main_bus drv speed_khz i2c_scan slave_addr nread nwrite wbuf st in
  (fst c <> 0 -> r = ((1, []), snd c)) /\
  (fst c = 0 -> fst (fst r) = 0).
Proof.
  cbv zeta. rewrite main_bus_unfold. cbv zeta.
  destruct (Z.eqb_spec (fst (ftdi_configure_i2c drv speed_khz st)) 0) as [E | E];
    cbn [negb].
  - split; [intros H; contradiction | reflexivity].
  - split; [reflexivity | intros H; contradiction].
Qed.

Lemma drives_main_bus (drv : setup_replies) (speed_khz : Z) (i2c_scan : bool)
    (slave_addr nread nwrite : Z) (wbuf : list Z) (s p : nat) :
  drives (main_bus drv speed_khz i2c_scan slave_addr nread nwrite wbuf)
    (at_idle s p) (fun _ b => bus_idle b).
Proof.
  unfold main_bus.
  eapply drives_bind; [apply drives_ftdi_configure_i2c |].
  intros c. destruct (c =? 0); cbn [negb].
  - eapply drives_bind with
      (Q := fun _ b => at_idle (if i2c_scan then s + 127 else s)
                               (if i2c_scan then p + 127 else p) b).
    + destruct i2c_scan.
      * eapply drives_weaken; [apply (drives_main_i2c_scan s p) | tauto | auto].
      * apply drives_ret. tauto.
    + intros acked. eapply drives_bind; [apply drives_i2c_transaction |].
      intros t. apply drives_ret. intros b H. apply H.
  - apply drives_ret. intros b [_ [H _]]. exact H.
Qed.

(* [main] from the call of ftdi_configure_i2c on *)
Lemma main_bus_outcome (drv : setup_replies) (speed_khz : Z) (i2c_scan : bool)
    (slave_addr nread nwrite : Z) (wbuf : list Z) (st : state) :
  outputBuffer st = [] ->
  let r := main_bus drv speed_khz i2c_scan slave_addr nread nwrite wbuf st in
  (setup_ok drv -> fst (fst r) = 0) /\
  (~ setup_ok drv ->
   fst r = (1, []) /\ written (snd r) = written st) /\
  outputBuffer (snd r) = [] /\
  forall b : bus, bus_idle b -> bus_idle (bus_run b (sent_since st (snd r))).
Proof.
  intros Hb r.
  pose proof (main_bus_status drv speed_khz i2c_scan slave_addr nread nwrite wbuf st)
    as [Hfail Hdone].
  cbv zeta in Hfail, Hdone. fold r in Hfail, Hdone.
  pose proof (ftdi_configure_i2c_result drv speed_khz st Hb) as Hres.
  pose proof (ftdi_configure_i2c_view drv speed_khz st Hb) as (_ & Hview).
  cbv zeta in Hview.
  split; [| split; [| split]].
  - intros Hok. apply Hdone. destruct Hres as [[_ H] | [H _]]; [exact H | contradiction].
  - intros Hno. destruct Hres as [[H _] | (_ & Hc & _)]; [contradiction |].
    rewrite Hfail by (rewrite Hc; discriminate). cbn [fst snd].
    split; [reflexivity |].
    destruct Hview as [[H0 _] | [_ Hw]]; [congruence | exact Hw].
  - apply (drives_sent _ _ _ st idle_bus
             (drives_main_bus drv speed_khz i2c_scan slave_addr nread nwrite wbuf 0 0) Hb).
    repeat split.
  - intros b Hidle.
    apply (drives_sent _ _ _ st b
             (drives_main_bus drv speed_khz i2c_scan slave_addr nread nwrite wbuf
                (starts b) (stops b)) Hb).
    repeat split; apply Hidle.
Qed.

(** ** The status of FT_Write *)

Lemma same_set_ftStatus (s s' : Z) (st st' : state) :
  same_but_writes st st' ->
  same_but_writes (set_ftStatus s st) (set_ftStatus s' st').
Proof. intros H. exact H. Qed.

Lemma same_enqueue (ds : list Z) (st st' : state) :
  same_but_writes st st' -> same_but_writes (enqueue ds st) (enqueue ds st').
Proof.
  intros (Ho & Hi & Hr & Hw & Hp). unfold enqueue, same_but_writes. fields.
  rewrite Ho. auto.
Qed.

Lemma blind_ret {A} (a : A) : blind_to_writes (ret a).
Proof. intros st st' H. split; [reflexivity | exact H]. Qed.

Lemma blind_bind {A B} (m : M A) (k : A -> M B) :
  blind_to_writes m -> (forall a, blind_to_writes (k a)) ->
  blind_to_writes (bind m k).
Proof.
  intros Hm Hk st st' H. destruct (Hm st st' H) as [Hf Hs]. unfold bind.
  destruct (m st) as [a st1], (m st') as [a' st1']. cbn [fst snd] in *. subst a'.
  apply Hk, Hs.
Qed.

Lemma blind_after {A B} (m : M A) (k : M B) :
  alike_after m -> blind_to_writes k -> blind_to_writes (m ;; k).
Proof.
  intros Hm Hk st st' H. pose proof (Hm st st' H) as Hs. unfold bind.
  destruct (m st) as [a st1], (m st') as [a' st1']. cbn [fst snd] in *.
  apply Hk, Hs.
Qed.

Lemma blind_alike {A} (m : M A) : blind_to_writes m -> alike_after m.
Proof. intros Hm st st' H. apply Hm, H. Qed.

Lemma blind_append (d : Z) : blind_to_writes (append d).
Proof.
  intros st st' H. rewrite !append_enqueue. cbn [fst snd].
  split; [| apply same_enqueue, H].
  unfold outputSize. destruct H as (-> & _). reflexivity.
Qed.

Lemma alike_execute : alike_after execute.
Proof.
  intros st st' H. pose proof H as (Ho & Hi & Hr & Hw & Hp).
  unfold execute, outputSize. rewrite Ho.
  destruct (Z.of_nat (length (outputBuffer st')) =? 0); [exact H |].
  unfold FT_Write, same_but_writes. fields.
  cbn [snd outputBuffer inputBuffer inputRead written read_replies].
  rewrite Hw. repeat split; auto.
Qed.

Lemma blind_FT_Read (n : Z) : blind_to_writes (FT_Read n).
Proof.
  intros st st' (Ho & Hi & Hr & Hw & Hp). unfold FT_Read. rewrite Hp.
  destruct (read_replies st') as [| [s bytes] rest]; unfold same_but_writes;
    cbn [fst snd outputBuffer inputBuffer inputRead written read_replies];
    rewrite ?Hi; repeat split; auto.
Qed.

Lemma blind_set_bits (d : Z) : blind_to_writes (set_bits d).
Proof.
  unfold set_bits.
  repeat (apply blind_bind; [apply blind_append | intros _]). apply blind_ret.
Qed.

Lemma blind_for_loop (body : Z -> M unit) (n : nat) :
  (forall i, blind_to_writes (body i)) ->
  forall i, blind_to_writes (for_loop n i body).
Proof.
  intros Hbody. induction n as [| n IH]; intros i; cbn [for_loop].
  - apply blind_ret.
  - apply blind_bind; [apply Hbody | intros _; apply IH].
Qed.

Lemma blind_for_ret_loop (body : Z -> M (option Z)) (n : nat) :
  (forall i, blind_to_writes (body i)) ->
  forall i, blind_to_writes (for_ret_loop n i body).
Proof.
  intros Hbody. induction n as [| n IH]; intros i; cbn [for_ret_loop].
  - apply blind_ret.
  - apply blind_bind; [apply Hbody |]. intros [v |]; [apply blind_ret | apply IH].
Qed.

Lemma blind_i2c_start_bk : blind_to_writes i2c_start_bk.
Proof.
  unfold i2c_start_bk, for_.
  repeat (apply blind_bind; [apply blind_for_loop; intros; apply blind_set_bits | intros _]).
  apply blind_for_loop; intros; apply blind_set_bits.
Qed.

Lemma blind_i2c_stop_bk : blind_to_writes i2c_stop_bk.
Proof.
  unfold i2c_stop_bk, for_.
  repeat (apply blind_bind; [apply blind_for_loop; intros; apply blind_set_bits | intros _]).
  apply blind_for_loop; intros; apply blind_set_bits.
Qed.

Lemma blind_stop_execute {A} (v : A) :
  blind_to_writes (i2c_stop_bk ;; execute ;; ret v).
Proof.
  apply blind_bind; [apply blind_i2c_stop_bk | intros _].
  apply blind_after; [apply alike_execute | apply blind_ret].
Qed.

Lemma blind_i2c_send_bk (d : Z) : blind_to_writes (i2c_send_bk d).
Proof.
  unfold i2c_send_bk. cbv zeta.
  repeat (apply blind_bind; [apply blind_append || apply blind_set_bits | intros _]).
  apply blind_after; [apply alike_execute |].
  apply blind_bind; [apply blind_FT_Read |]. intros s st st' H.
  cbv zeta. rewrite !ftStatus_set_ftStatus.
  pose proof (same_set_ftStatus s s st st' H) as Hs.
  pose proof Hs as (_ & Hi & Hr & _).
  rewrite Hi, Hr.
  destruct (negb (s =? FT_OK) || (inputRead (set_ftStatus s st') =? 0)).
  { split; [reflexivity | exact Hs]. }
  destruct (negb (Z.land (nth 0 (inputBuffer (set_ftStatus s st')) 0) 1 =? 0)).
  { split; [reflexivity | exact Hs]. }
  revert Hs. generalize (set_ftStatus s st), (set_ftStatus s st'). clear.
  intros st st' H. revert st st' H.
  change (blind_to_writes (set_bits SDA_OUT ;; execute ;; ret 0)).
  apply blind_bind; [apply blind_set_bits | intros _].
  apply blind_after; [apply alike_execute | apply blind_ret].
Qed.

Lemma blind_read_bytes (nbytes : Z) : blind_to_writes (read_bytes nbytes).
Proof.
  unfold read_bytes. destruct (nbytes <=? 0); [apply blind_ret |].
  apply blind_bind.
  { unfold for_. apply blind_for_loop. intros i.
    repeat (apply blind_bind; [apply blind_append | intros _]).
    apply blind_bind; [destruct (i =? nbytes - 1); apply blind_append | intros _].
    apply blind_ret. }
  intros _. apply blind_bind; [apply blind_append | intros _].
  apply blind_after; [apply alike_execute |].
  apply blind_bind; [apply blind_FT_Read |]. intros s.
  apply blind_bind; [| intros _; apply blind_ret].
  intros st st' H. split; [reflexivity | exact H].
Qed.

Lemma blind_i2c_transaction (slave_addr nread nwrite : Z) (wbuf : list Z) :
  blind_to_writes (i2c_transaction slave_addr nread nwrite wbuf).
Proof.
  rewrite i2c_transaction_blocks.
  assert (Hsend : forall d (k : Z -> M (option Z)),
             (forall r, blind_to_writes (k r)) ->
             blind_to_writes (i2c_start_bk ;; r <- i2c_send_bk d ;; k r)).
  { intros d k Hk. apply blind_bind; [apply blind_i2c_start_bk | intros _].
    apply blind_bind; [apply blind_i2c_send_bk | exact Hk]. }
  apply blind_bind.
  { unfold write_block. destruct (negb (nwrite =? 0)); [| apply blind_ret].
    apply Hsend. intros r. destruct (negb (r =? 0)); [apply blind_stop_execute |].
    unfold for_ret. apply blind_for_ret_loop. intros i.
    apply blind_bind; [apply blind_i2c_send_bk |]. intros r'.
    destruct (negb (r' =? 0)); [apply blind_stop_execute | apply blind_ret]. }
  intros [v |]; [apply blind_ret |].
  apply blind_bind.
  { unfold read_block. destruct (negb (nread =? 0)); [| apply blind_ret].
    apply Hsend. intros r. destruct (negb (r =? 0)); [apply blind_stop_execute |].
    apply blind_bind; [apply blind_read_bytes | intros _; apply blind_ret]. }
  intros [v |]; [apply blind_ret |].
  apply blind_bind; [| intros _; apply blind_ret].
  unfold stop_block. destruct (negb (nread =? 0) || negb (nwrite =? 0));
    [apply blind_stop_execute | apply blind_ret].
Qed.

Lemma blind_i2c_scan_loop (n : nat) :
  forall (i : Z) (acked : list Z), blind_to_writes (i2c_scan_loop n i acked).
Proof.
  induction n as [| n IH]; intros i acked; cbn [i2c_scan_loop].
  - apply blind_ret.
  - apply blind_bind; [apply blind_i2c_start_bk | intros _].
    apply blind_bind; [apply blind_i2c_send_bk | intros r].
    apply blind_bind; [apply blind_i2c_stop_bk | intros _].
    apply blind_after; [apply alike_execute | apply IH].
Qed.

Lemma same_setup_calls (drv : setup_replies) (st st' : state) :
  same_but_writes st st' ->
  same_but_writes (setup_calls drv st) (setup_calls drv st').
Proof.
  intros H. unfold setup_calls. cbv zeta.
  repeat apply same_set_ftStatus. rewrite !ftStatus_set_ftStatus.
  destruct ((Z.lor (reset_status drv) (queue_status drv) =? FT_OK) &&
            (queue_size drv >? 0)).
  - apply blind_FT_Read. repeat apply same_set_ftStatus. exact H.
  - repeat apply same_set_ftStatus. exact H.
Qed.

Lemma blind_setup_commands (d : Z) : blind_to_writes (setup_commands d).
Proof.
  unfold setup_commands.
  repeat (first [ apply blind_bind; [apply blind_append | intros _]
                | apply blind_after; [apply alike_execute |] ]).
  apply blind_ret.
Qed.

Lemma blind_ftdi_configure_i2c (drv : setup_replies) (speed_khz : Z) :
  blind_to_writes (ftdi_configure_i2c drv speed_khz).
Proof.
  intros st st' H. rewrite !ftdi_configure_i2c_parts. cbv zeta.
  rewrite !ftStatus_set_ftStatus.
  destruct (negb (open_status drv =? FT_OK)).
  { split; [reflexivity | apply same_set_ftStatus, H]. }
  rewrite !ftStatus_setup_calls.
  match goal with |- context [if ?c then _ else _] => destruct c end.
  { split; [reflexivity | apply same_setup_calls, same_set_ftStatus, H]. }
  apply blind_setup_commands, same_setup_calls, same_set_ftStatus, H.
Qed.

Lemma blind_main_bus (drv : setup_replies) (speed_khz : Z) (i2c_scan : bool)
    (slave_addr nread nwrite : Z) (wbuf : list Z) :
  blind_to_writes (main_bus drv speed_khz i2c_scan slave_addr nread nwrite wbuf).
Proof.
  unfold main_bus.
  apply blind_bind; [apply blind_ftdi_configure_i2c | intros c].
  destruct (negb (c =? 0)); [apply blind_ret |].
  apply blind_bind.
  { destruct i2c_scan; [apply blind_i2c_scan_loop | apply blind_ret]. }
  intros acked. apply blind_bind; [apply blind_i2c_transaction | intros _].
  apply blind_ret.
Qed.

(** X13.  The status FT_Write returns is never looked at.  Started from two
    states that differ only in what the driver will answer to the writes to
    come (and in the status last recorded), i2c_transaction returns the same
    value, and so does the whole run of main from the configuration on; in
    both cases the same buffers are handed to the driver, the same replies
    are consumed and the same data is left in inputBuffer. *)
Theorem write_status_never_consulted :
  forall (st st' : state) (drv : setup_replies) (speed_khz : Z) (i2c_scan : bool)
         (slave_addr nread nwrite : Z) (wbuf : list Z),
    same_but_writes st st' ->
    let t := i2c_transaction slave_addr nread nwrite wbuf in
    let m := main_bus drv speed_khz i2c_scan slave_addr nread nwrite wbuf in
    fst (t st) = fst (t st') /\
    same_but_writes (snd (t st)) (snd (t st')) /\
    fst (m st) = fst (m st') /\
    same_but_writes (snd (m st)) (snd (m st')).
Proof.
  intros st st' drv speed_khz i2c_scan slave_addr nread nwrite wbuf H t m.
  destruct (blind_i2c_transaction slave_addr nread nwrite wbuf st st' H) as [Ht Hts].
  destruct (blind_main_bus drv speed_khz i2c_scan slave_addr nread nwrite wbuf st st' H)
    as [Hm Hms].
  auto.
Qed.

Lemma write_status_never_consulted_witness :
  let st := boot [] [(FT_OK, [0x00]); (FT_OK, [0x00])] in
  let st' := boot [FT_IO_ERROR; FT_IO_ERROR; FT_IO_ERROR; FT_IO_ERROR]
                  [(FT_OK, [0x00]); (FT_OK, [0x00])] in
  let t := i2c_transaction 0x3C 0 1 [0x55] in
  let m := main_bus setup_all_ok 100 false 0x3C 0 1 [0x55] in
  fst (t st) = fst (t st') /\
  same_but_writes (snd (t st)) (snd (t st')) /\
  fst (m st) = fst (m st') /\
  same_but_writes (snd (m st)) (snd (m st')).
Proof.
  apply (write_status_never_consulted
           (boot [] [(FT_OK, [0x00]); (FT_OK, [0x00])])
           (boot [FT_IO_ERROR; FT_IO_ERROR; FT_IO_ERROR; FT_IO_ERROR]
                 [(FT_OK, [0x00]); (FT_OK, [0x00])])
           setup_all_ok 100 false 0x3C 0 1 [0x55]).
  repeat split.
Defined.

(** ** Reads longer than the command buffer *)

Lemma map_indices_const (f : Z -> Z) (c : Z) (k : nat) :
  forall i : Z,
    (forall j, i <= j < i + Z.of_nat k -> f j = c) ->
    map f (indices k i) = repeat c k.
Proof.
  induction k as [| k IH]; intros i H; [reflexivity |].
  cbn [indices map repeat]. rewrite H by lia. f_equal.
  apply IH. intros j Hj. apply H. lia.
Qed.

Lemma read_groups_no_send_immediate (nbytes : Z) (ixs : list Z) :
  ~ In SEND_IMMEDIATE (flat_map (read_group nbytes) ixs).
Proof.
  rewrite in_flat_map. intros (i & _ & Hin). unfold read_group in Hin.
  destruct (i =? nbytes - 1); cbn in Hin; intuition discriminate.
Qed.

Lemma next_reply_eq (st st' : state) :
  read_replies st = read_replies st' -> next_reply st = next_reply st'.
Proof. unfold next_reply. intros ->. reflexivity. Qed.

Lemma inputRead_FT_Read (n : Z) (st : state) :
  inputRead (snd (FT_Read n st)) =
  Z.of_nat (Nat.min (Z.to_nat n) (length (snd (next_reply st)))).
Proof.
  unfold FT_Read, next_reply.
  destruct (read_replies st) as [| [s bytes] rest]; cbn [snd inputRead length].
  - rewrite Nat.min_0_r. reflexivity.
  - rewrite length_firstn. reflexivity.
Qed.

Lemma inputBuffer_FT_Read (n : Z) (st : state) :
  inputBuffer (snd (FT_Read n st)) =
  firstn (Z.to_nat n) (snd (next_reply st)) ++
  skipn (Nat.min (Z.to_nat n) (length (snd (next_reply st)))) (inputBuffer st).
Proof.
  unfold FT_Read, next_reply.
  destruct (read_replies st) as [| [s bytes] rest]; cbn [snd inputBuffer length].
  - rewrite Nat.min_0_r, firstn_nil. reflexivity.
  - rewrite length_firstn. reflexivity.
Qed.

(** X14.  read_bytes does not bound its length by the size of the command
    buffer.  Asked for more than 170 bytes (and no more than the 1024 that
    inputBuffer holds) with the command buffer empty, it hands
    the driver exactly 1023 bytes: 170 complete read groups, each with the
    acknowledge bit 0x00, and the byte-read command of the 171st.  The
    SEND_IMMEDIATE and every later group, the closing Nak among them, are
    dropped by append, so the bus clocks in 171 bytes whatever the length
    asked for, while FT_Read is still asked for all of them; the function
    returns 0. *)
Theorem read_bytes_beyond_the_buffer :
  forall (st : state) (nbytes : Z),
    outputBuffer st = [] ->
    170 < nbytes <= 1024 ->
    let r := read_bytes nbytes st in
    let sent := flat_map (read_group nbytes) (indices 170 0) ++
                [MSB_FALLING_EDGE_CLOCK_BYTE_IN; 0x00; 0x00] in
    fst r = 0 /\
    written (snd r) = written st ++ [sent] /\
    length sent = 1023%nat /\
    ~ In SEND_IMMEDIATE sent /\
    outputBuffer (snd r) = [] /\
    inputRead (snd r) =
      Z.of_nat (Nat.min (Z.to_nat nbytes) (length (snd (next_reply st)))) /\
    forall b : bus,
      expecting b = Opcode ->
      let b' := bus_run b sent in
      bytes_in b' = bytes_in b + 171 /\
      bits_out b' = bits_out b ++ repeat 0x00 170 /\
      expecting b' = Opcode.
Proof.
  intros st nbytes Hb [Hn Hmax] r sent.
  destruct (read_bytes_view nbytes st ltac:(lia)) as (Hf & Ho & Hr & Hw).
  fold r in Hf, Ho, Hr, Hw.
  rewrite (outputBuffer_enqueue_empty _ _ Hb), (read_cmds_cut _ Hn) in Hw.
  split; [exact Hf |]. split; [exact Hw |].
  split; [unfold sent; rewrite length_app, length_read_groups; reflexivity |].
  split.
  { unfold sent. rewrite in_app_iff. intros [H | H].
    - exact (read_groups_no_send_immediate _ _ H).
    - cbn in H. intuition discriminate. }
  split; [exact Ho |].
  split.
  { unfold r. rewrite read_bytes_unfold by lia. cbv zeta. cbn [snd].
    change (inputRead (set_ftStatus ?s ?x)) with (inputRead x).
    rewrite inputRead_FT_Read. f_equal. f_equal. f_equal. f_equal.
    apply next_reply_eq.
    destruct (execute_view (enqueue (read_cmds nbytes) st)) as (_ & -> & _).
    apply read_replies_enqueue. }
  intros b He b'. subst b' sent. rewrite bus_run_app.
  destruct b as [e sc sd ns np bo bi yi ti]. cbn [expecting] in He. subst e.
  rewrite run_read_groups.
  rewrite (map_indices_const _ 0x00) by
    (intros j Hj; destruct (Z.eqb_spec j (nbytes - 1)); [lia | reflexivity]).
  cbn [bytes_in bits_out]. unfold bus_run. cbn [fold_left].
  split; [| split]; try reflexivity.
  cbn. lia.
Qed.

Lemma read_bytes_beyond_the_buffer_witness :
  let st := boot [] [(FT_OK, [0x11; 0x22; 0x33])] in
  let r := read_bytes 200 st in
  let sent := flat_map (read_group 200) (indices 170 0) ++
              [MSB_FALLING_EDGE_CLOCK_BYTE_IN; 0x00; 0x00] in
  fst r = 0 /\
  written (snd r) = written st ++ [sent] /\
  length sent = 1023%nat /\
  ~ In SEND_IMMEDIATE sent /\
  outputBuffer (snd r) = [] /\
  inputRead (snd r) =
    Z.of_nat (Nat.min (Z.to_nat 200) (length (snd (next_reply st)))) /\
  forall b : bus,
    expecting b = Opcode ->
    let b' := bus_run b sent in
    bytes_in b' = bytes_in b + 171 /\
    bits_out b' = bits_out b ++ repeat 0x00 170 /\
    expecting b' = Opcode.
Proof.
  apply (read_bytes_beyond_the_buffer (boot [] [(FT_OK, [0x11; 0x22; 0x33])]) 200).
  - reflexivity.
  - lia.
Defined.

(** ** dump_hex *)

Lemma hex_digit_cases (d : Z) :
  0 <= d < 16 ->
  d = 0 \/ d = 1 \/ d = 2 \/ d = 3 \/ d = 4 \/ d = 5 \/ d = 6 \/ d = 7 \/
  d = 8 \/ d = 9 \/ d = 10 \/ d = 11 \/ d = 12 \/ d = 13 \/ d = 14 \/ d = 15.
Proof. lia. Qed.

Lemma hex_value_digit (d : Z) : 0 <= d < 16 -> hex_value (hex_digit d) = d.
Proof.
  intros H. destruct (hex_digit_cases d H) as
    [-> | [-> | [-> | [-> | [-> | [-> | [-> | [-> | [-> | [-> | [-> | [-> |
     [-> | [-> | [-> | ->]]]]]]]]]]]]]]]; reflexivity.
Qed.

Lemma hex_digit_not_newline (d : Z) :
  0 <= d < 16 -> Ascii.eqb (hex_digit d) newline = false.
Proof.
  intros H. destruct (hex_digit_cases d H) as
    [-> | [-> | [-> | [-> | [-> | [-> | [-> | [-> | [-> | [-> | [-> | [-> |
     [-> | [-> | [-> | ->]]]]]]]]]]]]]]]; reflexivity.
Qed.

Lemma undump_fmt (v : Z) (rest : list ascii) :
  0 <= v < 256 -> undump (fmt_02hx v ++ rest) = v :: undump rest.
Proof.
  intros H. unfold fmt_02hx. cbn [app undump].
  assert (H1 : 0 <= v / 16 < 16)
    by (split; [apply Z.div_pos | apply Z.div_lt_upper_bound]; lia).
  assert (H2 : 0 <= v mod 16 < 16) by (apply Z.mod_pos_bound; lia).
  rewrite hex_digit_not_newline, !hex_value_digit by assumption.
  f_equal. rewrite (Z.div_mod v 16) at 3 by lia. reflexivity.
Qed.

Lemma undump_newline (rest : list ascii) : undump (newline :: rest) = undump rest.
Proof. reflexivity. Qed.

Lemma uchar_range (x : Z) : 0 <= uchar x < 256.
Proof. unfold uchar. apply Z.mod_pos_bound. lia. Qed.

Lemma undump_dump_hex_loop (buf : list Z) (n : nat) :
  forall i : Z,
    0 <= i ->
    (Z.to_nat i + n <= length buf)%nat ->
    undump (dump_hex_loop n i buf) = map uchar (firstn n (skipn (Z.to_nat i) buf)).
Proof.
  induction n as [| n IH]; intros i Hi Hlen; [reflexivity |].
  cbn [dump_hex_loop]. rewrite undump_fmt by apply uchar_range.
  assert (Hsk : skipn (Z.to_nat i) buf =
                nth (Z.to_nat i) buf 0 :: skipn (Z.to_nat (i + 1)) buf).
  { replace (Z.to_nat (i + 1)) with (S (Z.to_nat i)) by lia.
    clear IH. revert Hlen. generalize (Z.to_nat i). intros k. revert buf.
    induction k as [| k IHk]; intros [| x buf] Hlen; cbn in Hlen; try lia.
    - reflexivity.
    - cbn [skipn nth]. apply IHk. lia. }
  rewrite Hsk. cbn [firstn map]. f_equal.
  destruct ((i + 1) mod 16 =? 0); cbn [app]; rewrite ?undump_newline;
    apply IH; lia.
Qed.

Lemma length_dump_hex_loop (buf : list Z) (n : nat) :
  forall i : Z,
    0 <= i ->
    Z.of_nat (length (dump_hex_loop n i buf)) =
    3 * Z.of_nat n + ((i + Z.of_nat n) / 16 - i / 16).
Proof.
  induction n as [| n IH]; intros i Hi.
  - cbn [dump_hex_loop length]. rewrite Z.add_0_r. lia.
  - cbn [dump_hex_loop]. rewrite !length_app, !Nat2Z.inj_add, IH by lia.
    replace (i + Z.of_nat (S n)) with (i + 1 + Z.of_nat n) by lia.
    assert (Hstep : Z.of_nat (length (if (i + 1) mod 16 =? 0 then [newline] else [])) =
                    (i + 1) / 16 - i / 16).
    { pose proof (Z.div_mod i 16 ltac:(lia)) as Hd.
      pose proof (Z.mod_pos_bound i 16 ltac:(lia)) as Hm.
      pose proof (Z.div_mod (i + 1) 16 ltac:(lia)) as Hd1.
      pose proof (Z.mod_pos_bound (i + 1) 16 ltac:(lia)) as Hm1.
      destruct (Z.eqb_spec ((i + 1) mod 16) 0) as [E | E]; cbn [length]; lia. }
    rewrite Hstep. cbn [fmt_02hx length]. lia.
Qed.

(** ** The data a read leaves behind *)

Lemma input_execute (st : state) :
  inputBuffer (snd (execute st)) = inputBuffer st /\
  inputRead (snd (execute st)) = inputRead st.
Proof. unfold execute. destruct (outputSize st =? 0); split; reflexivity. Qed.

Lemma input_stop_block (nread nwrite : Z) (st : state) :
  inputBuffer (snd (stop_block nread nwrite st)) = inputBuffer st /\
  inputRead (snd (stop_block nread nwrite st)) = inputRead st.
Proof.
  unfold stop_block. destruct (negb (nread =? 0) || negb (nwrite =? 0)).
  - rewrite stop_execute_eq. cbn [snd].
    destruct (input_execute (enqueue stop_cmds st)) as [-> ->]. split; reflexivity.
  - split; reflexivity.
Qed.

Lemma input_read_bytes (nbytes : Z) (st : state) :
  0 < nbytes ->
  let got := firstn (Z.to_nat nbytes) (snd (next_reply st)) in
  inputBuffer (snd (read_bytes nbytes st)) =
    got ++ skipn (length got) (inputBuffer st) /\
  inputRead (snd (read_bytes nbytes st)) = Z.of_nat (length got).
Proof.
  intros Hn got. rewrite read_bytes_unfold by exact Hn. cbv zeta. cbn [snd].
  change (inputBuffer (set_ftStatus ?s ?x)) with (inputBuffer x).
  change (inputRead (set_ftStatus ?s ?x)) with (inputRead x).
  rewrite inputBuffer_FT_Read, inputRead_FT_Read.
  assert (Hnext : next_reply (snd (execute (enqueue (read_cmds nbytes) st))) =
                  next_reply st).
  { apply next_reply_eq.
    destruct (execute_view (enqueue (read_cmds nbytes) st)) as (_ & -> & _).
    apply read_replies_enqueue. }
  rewrite Hnext. destruct (input_execute (enqueue (read_cmds nbytes) st)) as [-> _].
  subst got. rewrite length_firstn. split; reflexivity.
Qed.

Lemma transaction_read_state (slave_addr nread : Z) (wbuf : list Z) (st : state) :
  outputBuffer st = [] ->
  0 < nread ->
  is_ack (next_reply st) = true ->
  exists st1 : state,
    read_replies st1 = tl (read_replies st) /\
    i2c_transaction slave_addr nread 0 wbuf st =
    (0, snd (stop_block nread 0 (snd (read_bytes nread st1)))).
Proof.
  intros Hb Hn Ha.
  pose proof (start_send_view (READ (uchar slave_addr)) st Hb) as (Hf & _ & Hr & _).
  cbv zeta in Hf, Hr. rewrite (interpret_ack _ Ha) in Hf. cbn [send_code] in Hf.
  exists (snd (i2c_send_bk (READ (uchar slave_addr)) (enqueue start_cmds st))).
  split; [exact Hr |].
  rewrite i2c_transaction_blocks. unfold bind at 1. rewrite write_block_skipped.
  unfold bind at 1. unfold read_block.
  replace (negb (nread =? 0)) with true by (destruct (Z.eqb_spec nread 0); [lia | reflexivity]).
  rewrite bind_start. unfold bind.
  destruct (i2c_send_bk (READ (uchar slave_addr)) (enqueue start_cmds st)) as [c st1].
  cbn [fst snd] in *. subst c. cbn [Z.eqb negb].
  destruct (read_bytes nread st1) as [x st2]. unfold ret. cbv beta iota. cbn [snd].
  destruct (stop_block nread 0 st2) as [u st3]. reflexivity.
Qed.

Lemma undump_dump_hex (buf : list Z) (len : Z) :
  0 <= len <= Z.of_nat (length buf) ->
  undump (dump_hex buf len) = map uchar (firstn (Z.to_nat len) buf).
Proof.
  intros Hlen. unfold dump_hex. rewrite Z.sub_0_r.
  rewrite undump_dump_hex_loop by (cbn; lia). reflexivity.
Qed.

(** X16.  A read-only transaction of up to 1024 bytes whose address byte is
    acknowledged returns 0 and leaves in inputBuffer, counted by inputRead,
    the bytes the driver delivered for the read, at most nread of them,
    whatever status the driver gave with them; these are the bytes the transaction dumps on standard
    output with dump_hex(inputBuffer, inputRead). *)
Theorem read_data_is_what_gets_dumped :
  forall (st : state) (slave_addr nread : Z) (wbuf : list Z)
         (ack : Z * list Z) (status : Z) (bytes : list Z) (rest : list (Z * list Z)),
    outputBuffer st = [] ->
    0 < nread <= 1024 ->
    read_replies st = ack :: (status, bytes) :: rest ->
    is_ack ack = true ->
    let r := i2c_transaction slave_addr nread 0 wbuf st in
    let got := firstn (Z.to_nat nread) bytes in
    fst r = 0 /\
    inputRead (snd r) = Z.of_nat (length got) /\
    firstn (length got) (inputBuffer (snd r)) = got /\
    read_replies (snd r) = rest /\
    undump (dump_hex (inputBuffer (snd r)) (inputRead (snd r))) = map uchar got.
Proof.
  intros st slave_addr nread wbuf ack status bytes rest Hb [Hn Hmax] Hrep Ha r got.
  assert (Hnext : is_ack (next_reply st) = true)
    by (unfold next_reply; rewrite Hrep; exact Ha).
  destruct (transaction_read_state slave_addr nread wbuf st Hb Hn Hnext)
    as (st1 & Hr1 & Heq).
  pose proof (transaction_read_ack slave_addr nread wbuf st Hb Hn Hnext)
    as (_ & _ & Hrest & _).
  fold r in Heq, Hrest. rewrite Hrep in Hr1, Hrest. cbn [tl] in Hr1, Hrest.
  destruct (input_stop_block nread 0 (snd (read_bytes nread st1))) as [Hib Hir].
  destruct (input_read_bytes nread st1 Hn) as [Hgb Hgr].
  unfold next_reply in Hgb, Hgr. rewrite Hr1 in Hgb, Hgr. cbn [snd] in Hgb, Hgr.
  fold got in Hgb, Hgr.
  assert (Hbuf : inputBuffer (snd r) = got ++ skipn (length got) (inputBuffer st1))
    by (rewrite Heq; cbn [snd]; rewrite Hib; exact Hgb).
  assert (Hread : inputRead (snd r) = Z.of_nat (length got))
    by (rewrite Heq; cbn [snd]; rewrite Hir; exact Hgr).
  assert (Hfirst : firstn (length got) (inputBuffer (snd r)) = got).
  { rewrite Hbuf, firstn_app, Nat.sub_diag, firstn_all. cbn [firstn].
    apply app_nil_r. }
  split; [rewrite Heq; reflexivity |]. split; [exact Hread |].
  split; [exact Hfirst |]. split; [exact Hrest |].
  rewrite undump_dump_hex.
  - rewrite Hread, Nat2Z.id, Hfirst. reflexivity.
  - rewrite Hread, Hbuf, length_app. lia.
Qed.

Lemma read_data_is_what_gets_dumped_witness :
  let st := boot [] [(FT_OK, [0x00]); (FT_IO_ERROR, [0xAB; 0xCD; 0xEF])] in
  let r := i2c_transaction 0x3C 2 0 [] st in
  let got := firstn (Z.to_nat 2) [0xAB; 0xCD; 0xEF] in
  fst r = 0 /\
  inputRead (snd r) = Z.of_nat (length got) /\
  firstn (length got) (inputBuffer (snd r)) = got /\
  read_replies (snd r) = [] /\
  undump (dump_hex (inputBuffer (snd r)) (inputRead (snd r))) = map uchar got.
Proof.
  apply (read_data_is_what_gets_dumped
           (boot [] [(FT_OK, [0x00]); (FT_IO_ERROR, [0xAB; 0xCD; 0xEF])])
           0x3C 2 [] (FT_OK, [0x00]) FT_IO_ERROR [0xAB; 0xCD; 0xEF] []).
  - reflexivity.
  - lia.
  - reflexivity.
  - reflexivity.
Defined.

(** ** The command line *)

Lemma existsb_eqb_In (c : ascii) (l : list ascii) :
  existsb (Ascii.eqb c) l = true <-> In c l.
Proof.
  rewrite existsb_exists. split.
  - intros (x & Hin & Heq). apply Ascii.eqb_eq in Heq. subst x. exact Hin.
  - intros Hin. exists c. split; [exact Hin | apply Ascii.eqb_refl].
Qed.

Lemma strpbrk_spec (accept : list ascii) (s : list ascii) :
  match strpbrk s accept with
  | None => forall x, In x s -> ~ In x accept
  | Some p =>
      exists c, In c accept /\ s = firstn p s ++ c :: skipn (S p) s /\
                forall x, In x (firstn p s) -> ~ In x accept
  end.
Proof.
  induction s as [| c s IH]; cbn [strpbrk].
  - intros x [].
  - destruct (existsb (Ascii.eqb c) accept) eqn:E.
    + exists c. split; [apply existsb_eqb_In, E |]. split; [reflexivity |].
      intros x [].
    + assert (Hc : ~ In c accept)
        by (rewrite <- existsb_eqb_In, E; discriminate).
      destruct (strpbrk s accept) as [p |]; cbn [option_map].
      * destruct IH as (d & Hd & Hs & Hpre). exists d. split; [exact Hd |].
        split; [cbn [firstn skipn app]; f_equal; exact Hs |].
        cbn [firstn]. intros x [<- | Hx]; [exact Hc | apply Hpre, Hx].
      * intros x [<- | Hx]; [exact Hc | apply IH, Hx].
Qed.

(** X17.  mystrsep cuts the string at the first character that is one of the
    delimiters: the token returned is what precedes it and contains no
    delimiter, and the string is left pointing just behind it.  Without a
    delimiter the whole string is the token and the string pointer becomes
    NULL; called on a NULL string pointer it returns NULL. *)
Theorem mystrsep_cuts_at_first_delimiter :
  forall (s delim : list ascii),
    mystrsep None delim = (None, None) /\
    match mystrsep (Some s) delim with
    | (Some token, Some rest) =>
        (exists c, In c delim /\ s = token ++ c :: rest) /\
        (forall x, In x token -> ~ In x delim) /\
        (length rest < length s)%nat
    | (Some token, None) => token = s /\ forall x, In x s -> ~ In x delim
    | (None, _) => False
    end.
Proof.
  intros s delim. split; [reflexivity |]. unfold mystrsep.
  pose proof (strpbrk_spec delim s) as H.
  destruct (strpbrk s delim) as [p |].
  - destruct H as (c & Hc & Hs & Hpre). split; [exists c; auto |].
    split; [exact Hpre |].
    rewrite Hs at 2. rewrite length_app. cbn [length]. lia.
  - split; [reflexivity | exact H].
Qed.

Lemma split_blanks_strpbrk (s : list ascii) :
  match strpbrk s [" "%char] with
  | None => split_blanks s = [s]
  | Some p =>
      split_blanks s = firstn p s :: split_blanks (skipn (S p) s) /\
      (p < length s)%nat
  end.
Proof.
  induction s as [| c s IH]; cbn [strpbrk split_blanks]; [reflexivity |].
  cbn [existsb]. rewrite orb_false_r.
  destruct (Ascii.eqb c " "%char).
  - split; [reflexivity | cbn; lia].
  - destruct (strpbrk s [" "%char]) as [p |]; cbn [option_map].
    + destruct IH as [-> Hp]. split; [reflexivity | cbn [length]; lia].
    + rewrite IH. reflexivity.
Qed.

Section WriteArgumentsFacts.

Variable strtoul : list ascii -> Z.

Lemma split_arg_tokens (fuel : nat) :
  forall (arg : list ascii) (w : write_buffer),
    (length arg + 2 <= fuel)%nat ->
    split_arg strtoul fuel (Some arg) w =
    Some (fold_left (fun w s => store_byte strtoul s w) (split_blanks arg) w).
Proof.
  induction fuel as [| fuel IH]; intros arg w Hfuel; [lia |].
  cbn [split_arg]. unfold mystrsep.
  pose proof (split_blanks_strpbrk arg) as Hsplit.
  destruct (strpbrk arg [" "%char]) as [p |].
  - destruct Hsplit as [-> Hp]. cbn [fold_left]. apply IH.
    rewrite length_skipn. lia.
  - rewrite Hsplit. cbn [fold_left].
    destruct fuel as [| fuel]; [lia | reflexivity].
Qed.

Lemma main_write_args_tokens (args : list (list ascii)) :
  forall w : write_buffer,
    main_write_args strtoul args w =
    Some (fold_left (fun w s => store_byte strtoul s w)
                    (flat_map split_blanks args) w).
Proof.
  induction args as [| arg args IH]; intros w; cbn [main_write_args flat_map].
  - reflexivity.
  - rewrite split_arg_tokens by lia. rewrite IH, fold_left_app. reflexivity.
Qed.

Lemma stored_bytes (toks : list (list ascii)) :
  forall w : write_buffer,
    wbuf_bytes (fold_left (fun w s => store_byte strtoul s w) toks w) =
    wbuf_bytes w ++ map (fun s => uchar (strtoul s)) toks.
Proof.
  induction toks as [| t toks IH]; intros w; cbn [fold_left map].
  - symmetry. apply app_nil_r.
  - rewrite IH. cbn [store_byte wbuf_bytes]. rewrite <- app_assoc. reflexivity.
Qed.

(* the write buffer holds what was stored and was grown by doubling, no
   further than needed *)
Lemma stored_fits (toks : list (list ascii)) :
  forall w : write_buffer,
    (Z.of_nat (length (wbuf_bytes w)) <= wbufsize w /\
     (wbufsize w = 128 \/ wbufsize w < 2 * Z.of_nat (length (wbuf_bytes w))) /\
     exists k : nat, wbufsize w = 128 * 2 ^ Z.of_nat k) ->
    let w' := fold_left (fun w s => store_byte strtoul s w) toks w in
    Z.of_nat (length (wbuf_bytes w')) <= wbufsize w' /\
    (wbufsize w' = 128 \/ wbufsize w' < 2 * Z.of_nat (length (wbuf_bytes w'))) /\
    exists k : nat, wbufsize w' = 128 * 2 ^ Z.of_nat k.
Proof.
  induction toks as [| t toks IH]; intros w Hw; cbn [fold_left]; [exact Hw |].
  apply IH. destruct Hw as (Hle & Hmin & k & Hk).
  unfold store_byte. cbn [wbufsize wbuf_bytes]. rewrite length_app. cbn [length].
  assert (Hpos : 128 <= wbufsize w)
    by (rewrite Hk; pose proof (Z.pow_pos_nonneg 2 (Z.of_nat k)); nia).
  destruct (Z.geb_spec (Z.of_nat (length (wbuf_bytes w))) (wbufsize w)) as [Hge | Hlt].
  - split; [lia |]. split; [right; lia |].
    exists (S k). rewrite Hk, Nat2Z.inj_succ, Z.pow_succ_r by lia. lia.
  - split; [lia |]. split; [lia |]. exists k. exact Hk.
Qed.

End WriteArgumentsFacts.

Lemma split_blanks_nonempty (s : list ascii) : split_blanks s <> [].
Proof.
  destruct s as [| c s]; cbn [split_blanks]; [discriminate |].
  destruct (Ascii.eqb c " "%char); [discriminate |].
  destruct (split_blanks s); discriminate.
Qed.

Lemma join_blanks_cons (t : list ascii) (ts : list (list ascii)) :
  ts <> [] -> join_blanks (t :: ts) = t ++ " "%char :: join_blanks ts.
Proof. destruct ts; [congruence | reflexivity]. Qed.

Lemma join_blanks_head (c : ascii) (t : list ascii) (ts : list (list ascii)) :
  join_blanks ((c :: t) :: ts) = c :: join_blanks (t :: ts).
Proof. destruct ts; reflexivity. Qed.

Lemma join_split_blanks (s : list ascii) : join_blanks (split_blanks s) = s.
Proof.
  induction s as [| c s IH]; [reflexivity |]. cbn [split_blanks].
  destruct (Ascii.eqb_spec c " "%char) as [-> | Hc].
  - rewrite join_blanks_cons by apply split_blanks_nonempty.
    rewrite IH. reflexivity.
  - pose proof (split_blanks_nonempty s) as Hne.
    destruct (split_blanks s) as [| t ts]; [congruence |].
    rewrite join_blanks_head, IH. reflexivity.
Qed.

Lemma length_split_blanks (s : list ascii) :
  length (split_blanks s) = S (length (filter (Ascii.eqb " "%char) s)).
Proof.
  induction s as [| c s IH]; [reflexivity |]. cbn [split_blanks filter].
  rewrite (Ascii.eqb_sym " "%char c).
  destruct (Ascii.eqb c " "%char); cbn [length]; [rewrite IH; reflexivity |].
  destruct (split_blanks s); cbn [length] in *; [discriminate | exact IH].
Qed.

Lemma split_blanks_no_blank (s : list ascii) :
  forall t, In t (split_blanks s) -> ~ In " "%char t.
Proof.
  induction s as [| c s IH]; intros t; cbn [split_blanks].
  - intros [<- | []]. intros [].
  - destruct (Ascii.eqb_spec c " "%char) as [-> | Hc].
    + intros [<- | Hin]; [intros [] | apply IH, Hin].
    + destruct (split_blanks s) as [| u us].
      * intros [<- | []]. intros [H | []]. congruence.
      * intros [<- | Hin].
        -- intros [H | H]; [congruence |]. apply (IH u); [left; reflexivity | exact H].
        -- apply IH. right. exact Hin.
Qed.

(** X18.  With the write option given, main turns the remaining arguments
    into the bytes to write: every argument is cut at its blanks, every field
    so obtained, an empty one included, is converted with strtoul and stored
    as one byte, in order, and nwrite is the number of fields.  The loop over
    the fields of an argument ends, and the buffer, 128 bytes at first, only
    ever doubles, holds all the bytes stored and is never more than twice the
    size needed. *)
Theorem write_arguments_become_bytes :
  forall (strtoul : list ascii -> Z) (args : list (list ascii)),
    let fields := flat_map split_blanks args in
    (exists w : write_buffer,
       main_wbuf strtoul true args = Some (Z.of_nat (length fields), w) /\
       wbuf_bytes w = map (fun s => uchar (strtoul s)) fields /\
       Z.of_nat (length fields) <= wbufsize w /\
       (wbufsize w = 128 \/ wbufsize w < 2 * Z.of_nat (length fields)) /\
       exists k : nat, wbufsize w = 128 * 2 ^ Z.of_nat k) /\
    forall arg : list ascii,
      join_blanks (split_blanks arg) = arg /\
      length (split_blanks arg) = S (length (filter (Ascii.eqb " "%char) arg)) /\
      forall t, In t (split_blanks arg) -> ~ In " "%char t.
Proof.
  intros strtoul args fields. split.
  - unfold main_wbuf. rewrite main_write_args_tokens. fold fields.
    set (w := fold_left (fun w s => store_byte strtoul s w) fields (mkWbuf 128 [])).
    assert (Hbytes : wbuf_bytes w = map (fun s => uchar (strtoul s)) fields)
      by (unfold w; rewrite stored_bytes; reflexivity).
    assert (Hlen : length (wbuf_bytes w) = length fields)
      by (rewrite Hbytes; apply length_map).
    exists w. rewrite Hlen. split; [reflexivity |]. split; [exact Hbytes |].
    rewrite <- Hlen. apply stored_fits. cbn [wbufsize wbuf_bytes length].
    split; [lia |]. split; [left; reflexivity |]. exists 0%nat. reflexivity.
  - intros arg. split; [apply join_split_blanks |].
    split; [apply length_split_blanks | apply split_blanks_no_blank].
Qed.

(** ** The bus scan on a populated bus *)

Lemma In_indices (k : nat) :
  forall (i j : Z), In j (indices k i) -> i <= j < i + Z.of_nat k.
Proof.
  induction k as [| k IH]; intros i j; cbn [indices]; [intros [] |].
  intros [<- | H]; [lia |]. apply IH in H. lia.
Qed.

Lemma indices_In (k : nat) :
  forall (i j : Z), i <= j < i + Z.of_nat k -> In j (indices k i).
Proof.
  induction k as [| k IH]; intros i j Hj; [lia |]. cbn [indices].
  destruct (Z.eq_dec i j) as [E | E]; [left; exact E | right].
  apply IH. lia.
Qed.

Lemma scan_acked_present (present : Z -> bool) (rest : list (Z * list Z)) (k : nat) :
  forall i : Z,
    0 <= i ->
    i + Z.of_nat k <= 256 ->
    scan_acked (indices k i)
      (map (fun a => if present a then (FT_OK, [0x00]) else (FT_OK, [0x01]))
           (indices k i) ++ rest) =
    filter present (indices k i).
Proof.
  induction k as [| k IH]; intros i Hi Hk; [reflexivity |].
  cbn [indices map app scan_acked filter tl].
  rewrite IH by lia.
  destruct (present i); cbn [is_ack fst snd]; [| reflexivity].
  cbn [app]. rewrite uchar_small by lia. reflexivity.
Qed.

Lemma scan_loop_present (present : Z -> bool) (rest : list (Z * list Z)) (k : nat)
    (i : Z) (st : state) :
  outputBuffer st = [] ->
  read_replies st =
    map (fun a => if present a then (FT_OK, [0x00]) else (FT_OK, [0x01]))
        (indices k i) ++ rest ->
  0 <= i ->
  i + Z.of_nat k <= 256 ->
  fst (i2c_scan_loop k i [] st) = filter present (indices k i) /\
  read_replies (snd (i2c_scan_loop k i [] st)) = rest.
Proof.
  intros Hb Hrep Hi Hk.
  pose proof (scan_loop_outcome k i [] st Hb) as (Hf & _ & Hr & _).
  rewrite Hrep in Hf, Hr. rewrite scan_acked_present in Hf by assumption.
  split; [exact Hf |].
  rewrite Hr, skipn_app, skipn_all2 by (rewrite length_map, length_indices; lia).
  rewrite length_map, length_indices, Nat.sub_diag. reflexivity.
Qed.

(** X19.  On a bus where the probe of an address is acknowledged exactly
    when a slave is present there, the bus scan reports the present slaves
    among the addresses 0x00 to 0x7E, each once and in ascending order, and
    takes one reply for each of the 127 probes. *)
Theorem scan_reports_the_slaves_present :
  forall (st : state) (present : Z -> bool) (rest : list (Z * list Z)),
    outputBuffer st = [] ->
    read_replies st =
      map (fun a => if present a then (FT_OK, [0x00]) else (FT_OK, [0x01]))
          (indices 127 0) ++ rest ->
    fst (main_i2c_scan st) = filter present (indices 127 0) /\
    read_replies (snd (main_i2c_scan st)) = rest /\
    forall a : Z,
      In a (fst (main_i2c_scan st)) <-> (0 <= a <= 0x7E /\ present a = true).
Proof.
  intros st present rest Hb Hrep. rewrite main_i2c_scan_eq.
  destruct (scan_loop_present present rest 127 0 st Hb Hrep) as [Hf Hr]; [lia | lia |].
  rewrite Hf, Hr. split; [reflexivity |]. split; [reflexivity |].
  intros a. rewrite filter_In. split.
  - intros [Hin Hp]. apply In_indices in Hin. split; [lia | exact Hp].
  - intros [Ha Hp]. split; [apply indices_In; lia | exact Hp].
Qed.

Lemma scan_reports_the_slaves_present_witness :
  let present := fun a => (a =? 0x3C) || (a =? 0x50) in
  let st := boot [] (map (fun a => if present a then (FT_OK, [0x00]) else (FT_OK, [0x01]))
                         (indices 127 0) ++ []) in
  fst (main_i2c_scan st) = filter present (indices 127 0) /\
  read_replies (snd (main_i2c_scan st)) = [] /\
  forall a : Z,
    In a (fst (main_i2c_scan st)) <-> (0 <= a <= 0x7E /\ present a = true).
Proof.
  apply (scan_reports_the_slaves_present
           (boot [] (map (fun a => if (a =? 0x3C) || (a =? 0x50)
                                   then (FT_OK, [0x00]) else (FT_OK, [0x01]))
                         (indices 127 0) ++ []))
           (fun a => (a =? 0x3C) || (a =? 0x50)) []).
  - reflexivity.
  - reflexivity.
Defined.

(** ** A negative read length *)

Lemma input_i2c_send_bk (d : Z) (st : state) :
  inputBuffer (snd (i2c_send_bk d st)) = inputBuffer (snd (FT_Read 1 st)) /\
  inputRead (snd (i2c_send_bk d st)) = inputRead (snd (FT_Read 1 st)).
Proof.
  remember (i2c_send_bk d st) as X eqn:EX.
  rewrite i2c_send_bk_unfold in EX. unfold bind at 1 in EX.
  set (st1 := snd (execute (enqueue (send_cmds d) st))) in EX.
  assert (Hbuf : inputBuffer st1 = inputBuffer st)
    by (subst st1; destruct (input_execute (enqueue (send_cmds d) st)) as [-> _];
        reflexivity).
  assert (Hnext : next_reply st1 = next_reply st).
  { apply next_reply_eq. subst st1.
    destruct (execute_view (enqueue (send_cmds d) st)) as (_ & -> & _).
    apply read_replies_enqueue. }
  assert (Hin : inputBuffer (snd (FT_Read 1 st1)) = inputBuffer (snd (FT_Read 1 st)) /\
                inputRead (snd (FT_Read 1 st1)) = inputRead (snd (FT_Read 1 st))).
  { rewrite !inputBuffer_FT_Read, !inputRead_FT_Read, Hnext, Hbuf. auto. }
  destruct (FT_Read 1 st1) as [s st2]. cbn [snd] in Hin. cbv zeta in EX.
  rewrite ftStatus_set_ftStatus in EX.
  destruct (negb (s =? FT_OK) || (inputRead (set_ftStatus s st2) =? 0));
    [subst X; exact Hin |].
  destruct (negb (Z.land (nth 0 (inputBuffer (set_ftStatus s st2)) 0) 1 =? 0));
    [subst X; exact Hin |].
  rewrite bind_set_bits in EX. unfold bind in EX.
  destruct (input_execute (enqueue (set_bits_cmd (uchar SDA_OUT)) (set_ftStatus s st2)))
    as [Hb He].
  destruct (execute (enqueue (set_bits_cmd (uchar SDA_OUT)) (set_ftStatus s st2)))
    as [x st3].
  subst X. cbn [snd ret] in *. rewrite Hb, He. exact Hin.
Qed.

Lemma transaction_negative_state (slave_addr nread : Z) (wbuf : list Z) (st : state) :
  outputBuffer st = [] ->
  nread < 0 ->
  is_ack (next_reply st) = true ->
  i2c_transaction slave_addr nread 0 wbuf st =
  (0, snd (stop_block nread 0
             (snd (i2c_send_bk (READ (uchar slave_addr)) (enqueue start_cmds st))))).
Proof.
  intros Hb Hn Ha.
  pose proof (start_send_view (READ (uchar slave_addr)) st Hb) as (Hf & _).
  cbv zeta in Hf. rewrite (interpret_ack _ Ha) in Hf. cbn [send_code] in Hf.
  rewrite i2c_transaction_blocks. unfold bind at 1. rewrite write_block_skipped.
  unfold bind at 1. unfold read_block.
  replace (negb (nread =? 0)) with true by (destruct (Z.eqb_spec nread 0); [lia | reflexivity]).
  rewrite bind_start. unfold bind.
  destruct (i2c_send_bk (READ (uchar slave_addr)) (enqueue start_cmds st)) as [c st1].
  cbn [fst snd] in *. subst c. cbn [Z.eqb negb].
  rewrite read_bytes_invalid by lia. unfold ret. cbv beta iota. cbn [snd].
  destruct (stop_block nread 0 st1) as [u st3]. reflexivity.
Qed.

(** X20.  With a negative read length and an acknowledged address byte,
    read_bytes reads nothing, and what i2c_transaction then dumps with
    dump_hex(inputBuffer, inputRead) is the one byte left there by
    i2c_send_bk: the response that carried the acknowledge bit of the
    address. *)
Theorem negative_read_dumps_the_acknowledge :
  forall (st : state) (slave_addr nread : Z) (wbuf : list Z)
         (response : Z) (more : list Z) (rest : list (Z * list Z)),
    outputBuffer st = [] ->
    nread < 0 ->
    read_replies st = (FT_OK, response :: more) :: rest ->
    Z.land response 0x01 = 0x00 ->
    let r := i2c_transaction slave_addr nread 0 wbuf st in
    fst r = 0 /\
    inputRead (snd r) = 1 /\
    nth 0 (inputBuffer (snd r)) 0 = response /\
    dump_hex (inputBuffer (snd r)) (inputRead (snd r)) = fmt_02hx (uchar response).
Proof.
  intros st slave_addr nread wbuf response more rest Hb Hn Hrep Hack r.
  assert (Ha : is_ack (next_reply st) = true).
  { unfold next_reply, is_ack. rewrite Hrep. cbn [fst snd]. rewrite Hack. reflexivity. }
  pose proof (transaction_negative_state slave_addr nread wbuf st Hb Hn Ha) as Heq.
  fold r in Heq.
  destruct (input_stop_block nread 0
              (snd (i2c_send_bk (READ (uchar slave_addr)) (enqueue start_cmds st))))
    as [Hib Hir].
  destruct (input_i2c_send_bk (READ (uchar slave_addr)) (enqueue start_cmds st))
    as [Hsb Hsr].
  rewrite inputBuffer_FT_Read in Hsb. rewrite inputRead_FT_Read in Hsr.
  assert (Hnext : next_reply (enqueue start_cmds st) = (FT_OK, response :: more)).
  { unfold next_reply. rewrite read_replies_enqueue, Hrep. reflexivity. }
  rewrite Hnext in Hsb, Hsr. cbn [snd length] in Hsb, Hsr.
  change (Z.to_nat 1) with 1%nat in Hsb, Hsr.
  cbn [firstn Nat.min app] in Hsb, Hsr.
  assert (Hbuf : inputBuffer (snd r) =
                 response :: skipn 1 (inputBuffer (enqueue start_cmds st)))
    by (rewrite Heq; cbn [snd]; rewrite Hib; exact Hsb).
  assert (Hread : inputRead (snd r) = 1)
    by (rewrite Heq; cbn [snd]; rewrite Hir; exact Hsr).
  split; [rewrite Heq; reflexivity |]. split; [exact Hread |].
  split; [rewrite Hbuf; reflexivity |].
  rewrite Hread, Hbuf. unfold dump_hex.
  change (Z.to_nat (1 - 0)) with 1%nat. cbn [dump_hex_loop].
  change (Z.to_nat 0) with 0%nat. cbn [nth].
  change ((0 + 1) mod 16 =? 0) with false. cbn [app]. apply app_nil_r.
Qed.

Lemma negative_read_dumps_the_acknowledge_witness :
  let st := boot [] [(FT_OK, [0xFE])] in
  let r := i2c_transaction 0x3C (-1) 0 [] st in
  fst r = 0 /\
  inputRead (snd r) = 1 /\
  nth 0 (inputBuffer (snd r)) 0 = 0xFE /\
  dump_hex (inputBuffer (snd r)) (inputRead (snd r)) = fmt_02hx (uchar 0xFE).
Proof.
  apply (negative_read_dumps_the_acknowledge
           (boot [] [(FT_OK, [0xFE])]) 0x3C (-1) [] 0xFE [] []).
  - reflexivity.
  - lia.
  - reflexivity.
  - reflexivity.
Defined.

(** ** The layout of a dump *)

Lemma dump_hex_loop_app (buf : list Z) (n m : nat) :
  forall i : Z,
    dump_hex_loop (n + m) i buf =
    dump_hex_loop n i buf ++ dump_hex_loop m (i + Z.of_nat n) buf.
Proof.
  induction n as [| n IH]; intros i.
  - cbn [Nat.add dump_hex_loop app]. rewrite Z.add_0_r. reflexivity.
  - cbn [Nat.add dump_hex_loop]. rewrite IH, <- !app_assoc.
    replace (i + 1 + Z.of_nat n) with (i + Z.of_nat (S n)) by lia. reflexivity.
Qed.

Lemma nth_error_after {A} (l1 l2 : list A) (k : nat) :
  nth_error (l1 ++ l2) (length l1 + k) = nth_error l2 k.
Proof.
  rewrite nth_error_app2 by lia. f_equal. lia.
Qed.

(* the output from the byte of index i on *)
Lemma dump_hex_from (buf : list Z) (len i : Z) :
  0 <= i < len ->
  exists before rest : list ascii,
    dump_hex buf len =
      before ++
      fmt_02hx (uchar (nth (Z.to_nat i) buf 0)) ++
      (if (i + 1) mod 16 =? 0 then [newline] else []) ++ rest /\
    length before = Z.to_nat (3 * i + i / 16).
Proof.
  intros Hi. unfold dump_hex. rewrite Z.sub_0_r.
  replace (Z.to_nat len) with (Z.to_nat i + S (Z.to_nat (len - i - 1)))%nat by lia.
  rewrite dump_hex_loop_app. cbn [dump_hex_loop Z.add].
  rewrite Z2Nat.id by lia.
  exists (dump_hex_loop (Z.to_nat i) 0 buf),
         (dump_hex_loop (Z.to_nat (len - i - 1)) (i + 1) buf).
  split; [reflexivity |].
  apply Nat2Z.inj. rewrite length_dump_hex_loop by lia.
  rewrite !Z2Nat.id by (pose proof (Z.div_pos i 16); lia).
  cbn [Z.add]. rewrite Z.div_0_l by lia. lia.
Qed.

(** X15.  dump_hex writes every byte as two lowercase hexadecimal digits and
    a blank, and a newline after every sixteenth byte.  In the output of len
    bytes, which is 3 * len + len / 16 characters long, the byte of index i
    starts at position 3 * i + i / 16: there stand the digit of its high
    half, the digit of its low half and a blank, followed by a newline
    exactly when i + 1 is a multiple of 16.  Reading the digits back gives
    the bytes that were dumped. *)
Theorem dump_hex_layout :
  forall (buf : list Z) (len : Z),
    0 <= len <= Z.of_nat (length buf) ->
    let out := dump_hex buf len in
    Z.of_nat (length out) = 3 * len + len / 16 /\
    (forall i : Z,
       0 <= i < len ->
       let byte := uchar (nth (Z.to_nat i) buf 0) in
       let p := Z.to_nat (3 * i + i / 16) in
       nth_error out p = nth_error hex_digits (Z.to_nat (byte / 16)) /\
       nth_error out (p + 1) = nth_error hex_digits (Z.to_nat (byte mod 16)) /\
       nth_error out (p + 2) = Some " "%char /\
       ((i + 1) mod 16 = 0 -> nth_error out (p + 3) = Some "010"%char) /\
       ((i + 1) mod 16 <> 0 -> i + 1 = len -> nth_error out (p + 3) = None)) /\
    undump out = map uchar (firstn (Z.to_nat len) buf).
Proof.
  intros buf len Hlen out.
  assert (Hlength : Z.of_nat (length out) = 3 * len + len / 16).
  { unfold out, dump_hex. rewrite Z.sub_0_r, length_dump_hex_loop by lia.
    rewrite Z2Nat.id by lia. cbn [Z.add]. rewrite Z.div_0_l by lia. lia. }
  split; [exact Hlength |]. split; [| apply undump_dump_hex; exact Hlen].
  intros i Hi byte p.
  destruct (dump_hex_from buf len i Hi) as (before & rest & Hout & Hbefore).
  fold out in Hout. fold byte in Hout. fold p in Hbefore.
  assert (Hhigh : 0 <= byte / 16 < 16).
  { pose proof (uchar_range (nth (Z.to_nat i) buf 0)). fold byte in H.
    split; [apply Z.div_pos | apply Z.div_lt_upper_bound]; lia. }
  assert (Hlow : 0 <= byte mod 16 < 16) by (apply Z.mod_pos_bound; lia).
  assert (Hdigit : forall d, 0 <= d < 16 ->
             Some (hex_digit d) = nth_error hex_digits (Z.to_nat d)).
  { intros d Hd. destruct (hex_digit_cases d Hd) as
      [-> | [-> | [-> | [-> | [-> | [-> | [-> | [-> | [-> | [-> | [-> | [-> |
       [-> | [-> | [-> | ->]]]]]]]]]]]]]]]; reflexivity. }
  rewrite <- !Hdigit by assumption.
  replace p with (length before + 0)%nat by lia.
  rewrite <- !Nat.add_assoc. cbn [Nat.add]. rewrite Hout, !nth_error_after.
  unfold fmt_02hx. cbn [app nth_error].
  split; [reflexivity |]. split; [reflexivity |]. split; [reflexivity |].
  split.
  - intros Hm. rewrite Hm. reflexivity.
  - intros Hm Hend.
    destruct (Z.eqb_spec ((i + 1) mod 16) 0) as [E | _]; [contradiction |].
    cbn [app] in *. destruct rest as [| c rest]; [reflexivity | exfalso].
    assert (Hl : length out = (length before + 3 + S (length rest))%nat)
      by (rewrite Hout; unfold fmt_02hx; rewrite !length_app; cbn [length]; lia).
    pose proof (Z.div_mod (i + 1) 16 ltac:(lia)) as Hd1.
    pose proof (Z.div_mod i 16 ltac:(lia)) as Hd.
    pose proof (Z.mod_pos_bound i 16 ltac:(lia)) as Hb.
    pose proof (Z.mod_pos_bound (i + 1) 16 ltac:(lia)) as Hb1.
    pose proof (Z.div_pos i 16 ltac:(lia) ltac:(lia)) as Hp.
    subst len. lia.
Qed.

Lemma dump_hex_layout_witness :
  let buf := [0xDE; 0xAD; 0xBE; 0xEF; 0x00; 0x01; 0x02; 0x03; 0x04; 0x05; 0x06;
              0x07; 0x08; 0x09; 0x0A; 0x0B; 0x0C; 0x0D] in
  let out := dump_hex buf 17 in
  Z.of_nat (length out) = 3 * 17 + 17 / 16 /\
  (forall i : Z,
     0 <= i < 17 ->
     let byte := uchar (nth (Z.to_nat i) buf 0) in
     let p := Z.to_nat (3 * i + i / 16) in
     nth_error out p = nth_error hex_digits (Z.to_nat (byte / 16)) /\
     nth_error out (p + 1) = nth_error hex_digits (Z.to_nat (byte mod 16)) /\
     nth_error out (p + 2) = Some " "%char /\
     ((i + 1) mod 16 = 0 -> nth_error out (p + 3) = Some "010"%char) /\
     ((i + 1) mod 16 <> 0 -> i + 1 = 17 -> nth_error out (p + 3) = None)) /\
  undump out = map uchar (firstn (Z.to_nat 17) buf).
Proof.
  apply (dump_hex_layout
           [0xDE; 0xAD; 0xBE; 0xEF; 0x00; 0x01; 0x02; 0x03; 0x04; 0x05; 0x06;
            0x07; 0x08; 0x09; 0x0A; 0x0B; 0x0C; 0x0D] 17).
  cbn. lia.
Defined.

(** ** The exit status of main *)

Lemma main_wbuf_some (strtoul : list ascii -> Z) (writing : bool)
    (args : list (list ascii)) :
  exists (nwrite : Z) (w : write_buffer),
    main_wbuf strtoul writing args = Some (nwrite, w).
Proof.
  unfold main_wbuf. destruct writing.
  - rewrite main_write_args_tokens. eauto.
  - eauto.
Qed.

Lemma scan_devices_finds (devs : device_list) :
  snd (scan_devices devs None) =
  if (list_status devs =? FT_OK) &&
     match serial_numbers devs with [] => false | _ :: _ => true end
  then Some (hd [] (serial_numbers devs))
  else None.
Proof.
  unfold scan_devices.
  destruct (list_status devs =? FT_OK); cbn [negb andb snd]; [| reflexivity].
  destruct (serial_numbers devs); reflexivity.
Qed.

Lemma bus_run_nothing_sent (st : state) (b : bus) : bus_run b (sent_since st st) = b.
Proof.
  assert (Hw : written st = written st ++ []) by (symmetry; apply app_nil_r).
  destruct (sent_since_batches _ _ _ Hw) as [_ ->]. apply bus_run_nil.
Qed.

Lemma main_after_options_cases (strtoul : list ascii -> Z) (o : options)
    (args : list (list ascii)) (devs : device_list) (drv : setup_replies)
    (st : state) :
  exists (nwrite : Z) (w : write_buffer),
    main_wbuf strtoul (opt_writing o) args = Some (nwrite, w) /\
    main_after_options strtoul o args devs drv st =
    if (opt_slave_addr o <? 0) && negb (opt_ftdi_scan o) && negb (opt_i2c_scan o)
    then (Some (1, []), st)
    else if opt_ftdi_scan o then (Some (0, []), st)
    else if match opt_serial_num o with
            | Some _ => true
            | None =>
                (list_status devs =? FT_OK) &&
                match serial_numbers devs with [] => false | _ :: _ => true end
            end
    then
      let m := main_bus drv (opt_speed_khz o) (opt_i2c_scan o) (opt_slave_addr o)
                 (opt_nread o) nwrite (wbuf_bytes w) st in
      (Some (fst m), snd m)
    else (Some (-1, []), st).
Proof.
  destruct (main_wbuf_some strtoul (opt_writing o) args) as (nwrite & w & Hwbuf).
  exists nwrite, w. split; [exact Hwbuf |].
  unfold main_after_options. rewrite Hwbuf.
  destruct ((opt_slave_addr o <? 0) && negb (opt_ftdi_scan o) && negb (opt_i2c_scan o));
    [reflexivity |].
  destruct (opt_ftdi_scan o); [reflexivity |].
  cbv zeta. destruct (opt_serial_num o) as [s |].
  - unfold bind, ret.
    destruct (main_bus drv (opt_speed_khz o) (opt_i2c_scan o) (opt_slave_addr o)
                (opt_nread o) nwrite (wbuf_bytes w) st) as [x st']. reflexivity.
  - rewrite scan_devices_finds.
    destruct ((list_status devs =? FT_OK) &&
              match serial_numbers devs with [] => false | _ :: _ => true end);
      [| reflexivity].
    unfold bind, ret.
    destruct (main_bus drv (opt_speed_khz o) (opt_i2c_scan o) (opt_slave_addr o)
                (opt_nread o) nwrite (wbuf_bytes w) st) as [x st']. reflexivity.
Qed.

(** X12.  From the end of its option loop on, and for a driver that accepts
    every write and reads that fit inputBuffer, main ends as follows.  It
    exits with 1 through usage when neither an address nor a scan was asked
    for; with 0 after listing the devices when -S was given; with exit(-1),
    which the parent process sees as 255, when no serial number was given and
    scan_devices finds no device; with 1 when a
    set-up call of ftdi_configure_i2c fails; in all these cases nothing is
    handed to the driver.  Otherwise it returns 0, whatever the bus scan and
    the transaction met, so also when i2c_transaction returned SLAVE_NAK_ADDR
    or SLAVE_NAK_DATA.  The loop over the write arguments always ends, the
    command buffer ends empty and an idle bus ends idle. *)
Theorem main_exit_status :
  forall (strtoul : list ascii -> Z) (o : options) (args : list (list ascii))
         (devs : device_list) (drv : setup_replies) (st : state),
    outputBuffer st = [] ->
    writes_accepted st ->
    queue_size drv <= sizeof_inputBuffer ->
    opt_nread o <= sizeof_inputBuffer ->
    let r := main_after_options strtoul o args devs drv st in
    let usage :=
      (opt_slave_addr o <? 0) && negb (opt_ftdi_scan o) && negb (opt_i2c_scan o) in
    let device :=
      match opt_serial_num o with
      | Some _ => true
      | None =>
          (list_status devs =? FT_OK) &&
          match serial_numbers devs with [] => false | _ :: _ => true end
      end in
    exists (status : Z) (acked : list Z),
      fst r = Some (status, acked) /\
      (usage = true -> status = 1) /\
      (usage = false -> opt_ftdi_scan o = true -> status = 0) /\
      (usage = false -> opt_ftdi_scan o = false -> device = false -> status = -1) /\
      (usage = false -> opt_ftdi_scan o = false -> device = true ->
       ~ setup_ok drv -> status = 1) /\
      (usage = false -> opt_ftdi_scan o = false -> device = true ->
       setup_ok drv -> status = 0) /\
      (usage = true \/ opt_ftdi_scan o = true \/ device = false \/ ~ setup_ok drv ->
       written (snd r) = written st) /\
      outputBuffer (snd r) = [] /\
      forall b : bus, bus_idle b -> bus_idle (bus_run b (sent_since st (snd r))).
Proof.
  intros strtoul o args devs drv st Hb Hwrites Hqueue Hread. cbv zeta.
  destruct (main_after_options_cases strtoul o args devs drv st)
    as (nwrite & w & _ & ->).
  assert (Hquiet : forall b : bus,
             bus_idle b -> bus_idle (bus_run b (sent_since st st)))
    by (intros b Hidle; rewrite bus_run_nothing_sent; exact Hidle).
  destruct ((opt_slave_addr o <? 0) && negb (opt_ftdi_scan o) && negb (opt_i2c_scan o)).
  { exists 1, []. cbn [fst snd].
    split; [reflexivity |]. do 5 (split; [intros; congruence |]).
    split; [reflexivity |]. split; [exact Hb | exact Hquiet]. }
  destruct (opt_ftdi_scan o).
  { exists 0, []. cbn [fst snd].
    split; [reflexivity |]. do 5 (split; [intros; congruence |]).
    split; [reflexivity |]. split; [exact Hb | exact Hquiet]. }
  destruct (match opt_serial_num o with
            | Some _ => true
            | None =>
                (list_status devs =? FT_OK) &&
                match serial_numbers devs with [] => false | _ :: _ => true end
            end).
  2:{ exists (-1), []. cbn [fst snd].
      split; [reflexivity |]. do 5 (split; [intros; congruence |]).
      split; [reflexivity |]. split; [exact Hb | exact Hquiet]. }
  pose proof (main_bus_outcome drv (opt_speed_khz o) (opt_i2c_scan o)
                (opt_slave_addr o) (opt_nread o) nwrite (wbuf_bytes w) st Hb)
    as (Hok & Hno & Ho & Hi).
  cbv zeta in *.
  destruct (main_bus drv (opt_speed_khz o) (opt_i2c_scan o) (opt_slave_addr o)
              (opt_nread o) nwrite (wbuf_bytes w) st) as [[status acked] st'].
  cbn [fst snd] in *.
  exists status, acked. split; [reflexivity |].
  do 3 (split; [intros; congruence |]).
  split; [intros _ _ _ Hbad; destruct (Hno Hbad) as [H _]; congruence |].
  split; [intros _ _ _ Hgood; exact (Hok Hgood) |].
  split; [| split; [exact Ho | exact Hi]].
  intros [H | [H | [H | H]]]; try congruence. apply Hno, H.
Qed.

Lemma main_exit_status_witness :
  let o := mkOptions 0x3C false false true 0 100 None in
  let devs := mkDevices FT_OK [["F"; "T"; "1"]%char] in
  let st := boot [] [(FT_OK, [0x01])] in
  let r := main_after_options (fun _ => 0x55) o [["0"; "x"; "5"; "5"]%char]
             devs setup_all_ok st in
  let usage :=
    (opt_slave_addr o <? 0) && negb (opt_ftdi_scan o) && negb (opt_i2c_scan o) in
  let device :=
    match opt_serial_num o with
    | Some _ => true
    | None =>
        (list_status devs =? FT_OK) &&
        match serial_numbers devs with [] => false | _ :: _ => true end
    end in
  exists (status : Z) (acked : list Z),
    fst r = Some (status, acked) /\
    (usage = true -> status = 1) /\
    (usage = false -> opt_ftdi_scan o = true -> status = 0) /\
    (usage = false -> opt_ftdi_scan o = false -> device = false -> status = -1) /\
    (usage = false -> opt_ftdi_scan o = false -> device = true ->
     ~ setup_ok setup_all_ok -> status = 1) /\
    (usage = false -> opt_ftdi_scan o = false -> device = true ->
     setup_ok setup_all_ok -> status = 0) /\
    (usage = true \/ opt_ftdi_scan o = true \/ device = false \/
     ~ setup_ok setup_all_ok ->
     written (snd r) = written st) /\
    outputBuffer (snd r) = [] /\
    forall b : bus, bus_idle b -> bus_idle (bus_run b (sent_since st (snd r))).
Proof.
  apply (main_exit_status (fun _ => 0x55)
           (mkOptions 0x3C false false true 0 100 None)
           [["0"; "x"; "5"; "5"]%char]
           (mkDevices FT_OK [["F"; "T"; "1"]%char]) setup_all_ok
           (boot [] [(FT_OK, [0x01])])).
  - reflexivity.
  - apply Forall_nil.
  - unfold sizeof_inputBuffer. cbn. lia.
  - unfold sizeof_inputBuffer. cbn. lia.
Defined.
